(** * QBWC bridge: session state machine and QBXML renderer

    A shallow embedding of the QuickBooks Web Connector bridge: the SOAP
    handlers of index.js with their in-memory session table, and the QBXML
    builder of qbxml.js, followed by the properties of the session
    protocol and of the rendered documents.

    Conventions of the embedding.
    - A JavaScript [Number] is an IEEE-754 binary64 value ([spec_float]
      with precision 53 and maximal exponent 1024); [*] and [/] are the
      correctly rounded operations of [SpecFloat]. The integral Numbers
      that [Math.round] produces are carried as integers, which is exact
      below 2^53.
    - The session table [sessions] (a JS [Map] keyed by ticket) is a
      [gmap string Session]; a handler mutates the session object it looked
      up, which is written back under the same ticket.
    - The record store (Google Sheets or the Apps Script endpoint), the XML
      parser (xml2js) and the platform built-ins [parseFloat] and [Date]
      are interfaces: the handlers are written against them. The world
      keeps a record of the calls made to the store.
    - A [Request] is a decoded SOAP call and a [Response] is what the
      handler passes to [buildResponse]; the envelopes are not modelled.
    - Spreadsheet cells and SOAP parameters are strings or [undefined].
    - Every handler runs to completion before the next one starts.
    - Logging is left out, except where evaluating the logged expression
      can throw.

    The development goes on to the code around the handlers: the Google
    Sheets adapter of sheets.js, written against the three operations of
    [spreadsheets.values] with a record of the requests made; the request
    listener of server.js with its query parser, and the HTTP entry point
    of index.js, with the SOAP layer and the WSDL text as parameters; and
    the way handleSOAPRequest finds the method in the parsed envelope.
    There a cell is text, a Number or a boolean, and text is held as
    UTF-8 bytes. *)

From Stdlib Require Import ZArith Lia Bool Ascii String List.
From Stdlib Require Import Numbers.DecimalString.
From Stdlib Require Import Floats.SpecFloat.
From stdpp Require Import base option list gmap strings.

Local Open Scope Z_scope.

(* ===================================================================== *)
(** ** JavaScript numbers *)
(* ===================================================================== *)

Module Num.

Abbreviation Number := spec_float.

Definition prec : Z := 53.
Definition emax : Z := 1024.

Definition mul : Number -> Number -> Number := SFmul prec emax.
Definition div : Number -> Number -> Number := SFdiv prec emax.

(** The Number nearest to an integer (exact below 2^53). *)
Definition of_Z (z : Z) : Number := binary_normalize prec emax z 0 false.
Definition of_nat (n : nat) : Number := of_Z (Z.of_nat n).

Definition NaN : Number := S754_nan.
Definition Infinity : Number := S754_infinity false.

(** The signed mantissa of a finite non-zero Number. *)
Definition signed (s : bool) (m : positive) : Z :=
  if s then Z.neg m else Z.pos m.

(** [Math.floor]: the largest integral Number below the argument.
    A Number with a non-negative exponent is already integral. *)
Definition Math_floor (x : Number) : Number :=
  match x with
  | S754_finite s m (Z.neg k) =>
      let z := Z.shiftr (signed s m) (Z.pos k) in
      if z =? 0 then S754_zero s else of_Z z
  | _ => x
  end.

(** Integral Numbers, as they come out of [Math.round]: the two
    zeros are identified (they print alike and both are [=== 0]). *)
Inductive Integral : Type :=
| INaN
| IInf (negative : bool)
| IInt (z : Z).

(** [Math.round]: the nearest integer, a tie going towards +∞, that is
    floor(x + 1/2) computed exactly. *)
Definition Math_round (x : Number) : Integral :=
  match x with
  | S754_nan => INaN
  | S754_infinity s => IInf s
  | S754_zero _ => IInt 0
  | S754_finite s m (Z.neg k) =>
      IInt (Z.shiftr (signed s m + Z.shiftl 1 (Z.pos k - 1)) (Z.pos k))
  | S754_finite s m e => IInt (Z.shiftl (signed s m) e)
  end.

(** [Math.floor(t / d)] for an integral [t] and a positive integer [d].
    Below 2^53 the rounded quotient of two integers floors to their
    integer quotient. *)
Definition floor_div (t : Integral) (d : Z) : Integral :=
  match t with
  | IInt z => IInt (z / d)
  | _ => t
  end.

(** [t % d]: the remainder has the sign of the dividend; the remainder
    of an infinity is NaN. *)
Definition rem (t : Integral) (d : Z) : Integral :=
  match t with
  | IInt z => IInt (Z.rem z d)
  | _ => INaN
  end.

(** [t === 0] *)
Definition is_zero (t : Integral) : bool :=
  match t with
  | IInt z => z =? 0
  | _ => false
  end.

Definition Z_to_string (z : Z) : string :=
  NilZero.string_of_int (Z.to_int z).

(** [String(t)] for an integral Number below 10^21. *)
Definition to_string (t : Integral) : string :=
  match t with
  | INaN => "NaN"
  | IInf false => "Infinity"
  | IInf true => "-Infinity"
  | IInt z => Z_to_string z
  end.

(** [t + 1] on integral Numbers. *)
Definition succ (t : Integral) : Integral :=
  match t with
  | IInt z => IInt (z + 1)
  | _ => t
  end.

(** The sign bit is clear (NaN has none). *)
Definition sign_clear (x : Number) : bool :=
  match x with
  | S754_zero s | S754_infinity s | S754_finite s _ _ => negb s
  | S754_nan => true
  end.

(** Structural equality of Numbers. *)
Definition same (x y : Number) : bool :=
  match x, y with
  | S754_zero s, S754_zero s' | S754_infinity s, S754_infinity s' => Bool.eqb s s'
  | S754_nan, S754_nan => true
  | S754_finite s m e, S754_finite s' m' e' =>
      Bool.eqb s s' && Pos.eqb m m' && Z.eqb e e'
  | _, _ => false
  end.

(** [x || 0] on Numbers: NaN and the zeros are falsy. *)
Definition or_zero (x : Number) : Number :=
  match x with
  | S754_nan | S754_zero _ => S754_zero false
  | _ => x
  end.

End Num.

(* ===================================================================== *)
(** ** JavaScript strings *)
(* ===================================================================== *)

Module Str.

Definition dq : string := String "034"%char EmptyString.
Definition nl : string := String "010"%char EmptyString.

(** A value that is a string or [undefined]. *)
Abbreviation Cell := (option string).

(** Truthiness: [undefined] and the empty string are falsy. *)
Definition truthy (v : Cell) : bool :=
  match v with
  | Some (String _ _) => true
  | _ => false
  end.

(** [v || d] *)
Definition or_else (v : Cell) (d : string) : string :=
  match v with
  | Some (String c s) => String c s
  | _ => d
  end.

(** [v === lit] *)
Definition strict_eq (v : Cell) (lit : string) : bool :=
  match v with
  | Some s => String.eqb s lit
  | None => false
  end.

(** [s.replace(/c/g, by)] for a one-character pattern. *)
Fixpoint replace_all (c : ascii) (by_ : string) (s : string) : string :=
  match s with
  | EmptyString => EmptyString
  | String a s' =>
      if Ascii.eqb a c then by_ +:+ replace_all c by_ s'
      else String a (replace_all c by_ s')
  end.

(** [arr.join(sep)] *)
Fixpoint join (sep : string) (arr : list string) : string :=
  match arr with
  | [] => EmptyString
  | [s] => s
  | s :: rest => s +:+ sep +:+ join sep rest
  end.

Fixpoint repeat_char (c : ascii) (n : nat) : string :=
  match n with
  | O => EmptyString
  | S n' => String c (repeat_char c n')
  end.

(** [s.padStart(n, c)] for a one-character filler. *)
Definition padStart (n : nat) (c : ascii) (s : string) : string :=
  repeat_char c (n - String.length s) +:+ s.

(** [hay.startsWith(needle)] *)
Fixpoint startsWith (needle hay : string) : bool :=
  match needle, hay with
  | EmptyString, _ => true
  | String a n', String b h' => Ascii.eqb a b && startsWith n' h'
  | String _ _, EmptyString => false
  end.

(** [hay.includes(needle)] *)
Fixpoint includes (needle hay : string) : bool :=
  startsWith needle hay ||
  match hay with
  | EmptyString => false
  | String _ h' => includes needle h'
  end.

(** Occurrence of a character. *)
Fixpoint has_char (c : ascii) (s : string) : bool :=
  match s with
  | EmptyString => false
  | String a s' => Ascii.eqb a c || has_char c s'
  end.

(** Free of the tag opener. *)
Definition no_lt (s : string) : Prop := has_char "<" s = false.

End Str.

(* ===================================================================== *)
(** ** The record store's rows and the platform built-ins *)
(* ===================================================================== *)

(** One pending clock entry. Cells are strings or absent; a numeric cell
    stands for its decimal text, which is what [parseFloat] reads. *)
Record Entry : Type := mkEntry {
  ID : Str.Cell;
  EmployeeName : Str.Cell;
  ClockIn : Str.Cell;
  ClockOut : Str.Cell;
  RequiresTicket : Str.Cell;
  CustomerName : Str.Cell;
  JobName : Str.Cell;
  TotalHours : Str.Cell;
  Notes : Str.Cell
}.

(** A [Date] object seen through its local calendar getters. *)
Inductive DateObj : Type :=
| InvalidDate
| LocalDate (year monthIndex day : Z).

(** The built-ins the renderer calls. *)
Class Builtins : Type := {
  parseFloat : Str.Cell -> Num.Number;
  newDate : Str.Cell -> DateObj
}.

(* ===================================================================== *)
(** ** qbxml.js: the QBXML builder *)
(* ===================================================================== *)

Module Qbxml.
Import Str.

Definition getFullYear (d : DateObj) : Num.Integral :=
  match d with InvalidDate => Num.INaN | LocalDate y _ _ => Num.IInt y end.
Definition getMonth (d : DateObj) : Num.Integral :=
  match d with InvalidDate => Num.INaN | LocalDate _ m _ => Num.IInt m end.
Definition getDate (d : DateObj) : Num.Integral :=
  match d with InvalidDate => Num.INaN | LocalDate _ _ dd => Num.IInt dd end.

(** Format date as YYYY-MM-DD *)
Definition formatDate (date : DateObj) : string :=
  let year := getFullYear date in
  let month := padStart 2 "0" (Num.to_string (Num.succ (getMonth date))) in
  let day := padStart 2 "0" (Num.to_string (getDate date)) in
  Num.to_string year +:+ "-" +:+ month +:+ "-" +:+ day.

(** Format hours as ISO 8601 duration (PT#H#M) *)
Definition formatDuration (hours : Num.Number) : string :=
  let totalMinutes := Num.Math_round (Num.mul hours (Num.of_Z 60)) in
  let h := Num.floor_div totalMinutes 60 in
  let m := Num.rem totalMinutes 60 in
  if Num.is_zero m then
    "PT" +:+ Num.to_string h +:+ "H"
  else
    "PT" +:+ Num.to_string h +:+ "H" +:+ Num.to_string m +:+ "M".

(** Escape XML special characters *)
Definition escapeXml (str : Cell) : string :=
  if negb (truthy str) then ""
  else
    replace_all "'" "&apos;"
      (replace_all "034" ("&quot;")
        (replace_all ">" "&gt;"
          (replace_all "<" "&lt;"
            (replace_all "&" "&amp;" (or_else str ""))))).

Definition notes_of (entry : Entry) : list string :=
  (if truthy (CustomerName entry) && negb (strict_eq (CustomerName entry) "Shop")
   then ["Customer: " +:+ or_else (CustomerName entry) ""] else []) ++
  (if truthy (JobName entry) then ["Job: " +:+ or_else (JobName entry) ""] else []) ++
  (if truthy (Notes entry) then ["Notes: " +:+ or_else (Notes entry) ""] else []).

(** The billable test of the builder. *)
Definition is_billable (entry : Entry) : bool :=
  truthy (CustomerName entry)
  && negb (strict_eq (CustomerName entry) "Shop")
  && strict_eq (RequiresTicket entry) "TRUE".

Definition xml_head (txnDate employeeName duration : string) : string :=
  "<?xml version=" +:+ dq +:+ "1.0" +:+ dq +:+ " encoding=" +:+ dq +:+ "utf-8" +:+ dq +:+ "?>" +:+ nl +:+
  "<?qbxml version=" +:+ dq +:+ "13.0" +:+ dq +:+ "?>" +:+ nl +:+
  "<QBXML>" +:+ nl +:+
  "  <QBXMLMsgsRq onError=" +:+ dq +:+ "stopOnError" +:+ dq +:+ ">" +:+ nl +:+
  "    <TimeTrackingAddRq>" +:+ nl +:+
  "      <TimeTrackingAdd>" +:+ nl +:+
  "        <TxnDate>" +:+ txnDate +:+ "</TxnDate>" +:+ nl +:+
  "        <EntityRef>" +:+ nl +:+
  "          <FullName>" +:+ employeeName +:+ "</FullName>" +:+ nl +:+
  "        </EntityRef>" +:+ nl +:+
  "        <Duration>" +:+ duration +:+ "</Duration>".

Definition xml_billable (customer : string) : string :=
  nl +:+
  "        <CustomerRef>" +:+ nl +:+
  "          <FullName>" +:+ customer +:+ "</FullName>" +:+ nl +:+
  "        </CustomerRef>" +:+ nl +:+
  "        <BillableStatus>Billable</BillableStatus>".

Definition xml_not_billable : string :=
  nl +:+
  "        <BillableStatus>NotBillable</BillableStatus>".

Definition xml_notes (notesText : string) : string :=
  nl +:+
  "        <Notes>" +:+ notesText +:+ "</Notes>".

Definition xml_tail : string :=
  nl +:+
  "      </TimeTrackingAdd>" +:+ nl +:+
  "    </TimeTrackingAddRq>" +:+ nl +:+
  "  </QBXMLMsgsRq>" +:+ nl +:+
  "</QBXML>".

(** Build QBXML TimeTrackingAdd request *)
Definition buildTimeTrackingAddXML `{Builtins} (entry : Entry) : string :=
  let clockIn := newDate (ClockIn entry) in
  let txnDate := formatDate clockIn in
  let totalHours := Num.or_zero (parseFloat (TotalHours entry)) in
  let duration := formatDuration totalHours in
  let employeeName := escapeXml (Some (or_else (EmployeeName entry) "Unknown")) in
  let notesText := escapeXml (Some (join " | " (notes_of entry))) in
  let qbxml := xml_head txnDate employeeName duration in
  let qbxml :=
    if is_billable entry
    then qbxml +:+ xml_billable (escapeXml (CustomerName entry))
    else qbxml +:+ xml_not_billable in
  let qbxml :=
    match notesText with
    | EmptyString => qbxml
    | _ => qbxml +:+ xml_notes notesText
    end in
  qbxml +:+ xml_tail.

End Qbxml.

(* ===================================================================== *)
(** ** Dynamic values, exceptions and the external interfaces *)
(* ===================================================================== *)

(** The result of an evaluation that may throw; [message] is the
    [error.message] of the exception. *)
Inductive Outcome (A : Type) : Type :=
| Returns (a : A)
| Throws (message : string).
Arguments Returns {A} a.
Arguments Throws {A} message.

Module JS.

(** The values xml2js builds, and the values [lastError] may hold. *)
#[local] Unset Elimination Schemes.
Inductive Value : Type :=
| Undefined
| Null
| Str (s : string)
| Obj (fields : list (string * Value))
| Arr (items : list Value).
#[local] Set Elimination Schemes.

Definition truthy (v : Value) : bool :=
  match v with
  | Undefined | Null | Str EmptyString => false
  | _ => true
  end.

Fixpoint assoc (k : string) (fields : list (string * Value)) : Value :=
  match fields with
  | [] => Undefined
  | (k', v) :: rest => if String.eqb k' k then v else assoc k rest
  end.

Definition TypeError (base k : string) : string :=
  "Cannot read properties of " +:+ base +:+ " (reading '" +:+ k +:+ "')".

(** [v.k] for a property name that is neither an index nor [length]. *)
Definition get (v : Value) (k : string) : Outcome Value :=
  match v with
  | Undefined => Throws (TypeError "undefined" k)
  | Null => Throws (TypeError "null" k)
  | Obj fields => Returns (assoc k fields)
  | Str _ | Arr _ => Returns Undefined
  end.

(** [v?.k] *)
Definition get_opt (v : Value) (k : string) : Outcome Value :=
  match v with
  | Undefined | Null => Returns Undefined
  | _ => get v k
  end.

(** [v || ''] *)
Definition or_empty (v : Value) : Value :=
  if truthy v then v else Str "".

(** [v === lit] for a string literal *)
Definition strict_eq (v : Value) (lit : string) : bool :=
  match v with
  | Str s => String.eqb s lit
  | _ => false
  end.

End JS.

(** xml2js: [parseStringPromise(response, { explicitArray: false })]. *)
Class XmlParser : Type := {
  parseStringPromise : string -> Outcome JS.Value
}.

(** The record store adapter (sheets.js and its Apps Script variant
    implement the same two operations); [St] is the state of the store
    behind it, which each call may observe and change. *)
Class RecordStore (St : Type) : Type := {
  getQBSyncPendingEntries : St -> Outcome (list Entry) * St;
  markEntriesQBSynced : list Str.Cell -> St -> Outcome unit * St
}.

(** [CONFIG] of the bridge. *)
Record Config : Type := mkConfig {
  username : string;
  password : string
}.

(* ===================================================================== *)
(** ** index.js: sessions and the SOAP handlers *)
(* ===================================================================== *)

Record Session : Type := mkSession {
  authenticated : bool;
  pendingEntries : list Entry;
  currentIndex : nat;
  lastError : JS.Value
}.

Definition set_pendingEntries (es : list Entry) (s : Session) : Session :=
  mkSession (authenticated s) es (currentIndex s) (lastError s).
Definition set_currentIndex (i : nat) (s : Session) : Session :=
  mkSession (authenticated s) (pendingEntries s) i (lastError s).
Definition set_lastError (v : JS.Value) (s : Session) : Session :=
  mkSession (authenticated s) (pendingEntries s) (currentIndex s) v.

(** The world outside the session table: the store, and a record of the
    calls made to it (how often the pending entries were fetched, and
    the batches handed to [markEntriesQBSynced], oldest first). *)
Record World (St : Type) : Type := mkWorld {
  store : St;
  fetchCalls : nat;
  markCalls : list (list Str.Cell)
}.
Arguments mkWorld {St} _ _ _.
Arguments store {St} _.
Arguments fetchCalls {St} _.
Arguments markCalls {St} _.

Record State (St : Type) : Type := mkState {
  sessions : gmap string Session;
  world : World St
}.
Arguments mkState {St} _ _.
Arguments sessions {St} _.
Arguments world {St} _.

(** What a handler passes to [buildResponse]. *)
Inductive Response : Type :=
| serverVersionResponse (serverVersionResult : string)
| clientVersionResponse (clientVersionResult : string)
| authenticateResponse (authenticateResult : list string)
| sendRequestXMLResponse (sendRequestXMLResult : string)
| receiveResponseXMLResponse (receiveResponseXMLResult : Num.Number)
| connectionErrorResponse (connectionErrorResult : string)
| getLastErrorResponse (getLastErrorResult : JS.Value)
| closeConnectionResponse (closeConnectionResult : string)
| SOAPFault (faultstring : string).

(** The decoded SOAP call. [authenticate] carries, besides its two
    parameters, the clock reading and the random suffix that this call
    draws for the ticket. *)
Inductive Request : Type :=
| serverVersion
| clientVersion (strVersion : Str.Cell)
| authenticate (strUserName strPassword : Str.Cell) (now : Z) (random : string)
| sendRequestXML (ticket : Str.Cell)
| receiveResponseXML (ticket response : Str.Cell)
| connectionError (ticket message : Str.Cell)
| getLastError (ticket : Str.Cell)
| closeConnection (ticket : Str.Cell)
| unknownMethod (methodName : string).

(** *** The body of a [try] block: state passing with exceptions.
    The state reached when an exception is thrown is kept, as the
    [catch] block continues from it. *)
Module Try.
Definition t (S A : Type) : Type := S -> Outcome A * S.

Definition ret {S A} (a : A) : t S A := fun s => (Returns a, s).
Definition bind {S A B} (m : t S A) (k : A -> t S B) : t S B :=
  fun s =>
    match m s with
    | (Returns a, s') => k a s'
    | (Throws msg, s') => (Throws msg, s')
    end.
Definition lift {S A} (o : Outcome A) : t S A := fun s => (o, s).
End Try.

Notation "'do' x <- m ; k" := (Try.bind m (fun x => k))
  (at level 10, x name, m at level 100, k at level 200, only parsing).

Section Bridge.
Context `{Builtins} `{XmlParser} {St : Type} `{RecordStore St}.
Variable CONFIG : Config.

(** A handler works on the session object it looked up and on the
    world; the session is written back under the same ticket. *)
Abbreviation Ctx := (Session * World St)%type.

Definition session : Try.t Ctx Session :=
  fun c => (Returns (fst c), c).

Definition update (f : Session -> Session) : Try.t Ctx unit :=
  fun c => (Returns tt, (f (fst c), snd c)).

(** [await getQBSyncPendingEntries()] *)
Definition call_getQBSyncPendingEntries : Try.t Ctx (list Entry) :=
  fun c =>
    let w := snd c in
    let (r, st') := getQBSyncPendingEntries (store w) in
    (r, (fst c, mkWorld st' (S (fetchCalls w)) (markCalls w))).

(** [await markEntriesQBSynced(ids)] *)
Definition call_markEntriesQBSynced (ids : list Str.Cell) : Try.t Ctx unit :=
  fun c =>
    let w := snd c in
    let (r, st') := markEntriesQBSynced ids (store w) in
    (r, (fst c, mkWorld st' (fetchCalls w) (markCalls w ++ [ids]))).

(** [const entry = arr[i]] followed by the first read [entry.k]: an
    index out of range yields [undefined], whose property read throws. *)
Definition deref (entry : option Entry) (k : string) : Outcome Entry :=
  match entry with
  | Some e => Returns e
  | None => Throws (JS.TypeError "undefined" k)
  end.

(** [Math.floor((currentIndex / pendingEntries.length) * 100)] *)
Definition progress (s : Session) : Num.Number :=
  Num.Math_floor
    (Num.mul (Num.div (Num.of_nat (currentIndex s))
                      (Num.of_nat (length (pendingEntries s))))
             (Num.of_Z 100)).

(** Handle clientVersion - check if client version is compatible *)
Definition handleClientVersion (strVersion : Str.Cell) (σ : State St)
  : Response * State St :=
  (clientVersionResponse "", σ).

(** Handle authenticate - validate username/password *)
Definition handleAuthenticate (strUserName strPassword : Str.Cell)
    (now : Z) (random : string) (σ : State St) : Response * State St :=
  let username_ := Str.or_else strUserName "" in
  let password_ := Str.or_else strPassword "" in
  if String.eqb username_ (username CONFIG) && String.eqb password_ (password CONFIG)
  then
    let ticket := "TICKET-" +:+ Num.Z_to_string now +:+ "-" +:+ random in
    (authenticateResponse [ticket; ""],
     mkState (<[ticket := mkSession true [] 0%nat (JS.Str "")]> (sessions σ)) (world σ))
  else
    (authenticateResponse [""; "nvu"], σ).

(** The [try] block of handleSendRequestXML. *)
Definition sendRequestXML_try : Try.t Ctx string :=
  do s <- session;
  do _ <- (if (length (pendingEntries s) =? 0)%nat && (currentIndex s =? 0)%nat
       then (do es <- call_getQBSyncPendingEntries;
             update (set_pendingEntries es))
       else Try.ret tt);
  do s <- session;
  if (length (pendingEntries s) <=? currentIndex s)%nat
  then Try.ret ""
  else
    do entry <- Try.lift (deref (pendingEntries s !! currentIndex s) "ID");
    Try.ret (Qbxml.buildTimeTrackingAddXML entry).

(** Handle sendRequestXML - return QBXML commands to execute *)
Definition handleSendRequestXML (ticket_ : Str.Cell) (σ : State St)
  : Response * State St :=
  let ticket := Str.or_else ticket_ "" in
  match sessions σ !! ticket with
  | None => (sendRequestXMLResponse "", σ)
  | Some s =>
      if negb (authenticated s) then (sendRequestXMLResponse "", σ)
      else
        match sendRequestXML_try (s, world σ) with
        | (Returns qbxml, (s', w')) =>
            (sendRequestXMLResponse qbxml,
             mkState (<[ticket := s']> (sessions σ)) w')
        | (Throws message, (s', w')) =>
            (sendRequestXMLResponse "",
             mkState (<[ticket := set_lastError (JS.Str message) s']> (sessions σ)) w')
        end
  end.

(** The [try] block of handleReceiveResponseXML. *)
Definition receiveResponseXML_try (response : string) : Try.t Ctx Num.Number :=
  do parsed <- Try.lift (parseStringPromise response);
  do qbxml <- Try.lift (JS.get parsed "QBXML");
  do msgsRs <- Try.lift (JS.get_opt qbxml "QBXMLMsgsRs");
  do timeTrackingRs <- Try.lift (JS.get_opt msgsRs "TimeTrackingAddRs");
  do _ <- (if JS.truthy timeTrackingRs then
         do attrs <- Try.lift (JS.get timeTrackingRs "$");
         do statusCode <- Try.lift (JS.get attrs "statusCode");
         do statusMessage <- Try.lift (JS.get attrs "statusMessage");
         if JS.strict_eq statusCode "0" then
           do s <- session;
           do entry <- Try.lift (deref (pendingEntries s !! currentIndex s) "ID");
           call_markEntriesQBSynced [ID entry]
         else
           update (set_lastError statusMessage)
       else Try.ret tt);
  do _ <- update (fun s => set_currentIndex (S (currentIndex s)) s);
  do s <- session;
  Try.ret (progress s).

(** Handle receiveResponseXML - process QuickBooks response *)
Definition handleReceiveResponseXML (ticket_ response_ : Str.Cell) (σ : State St)
  : Response * State St :=
  let ticket := Str.or_else ticket_ "" in
  let response := Str.or_else response_ "" in
  match sessions σ !! ticket with
  | None => (receiveResponseXMLResponse (Num.of_Z (-1)), σ)
  | Some s =>
      match receiveResponseXML_try response (s, world σ) with
      | (Returns p, (s', w')) =>
          (receiveResponseXMLResponse p,
           mkState (<[ticket := s']> (sessions σ)) w')
      | (Throws message, (s', w')) =>
          let s'' := set_lastError (JS.Str message) s' in
          let s'' := set_currentIndex (S (currentIndex s'')) s'' in
          (receiveResponseXMLResponse (Num.of_Z (-1)),
           mkState (<[ticket := s'']> (sessions σ)) w')
      end
  end.

(** Handle connectionError *)
Definition handleConnectionError (ticket_ message_ : Str.Cell) (σ : State St)
  : Response * State St :=
  let ticket := Str.or_else ticket_ "" in
  let message := Str.or_else message_ "" in
  match sessions σ !! ticket with
  | Some s =>
      (connectionErrorResponse "done",
       mkState (<[ticket := set_lastError (JS.Str message) s]> (sessions σ)) (world σ))
  | None => (connectionErrorResponse "done", σ)
  end.

(** Handle getLastError *)
Definition handleGetLastError (ticket_ : Str.Cell) (σ : State St)
  : Response * State St :=
  let ticket := Str.or_else ticket_ "" in
  let lastError_ :=
    match sessions σ !! ticket with
    | Some s => JS.or_empty (lastError s)
    | None => JS.Str ""
    end in
  (getLastErrorResponse lastError_, σ).

(** Handle closeConnection *)
Definition handleCloseConnection (ticket_ : Str.Cell) (σ : State St)
  : Response * State St :=
  let ticket := Str.or_else ticket_ "" in
  (closeConnectionResponse "OK", mkState (delete ticket (sessions σ)) (world σ)).

(** Parse and route SOAP requests: the [switch] on the method name. *)
Definition handleSOAPRequest (rq : Request) (σ : State St) : Response * State St :=
  match rq with
  | serverVersion => (serverVersionResponse "1.0.0", σ)
  | clientVersion v => handleClientVersion v σ
  | authenticate u p now random => handleAuthenticate u p now random σ
  | sendRequestXML t => handleSendRequestXML t σ
  | receiveResponseXML t r => handleReceiveResponseXML t r σ
  | connectionError t m => handleConnectionError t m σ
  | getLastError t => handleGetLastError t σ
  | closeConnection t => handleCloseConnection t σ
  | unknownMethod methodName => (SOAPFault ("Unknown method: " +:+ methodName), σ)
  end.

(** Serving a sequence of calls, oldest first. *)
Fixpoint serve (rqs : list Request) (σ : State St) : list Response * State St :=
  match rqs with
  | [] => ([], σ)
  | rq :: rest =>
      let (r, σ1) := handleSOAPRequest rq σ in
      let (rs, σ2) := serve rest σ1 in
      (r :: rs, σ2)
  end.

(** The state of a freshly started process. *)
Definition boot (st : St) : State St :=
  mkState ∅ (mkWorld st 0%nat []).

End Bridge.

(* ===================================================================== *)
(** ** Reading a response document *)
(* ===================================================================== *)

(** The elements and attributes of a parsed response document, as the
    statements below name them. *)
Module Doc.

(** The child [k] of an element; [undefined] when there is none. *)
Definition child (k : string) (v : JS.Value) : JS.Value :=
  match v with
  | JS.Obj fields => JS.assoc k fields
  | _ => JS.Undefined
  end.

(** The element QBXML/QBXMLMsgsRs/TimeTrackingAddRs. *)
Definition timeTrackingAddRs (parsed : JS.Value) : JS.Value :=
  child "TimeTrackingAddRs" (child "QBXMLMsgsRs" (child "QBXML" parsed)).

(** Its attributes [statusCode] and [statusMessage]. *)
Definition statusCode (parsed : JS.Value) : JS.Value :=
  child "statusCode" (child "$" (timeTrackingAddRs parsed)).
Definition statusMessage (parsed : JS.Value) : JS.Value :=
  child "statusMessage" (child "$" (timeTrackingAddRs parsed)).

End Doc.

(* ===================================================================== *)
(** ** Vocabulary of the session protocol *)
(* ===================================================================== *)

(** The session a freshly issued ticket names. *)
Definition fresh_session : Session := mkSession true [] 0%nat (JS.Str "").

(** The call is a receiveResponseXML bearing ticket [T]. *)
Definition receives (rq : Request) (T : string) : bool :=
  match rq with
  | receiveResponseXML t _ => String.eqb (Str.or_else t "") T
  | _ => false
  end.

(** The call is an accepted authenticate that issues ticket [T]. *)
Definition issues (CONFIG : Config) (rq : Request) (T : string) : bool :=
  match rq with
  | authenticate u p now random =>
      String.eqb (Str.or_else u "") (username CONFIG)
      && String.eqb (Str.or_else p "") (password CONFIG)
      && String.eqb ("TICKET-" +:+ Num.Z_to_string now +:+ "-" +:+ random) T
  | _ => false
  end.

(** Every session's cursor is within its worklist. *)
Definition cursors_bounded {St} (σ : State St) : Prop :=
  forall T s, sessions σ !! T = Some s ->
    (0 <= currentIndex s <= length (pendingEntries s))%nat.

(** A receiveResponseXML answers a document that was handed out: the
    session it names still has an entry at its cursor. *)
Definition answers_a_request {St} (rq : Request) (σ : State St) : Prop :=
  match rq with
  | receiveResponseXML t _ =>
      forall s, sessions σ !! Str.or_else t "" = Some s ->
        (currentIndex s < length (pendingEntries s))%nat
  | _ => True
  end.

(** Every receiveResponseXML of a sequence of calls answers a request. *)
Fixpoint conforming `{Builtins} `{XmlParser} {St} `{RecordStore St}
    (CONFIG : Config) (rqs : list Request) (σ : State St) : Prop :=
  match rqs with
  | [] => True
  | rq :: rest =>
      answers_a_request rq σ
      /\ conforming CONFIG rest (snd (handleSOAPRequest CONFIG rq σ))
  end.

(** The session has consumed a non-empty worklist. *)
Definition drained (s : Session) : Prop :=
  (0 < currentIndex s)%nat /\ (length (pendingEntries s) <= currentIndex s)%nat.

(** The session after its cursor has moved on by one. *)
Definition advanced (s : Session) : Session :=
  set_currentIndex (S (currentIndex s)) s.

(** What serving one call does to the session named [T]: the session
    may be closed; a freshly issued ticket names a fresh session; and
    otherwise only a receiveResponseXML bearing [T] moves the cursor,
    by exactly one and without touching the worklist, while every other
    call keeps the cursor and keeps the worklist unless it was empty
    with the cursor at 0. *)
Definition session_step (CONFIG : Config) (rq : Request) (T : string)
    (before after : option Session) : Prop :=
  match before, after with
  | _, None => True
  | None, Some s' => issues CONFIG rq T = true /\ s' = fresh_session
  | Some s, Some s' =>
      (issues CONFIG rq T = true /\ s' = fresh_session)
      \/ (authenticated s' = authenticated s
          /\ if receives rq T
             then pendingEntries s' = pendingEntries s
                  /\ currentIndex s' = S (currentIndex s)
             else currentIndex s' = currentIndex s
                  /\ (pendingEntries s' = pendingEntries s
                      \/ (pendingEntries s = [] /\ currentIndex s = 0%nat)))
  end.

(** The session named [T] is closed or drained. *)
Definition closed_or_drained {St} (T : string) (σ : State St) : Prop :=
  match sessions σ !! T with
  | None => True
  | Some s => drained s
  end.

(* ===================================================================== *)
(** ** Vocabulary of the renderer *)
(* ===================================================================== *)

(** The rounding policy in the words of the specification: the nearest
    integer, a tie going away from zero. *)
Module Policy.
Import Num.

(** Nearest integer to [m / 2^k], ties upwards, for [m >= 0]. *)
Definition nearest_tie_up (m : Z) (k : Z) : Z :=
  let q := m / 2 ^ k in
  let r := m mod 2 ^ k in
  if 2 ^ k <=? 2 * r then q + 1 else q.

Definition round_half_away_from_zero (x : Number) : Integral :=
  match x with
  | S754_nan => INaN
  | S754_infinity s => IInf s
  | S754_zero _ => IInt 0
  | S754_finite s m (Z.neg k) =>
      let a := nearest_tie_up (Z.pos m) (Z.pos k) in
      IInt (if s then - a else a)
  | S754_finite s m e => IInt ((if s then - Z.pos m else Z.pos m) * 2 ^ e)
  end.

(** The rendering of a whole number of minutes [t >= 0]. *)
Definition render_minutes (t : Z) : string :=
  "PT" +:+ Z_to_string (t / 60) +:+ "H" +:+
  (if t mod 60 =? 0 then "" else Z_to_string (t mod 60) +:+ "M").

(** The CustomerRef element naming a billing target. *)
Definition customer_ref (target : string) : string :=
  "<CustomerRef>" +:+ Str.nl +:+
  "          <FullName>" +:+ target +:+ "</FullName>" +:+ Str.nl +:+
  "        </CustomerRef>".

(** A billable document: it contains the CustomerRef of the target and
    the Billable status. *)
Definition billable_document (target doc : string) : Prop :=
  Str.includes (customer_ref target) doc = true
  /\ Str.includes "<BillableStatus>Billable</BillableStatus>" doc = true.

(** A document that is not billable: it contains the NotBillable
    status, no CustomerRef and no Billable status. *)
Definition not_billable_document (doc : string) : Prop :=
  Str.includes "<BillableStatus>NotBillable</BillableStatus>" doc = true
  /\ Str.includes "<CustomerRef>" doc = false
  /\ Str.includes "<BillableStatus>Billable</BillableStatus>" doc = false.

(** The record has a billing target that is not the placeholder, and
    its requires-billing flag is the text TRUE. *)
Definition billing_required (entry : Entry) : Prop :=
  Str.truthy (CustomerName entry) = true
  /\ CustomerName entry <> Some "Shop"
  /\ RequiresTicket entry = Some "TRUE".

(** The notes element, when there is one. *)
Definition notes_block (notesText : string) : string :=
  match notesText with
  | EmptyString => ""
  | _ => Qbxml.xml_notes notesText
  end.

End Policy.

(* ===================================================================== *)
(** ** A concrete deployment, for running the handlers *)
(* ===================================================================== *)

Module Demo.

Definition one_and_a_half : Num.Number := Num.div (Num.of_Z 3) (Num.of_Z 2).

(** [parseFloat] and [new Date] on the few cell texts used below. *)
#[export] Instance builtins : Builtins := {|
  parseFloat c :=
    match c with
    | Some "1.5" => one_and_a_half
    | Some "2" => Num.of_Z 2
    | Some "8" => Num.of_Z 8
    | _ => Num.NaN
    end;
  newDate c :=
    match c with
    | Some "2026-03-02T08:00:00" => LocalDate 2026 2 2
    | Some "2026-03-03T08:00:00" => LocalDate 2026 2 3
    | _ => InvalidDate
    end
|}.

Definition rs_ok : string :=
  "<QBXML><QBXMLMsgsRs><TimeTrackingAddRs statusCode='0' statusMessage='Status OK'/></QBXMLMsgsRs></QBXML>".
Definition rs_failed : string :=
  "<QBXML><QBXMLMsgsRs><TimeTrackingAddRs statusCode='3140' statusMessage='Invalid reference to Employee'/></QBXMLMsgsRs></QBXML>".
Definition rs_other : string :=
  "<QBXML><QBXMLMsgsRs/></QBXML>".

Definition addRs (statusCode statusMessage : string) : JS.Value :=
  JS.Obj [("QBXML", JS.Obj [("QBXMLMsgsRs", JS.Obj [("TimeTrackingAddRs",
    JS.Obj [("$", JS.Obj [("statusCode", JS.Str statusCode);
                          ("statusMessage", JS.Str statusMessage)])])])])].

(** xml2js on the documents above; the empty document parses to
    [null], anything else is rejected. *)
#[export] Instance parser : XmlParser := {|
  parseStringPromise s :=
    if String.eqb s rs_ok then Returns (addRs "0" "Status OK")
    else if String.eqb s rs_failed then Returns (addRs "3140" "Invalid reference to Employee")
    else if String.eqb s rs_other then Returns (JS.Obj [("QBXML", JS.Obj [("QBXMLMsgsRs", JS.Str "")])])
    else if String.eqb s "" then Returns JS.Null
    else Throws "Non-whitespace before first tag."
|}.

(** A store that answers the successive fetches from a script (and
    with the empty list once the script is used up) and accepts
    every mark. *)
#[export] Instance store : RecordStore (list (Outcome (list Entry))) := {|
  getQBSyncPendingEntries st :=
    match st with
    | [] => (Returns [], [])
    | r :: rest => (r, rest)
    end;
  markEntriesQBSynced ids st := (Returns tt, st)
|}.

Definition config : Config := mkConfig "trippinqb" "changeme123".

Definition entry (id who hours customer flag : string) : Entry :=
  {| ID := Some id; EmployeeName := Some who;
     ClockIn := Some "2026-03-02T08:00:00"; ClockOut := None;
     RequiresTicket := Some flag; CustomerName := Some customer;
     JobName := None; TotalHours := Some hours; Notes := None |}.

Definition e1 : Entry := entry "CL-1" "Ann Lee" "1.5" "Shop" "FALSE".
Definition e2 : Entry := entry "CL-2" "Bo Diaz" "2" "Acme & Sons" "TRUE".
Definition e3 : Entry := entry "CL-3" "Cy Wu" "8" "Acme & Sons" "FALSE".

Definition login : Request :=
  authenticate (Some "trippinqb") (Some "changeme123") 1772438400000 "k3x9q".
Definition ticket : string := "TICKET-1772438400000-k3x9q".

End Demo.

(* ===================================================================== *)
(** ** The three-record session *)
(* ===================================================================== *)

Module Scenario.
Import Demo.

(** The store holds three pending entries; the agent logs in and is
    handed the three documents in turn, reporting success, a failure
    with status 3140, and success. *)
Definition calls : list Request :=
  [ login;
    sendRequestXML (Some ticket); receiveResponseXML (Some ticket) (Some rs_ok);
    sendRequestXML (Some ticket); receiveResponseXML (Some ticket) (Some rs_failed);
    sendRequestXML (Some ticket); receiveResponseXML (Some ticket) (Some rs_ok) ].

Definition outcome : list Response * State (list (Outcome (list Entry))) :=
  serve config calls (boot [Returns [e1; e2; e3]]).

(** The state right after login and the first request, with the three
    entries fetched, and the session in it. *)
Definition streaming : State (list (Outcome (list Entry))) :=
  snd (serve config [login; sendRequestXML (Some ticket)]
         (boot [Returns [e1; e2; e3]])).

Definition streaming_session : Session :=
  {| authenticated := true; pendingEntries := [e1; e2; e3];
     currentIndex := 0; lastError := JS.Str "" |}.

(** The session at the end of [calls]. *)
Definition drained_session : Session :=
  {| authenticated := true; pendingEntries := [e1; e2; e3];
     currentIndex := 3; lastError := JS.Str "Invalid reference to Employee" |}.

(** A process whose store holds nothing. *)
Definition idle : State (list (Outcome (list Entry))) := boot [].

End Scenario.

(* ===================================================================== *)
(** ** More string operations *)
(* ===================================================================== *)

(** Strings are sequences of bytes, UTF-8 for text outside ASCII. *)
Module Text.

Definition byte (z : Z) : ascii := ascii_of_N (Z.to_N z).

(** [String.fromCharCode(n)]: the code unit [n mod 2^16], written as
    text (one byte below 128, two below 2048, three above). *)
Definition fromCharCode (n : Z) : string :=
  let u := n mod 65536 in
  if u <? 128 then String (byte u) ""
  else if u <? 2048 then
    String (byte (192 + u / 64)) (String (byte (128 + u mod 64)) "")
  else
    String (byte (224 + u / 4096))
      (String (byte (128 + (u / 64) mod 64)) (String (byte (128 + u mod 64)) "")).

(** [toUpperCase] on the ASCII letters. Other characters are left as
    they are; none of them upper-cases into the letters of the literals
    the adapter compares with. *)
Definition upper (c : ascii) : ascii :=
  let n := N_of_ascii c in
  if ((97 <=? n) && (n <=? 122))%N then ascii_of_N (n - 32) else c.

Fixpoint toUpperCase (s : string) : string :=
  match s with
  | EmptyString => EmptyString
  | String c s' => String (upper c) (toUpperCase s')
  end.


(** [s.indexOf(c)] for a one-character pattern: -1 when absent. *)
Fixpoint indexOf (c : ascii) (s : string) : Z :=
  match s with
  | EmptyString => -1
  | String a s' =>
      if Ascii.eqb a c then 0
      else let k := indexOf c s' in if k =? -1 then -1 else k + 1
  end.

(** [s.slice(n)] for [n >= 0] *)
Fixpoint skip (n : nat) (s : string) : string :=
  match n, s with
  | O, _ => s
  | S n', String _ s' => skip n' s'
  | S _, EmptyString => EmptyString
  end.

Definition slice (n : Z) (s : string) : string := skip (Z.to_nat n) s.

(** [s.split(c)] for a one-character separator: the first piece and
    the pieces after it. *)
Fixpoint split (c : ascii) (s : string) : string * list string :=
  match s with
  | EmptyString => (EmptyString, [])
  | String a s' =>
      let (first, rest) := split c s' in
      if Ascii.eqb a c then (EmptyString, first :: rest)
      else (String a first, rest)
  end.

End Text.

(* ===================================================================== *)
(** ** sheets.js: the Google Sheets adapter *)
(* ===================================================================== *)

Module Sheets.

(** A cell as the API returns it unformatted: text, a number or a
    boolean. A row is an array of cells; [row[j]] beyond its end is
    [undefined]. *)
Inductive Cell : Type :=
| CStr (s : string)
| CNum (x : Num.Number)
| CBool (b : bool).

Abbreviation Row := (list Cell).

(** [String(x)] for a Number. *)
Class NumberFormat : Type := {
  Number_toString : Num.Number -> string
}.

(** Truthiness of a cell or [undefined]. *)
Definition truthy (v : option Cell) : bool :=
  match v with
  | Some (CStr EmptyString) => false
  | Some (CStr _) => true
  | Some (CNum S754_nan) | Some (CNum (S754_zero _)) => false
  | Some (CNum _) => true
  | Some (CBool b) => b
  | None => false
  end.

(** [v || ''] *)
Definition or_empty (v : option Cell) : Cell :=
  match v with
  | Some c => if truthy v then c else CStr ""
  | None => CStr ""
  end.

(** [String(v)] *)
Definition toString `{NumberFormat} (c : Cell) : string :=
  match c with
  | CStr s => s
  | CNum x => Number_toString x
  | CBool true => "true"
  | CBool false => "false"
  end.

(** [v === lit] for a string literal *)
Definition is_string (lit : string) (c : Cell) : bool :=
  match c with
  | CStr s => String.eqb s lit
  | _ => false
  end.

(** [arr.indexOf(lit)] *)
Fixpoint indexOf (lit : string) (arr : list Cell) : Z :=
  match arr with
  | [] => -1
  | c :: rest =>
      if is_string lit c then 0
      else let k := indexOf lit rest in if k =? -1 then -1 else k + 1
  end.

(** [arr.includes(lit)] for an array of cells, and for an array of ids,
    each a cell or [undefined] *)
Definition includes (lit : string) (arr : list Cell) : bool :=
  existsb (is_string lit) arr.

Definition ids_include (lit : string) (entryIds : list (option Cell)) : bool :=
  existsb (fun v => match v with Some c => is_string lit c | None => false end)
          entryIds.

(** An entry object: its own properties. *)
Abbreviation Obj := (gmap string Cell).

(** [obj[key] = v] for a primitive [v]: the assignment to [__proto__]
    is ignored. *)
Definition assign (key : string) (v : Cell) (obj : Obj) : Obj :=
  if String.eqb key "__proto__" then obj else <[key := v]> obj.

(** The array [rows] with its indices. *)
Definition indexed {A} (rows : list A) : list (nat * A) := imap pair rows.

Record GetRequest : Type := mkGet {
  get_range : string;
  valueRenderOption : option string;
  dateTimeRenderOption : option string
}.

Record ValueRange : Type := mkValueRange {
  range : string;
  values : list Row
}.

(** The requests made to the API. *)
Inductive Call : Type :=
| authorize_call
| values_get_call (spreadsheetId : string) (rq : GetRequest)
| values_update_call (spreadsheetId : string) (range : string)
    (valueInputOption : string) (values : list Row)
| values_batchUpdate_call (spreadsheetId : string)
    (valueInputOption : string) (data : list ValueRange).

(** googleapis: authorization and the three operations on
    [spreadsheets.values]; [G] is the state behind the API. A read
    answers [response.data.values], which is absent for an empty range. *)
Class Api (G : Type) : Type := {
  authorize : G -> Outcome unit * G;
  values_get : string -> GetRequest -> G -> Outcome (option (list Row)) * G;
  values_update : string -> string -> string -> list Row -> G -> Outcome unit * G;
  values_batchUpdate : string -> string -> list ValueRange -> G -> Outcome unit * G
}.

Record Config : Type := mkConfig {
  spreadsheetId : string
}.

Definition clockLogSheet : string := "ClockLog".

(** The module's state: the API behind it, whether [sheetsClient] is
    set, and a record of the requests made, oldest first. *)
Record World (G : Type) : Type := mkWorld {
  api : G;
  sheetsClient : bool;
  log : list Call
}.
Arguments mkWorld {G} _ _ _.
Arguments api {G} _.
Arguments sheetsClient {G} _.
Arguments log {G} _.

Section Adapter.
Context `{NumberFormat} {G : Type} `{Api G}.
Variable CONFIG : Config.

Definition request {A} (c : Call) (op : G -> Outcome A * G) : Try.t (World G) A :=
  fun w =>
    let (r, g') := op (api w) in
    (r, mkWorld g' (sheetsClient w) (log w ++ [c])).

(** Get authenticated Sheets API client *)
Definition getSheetsClient : Try.t (World G) unit :=
  fun w =>
    if sheetsClient w then (Returns tt, w)
    else
      match request authorize_call authorize w with
      | (Returns _, w') => (Returns tt, mkWorld (api w') true (log w'))
      | (Throws message, w') => (Throws message, w')
      end.

Definition get (rq : GetRequest) : Try.t (World G) (option (list Row)) :=
  request (values_get_call (spreadsheetId CONFIG) rq)
          (values_get (spreadsheetId CONFIG) rq).

Definition update (range valueInputOption : string) (values : list Row)
  : Try.t (World G) unit :=
  request (values_update_call (spreadsheetId CONFIG) range valueInputOption values)
          (values_update (spreadsheetId CONFIG) range valueInputOption values).

Definition batchUpdate (valueInputOption : string) (data : list ValueRange)
  : Try.t (World G) unit :=
  request (values_batchUpdate_call (spreadsheetId CONFIG) valueInputOption data)
          (values_batchUpdate (spreadsheetId CONFIG) valueInputOption data).

(** The entry object built from the row at index [i]. *)
Definition entry_of (headers row : Row) (i : nat) : Obj :=
  let entry :=
    foldl (fun entry jh => assign (toString jh.2) (or_empty (row !! jh.1)) entry)
          ∅ (indexed headers) in
  <["_rowIndex" := CNum (Num.of_nat (i + 1))]> entry.

(** Get clock entries that need to be synced to QuickBooks *)
Definition getQBSyncPendingEntries : Try.t (World G) (list Obj) :=
  if negb (Str.truthy (Some (spreadsheetId CONFIG))) then
    Try.lift (Throws "ROSTER_SHEET_ID environment variable not set")
  else
    do _ <- getSheetsClient;
    do values <- get (mkGet (clockLogSheet +:+ "!A:U")
                            (Some "UNFORMATTED_VALUE") (Some "FORMATTED_STRING"));
    let rows := default [] values in
    if (length rows <=? 1)%nat then Try.ret []
    else
      let headers := default [] (rows !! 0%nat) in
      Try.ret
        (foldl (fun pendingEntries ir =>
                  let entry := entry_of headers ir.2 ir.1 in
                  let status :=
                    Text.toUpperCase (toString (or_empty (entry !! "Status"))) in
                  let qbSynced :=
                    Text.toUpperCase (toString (or_empty (entry !! "QBSynced"))) in
                  if String.eqb status "COMPLETE" && negb (String.eqb qbSynced "TRUE")
                  then
                    if truthy (entry !! "EmployeeName") && truthy (entry !! "TotalHours")
                    then pendingEntries ++ [entry]
                    else pendingEntries
                  else pendingEntries)
               [] (drop 1 (indexed rows))).

(** Ensure QBSynced column exists in ClockLog sheet *)
Definition ensureQBSyncedColumn : Try.t (World G) unit :=
  do values <- get (mkGet (clockLogSheet +:+ "!1:1") None None);
  let headers := default [] (values ≫= head) in
  if negb (includes "QBSynced" headers) then
    let nextCol := Text.fromCharCode (65 + Z.of_nat (length headers)) in
    update (clockLogSheet +:+ "!" +:+ nextCol +:+ "1") "RAW" [[CStr "QBSynced"]]
  else Try.ret tt.

(** The updates for the rows whose id is among [entryIds]. *)
Definition updates_for (entryIds : list (option Cell)) (rows : list Row)
    (idIdx qbSyncedIdx : Z) : list ValueRange :=
  foldl (fun updates ir =>
           let rowId := toString (or_empty (ir.2 !! Z.to_nat idIdx)) in
           if ids_include rowId entryIds then
             let colLetter := Text.fromCharCode (65 + qbSyncedIdx) in
             updates ++
               [mkValueRange
                  (clockLogSheet +:+ "!" +:+ colLetter +:+
                   Num.Z_to_string (Z.of_nat ir.1 + 1))
                  [[CStr "TRUE"]]]
           else updates)
        [] (drop 1 (indexed rows)).

(** Mark entries as synced to QuickBooks. The argument is an array. *)
Definition markEntriesQBSynced (entryIds : list (option Cell)) : Try.t (World G) unit :=
  if negb (Str.truthy (Some (spreadsheetId CONFIG))) || (length entryIds =? 0)%nat then
    Try.ret tt
  else
    do _ <- getSheetsClient;
    do _ <- ensureQBSyncedColumn;
    do values <- get (mkGet (clockLogSheet +:+ "!A:U") (Some "UNFORMATTED_VALUE") None);
    let rows := default [] values in
    let headers := default [] (rows !! 0%nat) in
    let idIdx := indexOf "ID" headers in
    let qbSyncedIdx := indexOf "QBSynced" headers in
    if (idIdx =? -1) || (qbSyncedIdx =? -1) then
      Try.lift (Throws "Required columns not found")
    else
      let updates := updates_for entryIds rows idIdx qbSyncedIdx in
      if (0 <? length updates)%nat then batchUpdate "RAW" updates
      else Try.ret tt.

End Adapter.

End Sheets.

(* ===================================================================== *)
(** ** server.js and the HTTP entry point of index.js *)
(* ===================================================================== *)

Module Http.
Import Text.

(** [decodeURIComponent]: it throws a URIError on a malformed escape. *)
Class UriDecoder : Type := {
  decodeURIComponent : string -> Outcome string
}.

(** The query object: its own properties. *)
Abbreviation Query := (gmap string string).

(** [query[key] = v] for a string [v]: the assignment to [__proto__] is
    ignored. *)
Definition assign (key v : string) (query : Query) : Query :=
  if String.eqb key "__proto__" then query else <[key := v]> query.

(** [arr.forEach(f)] for a callback that may throw. *)
Fixpoint forEach {A S} (f : A -> S -> Outcome S) (arr : list A) (s : S) : Outcome S :=
  match arr with
  | [] => Returns s
  | a :: rest =>
      match f a s with
      | Returns s' => forEach f rest s'
      | Throws message => Throws message
      end
  end.

(** server.js: parseQuery *)
Definition parseQuery `{UriDecoder} (url : string) : Outcome Query :=
  let queryStart := indexOf "?" url in
  if negb (queryStart =? -1) then
    let queryString := slice (queryStart + 1) url in
    let (first, rest) := split "&" queryString in
    forEach (fun pair query =>
               let (key, more) := split "=" pair in
               let value := head more in
               match decodeURIComponent key with
               | Throws message => Throws message
               | Returns k =>
                   match value with
                   | Some v =>
                       match decodeURIComponent v with
                       | Throws message => Throws message
                       | Returns v' => Returns (assign k v' query)
                       end
                   | None => Returns (assign k "" query)
                   end
               end)
            (first :: rest) ∅
  else Returns ∅.

(** The request object handed to the handler. *)
Record Req : Type := mkReq {
  method : string;
  url : string;
  query : Query;
  body : string
}.

(** The response object of server.js: [status] and [set] record, [send]
    writes the head and the body. *)
Record Res : Type := mkRes {
  statusCode : Z;
  headers : gmap string string;
  sent : option string
}.

Definition mockRes : Res := mkRes 200 ∅ None.

Definition status (code : Z) (res : Res) : Res :=
  mkRes code (headers res) (sent res).
Definition set (key value : string) (res : Res) : Res :=
  mkRes (statusCode res) (<[key := value]> (headers res)) (sent res).
Definition send (data : string) (res : Res) : Res :=
  mkRes (statusCode res) (headers res) (Some data).

Definition supportPage : string :=
  "<!DOCTYPE html>" +:+ Str.nl +:+
  "<html><head><title>Tripp In Time Sync - Support</title></head>" +:+ Str.nl +:+
  "<body style=" +:+ Str.dq +:+
  "font-family:sans-serif;padding:40px;max-width:600px;margin:0 auto;" +:+
  Str.dq +:+ ">" +:+ Str.nl +:+
  "<h1>Tripp In Time Sync</h1>" +:+ Str.nl +:+
  "<p>QuickBooks Web Connector integration for Tripp In maintenance portal.</p>" +:+
  Str.nl +:+
  "<p>For support, contact your administrator.</p>" +:+ Str.nl +:+
  "</body></html>".

Definition rootPage : string :=
  "<!DOCTYPE html>" +:+ Str.nl +:+
  "<html><head><title>QBWC Bridge</title></head>" +:+ Str.nl +:+
  "<body><h1>QBWC Bridge Active</h1><p>QuickBooks Web Connector endpoint.</p></body></html>".

(** Build SOAP fault response *)
Definition buildSOAPFault (message : string) : string :=
  "<?xml version=" +:+ Str.dq +:+ "1.0" +:+ Str.dq +:+ " encoding=" +:+ Str.dq +:+
  "utf-8" +:+ Str.dq +:+ "?>" +:+ Str.nl +:+
  "<soap:Envelope xmlns:soap=" +:+ Str.dq +:+
  "http://schemas.xmlsoap.org/soap/envelope/" +:+ Str.dq +:+ ">" +:+ Str.nl +:+
  "  <soap:Body>" +:+ Str.nl +:+
  "    <soap:Fault>" +:+ Str.nl +:+
  "      <faultcode>soap:Server</faultcode>" +:+ Str.nl +:+
  "      <faultstring>" +:+ message +:+ "</faultstring>" +:+ Str.nl +:+
  "    </soap:Fault>" +:+ Str.nl +:+
  "  </soap:Body>" +:+ Str.nl +:+
  "</soap:Envelope>".

Section Handler.
(** The SOAP layer (handleSOAPRequest on the posted text, through xml2js)
    and the WSDL text enter as parameters: what follows holds whatever
    they are. *)
Context {Σ : Type}.
Variable handleSOAPRequest : string -> Σ -> Outcome string * Σ.
Variable getWSDL : string.
Context `{UriDecoder}.

(** Main HTTP handler for Cloud Function *)
Definition qbwcHandler (req : Req) (res : Res) (σ : Σ) : Res * Σ :=
  let urlPath := fst (split "?" (url req)) in
  if String.eqb (method req) "GET" then
    if bool_decide (is_Some (query req !! "wsdl")) then
      (send getWSDL (set "Content-Type" "text/xml" res), σ)
    else if Str.includes "/support" (url req) then
      (send supportPage (set "Content-Type" "text/html" res), σ)
    else if String.eqb urlPath "/qbwc" || String.eqb urlPath "/qbwc/" then
      (send "OK" (set "Content-Type" "text/plain" res), σ)
    else
      (send rootPage (set "Content-Type" "text/html" res), σ)
  else if String.eqb (method req) "POST" then
    match handleSOAPRequest (body req) σ with
    | (Returns response, σ') =>
        (send response (set "Content-Type" "text/xml; charset=utf-8" res), σ')
    | (Throws message, σ') =>
        (send (buildSOAPFault message) (status 500 res), σ')
    end
  else
    (send "Method not allowed" (status 405 res), σ).

(** server.js: the request listener, once the body is collected. The
    query is parsed before the [try] block is entered: when parseQuery
    throws, the callback is left without anything having been written. *)
Definition onRequestEnd (method_ url_ body_ : string) (σ : Σ) : Outcome Res * Σ :=
  match parseQuery url_ with
  | Throws message => (Throws message, σ)
  | Returns query_ =>
      let mockReq := mkReq method_ url_ query_ body_ in
      let (res, σ') := qbwcHandler mockReq mockRes σ in
      (Returns res, σ')
  end.

End Handler.

End Http.

(* ===================================================================== *)
(** ** index.js: from the parsed envelope to the method *)
(* ===================================================================== *)

Module Soap.

(** The key of the array index [i]. *)
Definition index_key (i : nat) : string := Num.Z_to_string (Z.of_nat i).

(** [Object.keys(v)]. An object built by xml2js has distinct keys, none
    of them an array index, so that they come in the order of the
    document. *)
Definition keys (v : JS.Value) : Outcome (list string) :=
  match v with
  | JS.Undefined | JS.Null => Throws "Cannot convert undefined or null to object"
  | JS.Obj fields => Returns (map fst fields)
  | JS.Str s => Returns (map index_key (seq 0 (String.length s)))
  | JS.Arr items => Returns (map index_key (seq 0 (length items)))
  end.

(** [v[k]] for a key [k] of [Object.keys(v)] *)
Definition own (v : JS.Value) (k : string) : JS.Value :=
  match v with
  | JS.Obj fields => JS.assoc k fields
  | JS.Str s =>
      match List.find (fun i => String.eqb (index_key i) k) (seq 0 (String.length s)) with
      | Some i =>
          match String.get i s with
          | Some c => JS.Str (String c "")
          | None => JS.Undefined
          end
      | None => JS.Undefined
      end
  | JS.Arr items =>
      match List.find (fun i => String.eqb (index_key i) k) (seq 0 (length items)) with
      | Some i => default JS.Undefined (items !! i)
      | None => JS.Undefined
      end
  | _ => JS.Undefined
  end.

(** [v[k1] || v[k2] || v[k3]] *)
Definition first_of (v : JS.Value) (k1 k2 k3 : string) : Outcome JS.Value :=
  match JS.get v k1 with
  | Throws message => Throws message
  | Returns a =>
      if JS.truthy a then Returns a
      else
        match JS.get v k2 with
        | Throws message => Throws message
        | Returns b => if JS.truthy b then Returns b else JS.get v k3
        end
  end.

(** The text after the first colon. *)
Fixpoint after_colon (s : string) : option string :=
  match s with
  | EmptyString => None
  | String a s' => if Ascii.eqb a ":" then Some s' else after_colon s'
  end.

(** [s.replace(/^[^:]+:/, '')]: a non-empty prefix without a colon is
    removed together with the colon that ends it. *)
Definition strip_prefix (s : string) : string :=
  match s with
  | EmptyString => EmptyString
  | String a s' =>
      if Ascii.eqb a ":" then s
      else match after_colon s' with
           | Some rest => rest
           | None => s
           end
  end.

(** Parse and route SOAP requests: from the parsed document to the
    method name and its parameters. *)
Definition route (parsed : JS.Value) : Outcome (string * JS.Value) :=
  match first_of parsed "soap:Envelope" "SOAP-ENV:Envelope" "Envelope" with
  | Throws message => Throws message
  | Returns envelope =>
      match first_of envelope "soap:Body" "SOAP-ENV:Body" "Body" with
      | Throws message => Throws message
      | Returns body =>
          match keys body with
          | Throws message => Throws message
          | Returns methods =>
              match List.find (fun m => negb (Str.startsWith "xmlns" m)) methods with
              | None | Some EmptyString => Throws "Unknown SOAP method"
              | Some methodKey =>
                  let methodName := strip_prefix methodKey in
                  let params := own body methodKey in
                  Returns (methodName, params)
              end
          end
      end
  end.

(** Build SOAP response envelope: the object handed to the builder. *)
Definition responseObj (methodName : string) (result : JS.Value) : JS.Value :=
  JS.Obj
    [("soap:Envelope",
      JS.Obj
        [("$", JS.Obj [("xmlns:soap", JS.Str "http://schemas.xmlsoap.org/soap/envelope/");
                       ("xmlns:qbwc", JS.Str "http://developer.intuit.com/")]);
         ("soap:Body", JS.Obj [("qbwc:" +:+ methodName, result)])])].

End Soap.

(* ===================================================================== *)
(** ** Vocabulary of the further properties *)
(* ===================================================================== *)

(** The ticket a call bears, defaulted to the empty string as the
    handlers do. *)
Definition ticket_of (rq : Request) : option string :=
  match rq with
  | sendRequestXML t | receiveResponseXML t _ | connectionError t _
  | getLastError t | closeConnection t => Some (Str.or_else t "")
  | _ => None
  end.

(** Every session is authenticated and named by a ticket of the form
    TICKET-... *)
Definition sessions_issued {St} (σ : State St) : Prop :=
  forall T s, sessions σ !! T = Some s ->
    authenticated s = true /\ Str.startsWith "TICKET-" T = true.

(** [n] rounds of the agent's loop on one ticket: ask for work, report
    the response document [rs]. *)
Fixpoint rounds (t : Str.Cell) (rs : Str.Cell) (n : nat) : list Request :=
  match n with
  | O => []
  | S n' => sendRequestXML t :: receiveResponseXML t rs :: rounds t rs n'
  end.

(** The answers of a pass over the entries [es] that remain from the
    cursor of [s] on. *)
Definition pass_answers `{Builtins} (s : Session) (es : list Entry) : list Response :=
  mjoin (imap (fun k e =>
                 [sendRequestXMLResponse (Qbxml.buildTimeTrackingAddXML e);
                  receiveResponseXMLResponse
                    (progress (set_currentIndex (currentIndex s + S k) s))])
              es).

(** The escaping of one character at a time, to compare the five
    successive global replacements of [escapeXml] with. *)
Module Rendered.

Definition entity (c : ascii) : string :=
  if Ascii.eqb c "&" then "&amp;"
  else if Ascii.eqb c "<" then "&lt;"
  else if Ascii.eqb c ">" then "&gt;"
  else if Ascii.eqb c "034" then "&quot;"
  else if Ascii.eqb c "'" then "&apos;"
  else String c "".

Fixpoint escape_each (s : string) : string :=
  match s with
  | EmptyString => ""
  | String c s' => entity c +:+ escape_each s'
  end.

(** The number of occurrences of a character. *)
Fixpoint count_char (c : ascii) (s : string) : nat :=
  match s with
  | EmptyString => 0
  | String a s' => (if Ascii.eqb a c then 1 else 0) + count_char c s'
  end.

(** A number below 100 on two digits. *)
Definition two_digits (n : Z) : string :=
  (if n <? 10 then "0" else "") +:+ Num.Z_to_string n.

End Rendered.

Module SheetsSpec.
Import Sheets.

Section Vocabulary.
Context `{NumberFormat}.

(** The entry needs to be synced: its status is COMPLETE, it is not
    marked as synced, and it has an employee name and hours. *)
Definition needs_sync (entry : Obj) : bool :=
  String.eqb (Text.toUpperCase (toString (or_empty (entry !! "Status")))) "COMPLETE"
  && negb (String.eqb (Text.toUpperCase (toString (or_empty (entry !! "QBSynced")))) "TRUE")
  && truthy (entry !! "EmployeeName") && truthy (entry !! "TotalHours").

(** The rightmost column whose header reads [k], counting from [j0]. *)
Fixpoint column_of (k : string) (headers : Row) (j0 : nat) : option nat :=
  match headers with
  | [] => None
  | h :: rest =>
      match column_of k rest (S j0) with
      | Some j => Some j
      | None => if String.eqb (toString h) k then Some j0 else None
      end
  end.

(** The row at index [i]; the empty row beyond the end. *)
Definition row_at (rows : list Row) (i : nat) : Row := default [] (rows !! i).

(** The update that marks the row at index [i] in column [q]. *)
Definition mark_of (q : Z) (i : nat) : ValueRange :=
  mkValueRange
    (clockLogSheet +:+ "!" +:+ Text.fromCharCode (65 + q) +:+
     Num.Z_to_string (Z.of_nat i + 1))
    [[CStr "TRUE"]].

(** The row's id is among the ids. *)
Definition id_matches (entryIds : list (option Cell)) (idIdx : Z) (row : Row) : bool :=
  ids_include (toString (or_empty (row !! Z.to_nat idIdx))) entryIds.

End Vocabulary.

(** The letter that names column [q] in A1 notation, for the first 26
    columns. *)
Definition column_letter (q : nat) : string :=
  match String.get q "ABCDEFGHIJKLMNOPQRSTUVWXYZ" with
  | Some c => String c ""
  | None => ""
  end.

Definition is_batchUpdate (c : Call) : bool :=
  match c with values_batchUpdate_call _ _ _ => true | _ => false end.

(** From [w] to [w'] requests were made, none of them a batch update. *)
Definition no_batch_since {G} (w w' : World G) : Prop :=
  exists new, log w' = log w ++ new
              /\ forallb (fun c => negb (is_batchUpdate c)) new = true.

(** A computation that makes no batch update, whatever it returns. *)
Definition quiet {G A} (m : Try.t (World G) A) : Prop :=
  forall w, no_batch_since w (snd (m w)).

End SheetsSpec.

Module HttpSpec.
Import Text Http.

(** A pair of a query string as it is written: the key, and the value
    after [=] if there is one. *)
Definition render (p : string * option string) : string :=
  match p.2 with
  | Some v => p.1 +:+ "=" +:+ v
  | None => p.1
  end.

(** Text that holds no separator of a query string and no escape. *)
Definition plain (s : string) : bool :=
  negb (Str.has_char "&" s) && negb (Str.has_char "=" s) && negb (Str.has_char "%" s).

Definition plain_pair (p : string * option string) : bool :=
  plain p.1 && match p.2 with Some v => plain v | None => true end.

(** The pairs of the query string of a URL, as parseQuery cuts them. *)
Definition query_pairs (url : string) : list string :=
  if indexOf "?" url =? -1 then []
  else let (first, rest) := split "&" (slice (indexOf "?" url + 1) url) in
       first :: rest.

Definition throws {A} (o : Outcome A) : bool :=
  match o with Throws _ => true | Returns _ => false end.

(** The key of the pair, or its value, is malformed. *)
Definition malformed `{UriDecoder} (pair : string) : bool :=
  let (key, more) := split "=" pair in
  throws (decodeURIComponent key)
  || match head more with
     | Some v => throws (decodeURIComponent v)
     | None => false
     end.

End HttpSpec.

Module SoapSpec.

(** The element [tag] of [v], under one of the three spellings the
    router accepts, the first that is there. *)
Definition element (tag : string) (v : JS.Value) : JS.Value :=
  if JS.truthy (Doc.child ("soap:" +:+ tag) v) then Doc.child ("soap:" +:+ tag) v
  else if JS.truthy (Doc.child ("SOAP-ENV:" +:+ tag) v)
       then Doc.child ("SOAP-ENV:" +:+ tag) v
       else Doc.child tag v.

End SoapSpec.

(* ===================================================================== *)
(** ** Further deployments, for running the adapters *)
(* ===================================================================== *)

(** [decodeURIComponent], on text held as UTF-8 bytes: an escape [%XX]
    stands for one byte; the bytes of an escaped character outside ASCII
    must all be escaped and form one UTF-8 character. *)
Module Uri.

Definition hex (c : ascii) : option N :=
  let n := N_of_ascii c in
  if ((48 <=? n) && (n <=? 57))%N then Some (n - 48)%N
  else if ((65 <=? n) && (n <=? 70))%N then Some (n - 55)%N
  else if ((97 <=? n) && (n <=? 102))%N then Some (n - 87)%N
  else None.

(** One escape at the head of the text. *)
Definition escape (s : string) : option (N * string) :=
  match s with
  | String p (String h (String l rest)) =>
      if Ascii.eqb p "%" then
        match hex h, hex l with
        | Some a, Some b => Some (16 * a + b, rest)%N
        | _, _ => None
        end
      else None
  | _ => None
  end.

(** [n] escaped continuation bytes at the head of the text. *)
Fixpoint continuation (n : nat) (s : string) : option (list N * string) :=
  match n with
  | O => Some ([], s)
  | S n' =>
      match escape s with
      | Some (b, rest) =>
          if ((128 <=? b) && (b <=? 191))%N then
            match continuation n' rest with
            | Some (bs, rest') => Some (b :: bs, rest')
            | None => None
            end
          else None
      | None => None
      end
  end.

(** The code point of a lead byte and its continuation bytes. *)
Definition code_point (lead : N) (bs : list N) : N :=
  fold_left (fun cp b => cp * 64 + (b - 128))%N bs
    (if (lead <? 224)%N then lead - 192
     else if (lead <? 240)%N then lead - 224 else lead - 240)%N.

Definition well_formed (lead : N) (bs : list N) : bool :=
  let cp := code_point lead bs in
  match length bs with
  | 1%nat => (128 <=? cp)%N
  | 2%nat => (2048 <=? cp)%N && negb ((55296 <=? cp) && (cp <=? 57343))%N
  | 3%nat => (65536 <=? cp)%N && (cp <=? 1114111)%N
  | _ => false
  end.

Definition bytes (bs : list N) (s : string) : string :=
  fold_right (fun b s => String (ascii_of_N b) s) s bs.

(** Every step consumes a character: the length of the text is fuel
    enough. *)
Fixpoint decode (fuel : nat) (s : string) : Outcome string :=
  match fuel, s with
  | _, EmptyString => Returns EmptyString
  | O, _ => Returns s
  | S fuel', String c rest =>
      if negb (Ascii.eqb c "%") then
        match decode fuel' rest with
        | Returns r => Returns (String c r)
        | Throws message => Throws message
        end
      else
        match escape s with
        | None => Throws "URI malformed"
        | Some (lead, rest1) =>
            let more :=
              if (lead <? 128)%N then Some 0%nat
              else if (lead <? 192)%N then None
              else if (lead <? 224)%N then Some 1%nat
              else if (lead <? 240)%N then Some 2%nat
              else if (lead <? 248)%N then Some 3%nat
              else None in
            match more with
            | None => Throws "URI malformed"
            | Some n =>
                match continuation n rest1 with
                | None => Throws "URI malformed"
                | Some (bs, rest2) =>
                    if (n =? 0)%nat || well_formed lead bs then
                      match decode fuel' rest2 with
                      | Returns r => Returns (bytes (lead :: bs) r)
                      | Throws message => Throws message
                      end
                    else Throws "URI malformed"
                end
            end
        end
  end.

End Uri.

Module Samples.

(** A store that serves its entries and refuses every mark. *)
#[export] Instance readonly : RecordStore (list Entry) := {|
  getQBSyncPendingEntries st := (Returns st, st);
  markEntriesQBSynced ids st := (Throws "The caller does not have permission", st)
|}.

(** [String(x)] on the integral Numbers, which are those of the sheet
    below. *)
#[export] Instance decimal : Sheets.NumberFormat := {|
  Sheets.Number_toString x := Num.to_string (Num.Math_round x)
|}.

(** An API that answers the successive reads from a script and accepts
    every write. *)
#[export] Instance scripted : Sheets.Api (list (option (list Sheets.Row))) := {|
  Sheets.authorize g := (Returns tt, g);
  Sheets.values_get _ _ g :=
    match g with
    | [] => (Returns None, [])
    | v :: rest => (Returns v, rest)
    end;
  Sheets.values_update _ _ _ _ g := (Returns tt, g);
  Sheets.values_batchUpdate _ _ _ g := (Returns tt, g)
|}.

#[export] Instance percent : Http.UriDecoder := {|
  Http.decodeURIComponent s := Uri.decode (String.length s) s
|}.

Definition roster : Sheets.Config := Sheets.mkConfig "1AbC-roster".

Definition header : Sheets.Row :=
  [Sheets.CStr "ID"; Sheets.CStr "EmployeeName"; Sheets.CStr "Status";
   Sheets.CStr "TotalHours"; Sheets.CStr "QBSynced"].

(** A complete entry; one already marked by a checkbox; an open one; one
    without hours, its row cut short by the API; a complete one with a
    numeric id. *)
Definition clockLog : list Sheets.Row :=
  [ header;
    [Sheets.CStr "CL-1"; Sheets.CStr "Ann Lee"; Sheets.CStr "Complete";
     Sheets.CNum (Num.of_Z 8)];
    [Sheets.CStr "CL-2"; Sheets.CStr "Bo Diaz"; Sheets.CStr "COMPLETE";
     Sheets.CNum (Num.of_Z 2); Sheets.CBool true];
    [Sheets.CStr "CL-3"; Sheets.CStr "Cy Wu"; Sheets.CStr "OPEN";
     Sheets.CNum (Num.of_Z 4)];
    [Sheets.CStr "CL-4"; Sheets.CStr "Di Roy"; Sheets.CStr "COMPLETE"];
    [Sheets.CNum (Num.of_Z 17); Sheets.CStr "Ed Poe"; Sheets.CStr "COMPLETE";
     Sheets.CNum (Num.of_Z 3); Sheets.CStr ""] ].

(** The adapter before its first call, with the reads it will be
    answered. *)
Definition fresh (reads : list (option (list Sheets.Row)))
  : Sheets.World (list (option (list Sheets.Row))) :=
  Sheets.mkWorld reads false [].

(** A SOAP layer that is not reached. *)
Definition no_soap (body : string) (σ : unit) : Outcome string * unit :=
  (Throws "not reached", σ).

End Samples.

(* ===================================================================== *)
(** ** The embedding at work *)
(* ===================================================================== *)

(** 60 as a binary64 value. *)
Example of_Z_60 : Num.of_Z 60 = S754_finite false 8444249301319680 (-47).
Proof. reflexivity. Qed.

(** [Math.round(1.5 * 60)] and [Math.round(-7.5)]. *)
Example Math_round_90 :
  Num.Math_round (Num.mul Demo.one_and_a_half (Num.of_Z 60)) = Num.IInt 90.
Proof. vm_compute. reflexivity. Qed.

Example Math_round_negative_tie :
  Num.Math_round (Num.div (Num.of_Z (-15)) (Num.of_Z 2)) = Num.IInt (-7).
Proof. vm_compute. reflexivity. Qed.

(** [Math.floor] keeps the sign of a zero and floors towards -Infinity. *)
Example Math_floor_small :
  Num.Math_floor (Num.div (Num.of_Z 1) (Num.of_Z 2)) = S754_zero false
  /\ Num.Math_floor (Num.div (Num.of_Z (-1)) (Num.of_Z 2)) = Num.of_Z (-1).
Proof. vm_compute. auto. Qed.

Example Z_to_string_signs :
  Num.Z_to_string (-7) = "-7" /\ Num.Z_to_string 0 = "0"
  /\ Num.Z_to_string 120 = "120".
Proof. vm_compute. auto. Qed.

Example formatDate_padding :
  Qbxml.formatDate (LocalDate 2026 0 5) = "2026-01-05"
  /\ Qbxml.formatDate InvalidDate = "NaN-NaN-NaN".
Proof. vm_compute. auto. Qed.

Example formatDuration_not_finite :
  Qbxml.formatDuration Num.Infinity = "PTInfinityHNaNM"
  /\ Qbxml.formatDuration Num.NaN = "PTNaNHNaNM".
Proof. vm_compute. auto. Qed.

Example escapeXml_metacharacters :
  Qbxml.escapeXml (Some "a<b & 'c'") = "a&lt;b &amp; &apos;c&apos;"
  /\ Qbxml.escapeXml (Some "&lt;") = "&amp;lt;"
  /\ Qbxml.escapeXml None = "".
Proof. vm_compute. auto. Qed.

(** The answers of the three-record session, in order: the ticket, then
    a document and progress 33, 66 and 100. *)
Example three_record_answers :
  fst Scenario.outcome
  = [ authenticateResponse [Demo.ticket; ""];
      sendRequestXMLResponse (@Qbxml.buildTimeTrackingAddXML Demo.builtins Demo.e1);
      receiveResponseXMLResponse (Num.of_Z 33);
      sendRequestXMLResponse (@Qbxml.buildTimeTrackingAddXML Demo.builtins Demo.e2);
      receiveResponseXMLResponse (Num.of_Z 66);
      sendRequestXMLResponse (@Qbxml.buildTimeTrackingAddXML Demo.builtins Demo.e3);
      receiveResponseXMLResponse (Num.of_Z 100) ].
Proof. vm_compute. reflexivity. Qed.

(** [Math.floor(t / 60)] computed in binary64 is the integer quotient
    [Num.floor_div]: checked for every minute count from minus one hour
    to one day. *)
Example floor_div_agrees_with_binary64 :
  forallb (fun t : Z =>
             Num.same (Num.Math_floor (Num.div (Num.of_Z t) (Num.of_Z 60)))
                      (Num.of_Z (t / 60)))
          (map (fun n : nat => Z.of_nat n - 60) (seq 0 1501))
  = true.
Proof. vm_compute. reflexivity. Qed.

(** The dispatcher's progress is computed in binary64: 29 of 100 is
    reported as 28. *)
Example progress_29_of_100 :
  Num.Math_floor (Num.mul (Num.div (Num.of_Z 29) (Num.of_Z 100)) (Num.of_Z 100))
  = Num.of_Z 28.
Proof. vm_compute. reflexivity. Qed.

(* ===================================================================== *)
(** ** Signs of computed Numbers *)
(* ===================================================================== *)

Module NumFacts.
Import Num.

Lemma round_aux_sign_clear mx ex lx :
  sign_clear (binary_round_aux prec emax false mx ex lx) = true.
Proof.
  unfold binary_round_aux.
  destruct (shr_fexp prec emax mx ex lx) as [mrs e'].
  destruct (shr_fexp prec emax _ e' loc_Exact) as [mrs'' e''].
  destruct (shr_m mrs''); [reflexivity | | reflexivity].
  destruct (e'' <=? emax - prec); reflexivity.
Qed.

Lemma of_Z_sign_clear z : 0 <= z -> sign_clear (of_Z z) = true.
Proof.
  intros Hz. destruct z as [|m|m]; [reflexivity | | lia].
  unfold of_Z, binary_normalize, binary_round.
  destruct (shl_align _ _ _) as [mz ez]. apply round_aux_sign_clear.
Qed.

Lemma div_sign_clear x y :
  sign_clear x = true -> sign_clear y = true -> sign_clear (div x y) = true.
Proof.
  destruct x as [sx|sx| |sx mx ex], y as [sy|sy| |sy my ey]; simpl;
    intros Hx Hy; try reflexivity;
    try (destruct sx, sy; simpl in *; congruence).
  destruct sx, sy; simpl in *; try discriminate.
  unfold div, SFdiv.
  destruct (SFdiv_core_binary prec emax (Z.pos mx) ex (Z.pos my) ey) as [[mz ez] lz].
  apply round_aux_sign_clear.
Qed.

Lemma mul_sign_clear x y :
  sign_clear x = true -> sign_clear y = true -> sign_clear (mul x y) = true.
Proof.
  destruct x as [sx|sx| |sx mx ex], y as [sy|sy| |sy my ey]; simpl;
    intros Hx Hy; try reflexivity;
    try (destruct sx, sy; simpl in *; congruence).
  destruct sx, sy; simpl in *; try discriminate.
  apply round_aux_sign_clear.
Qed.

Lemma Math_floor_sign_clear x :
  sign_clear x = true -> sign_clear (Math_floor x) = true.
Proof.
  destruct x as [sx|sx| |sx mx ex]; simpl; auto.
  destruct ex as [|e|e]; simpl; auto.
  intros Hs. destruct sx; [discriminate|]. cbn [signed].
  destruct (Z.shiftr (Z.pos mx) (Z.pos e) =? 0) eqn:Hz; [reflexivity|].
  apply of_Z_sign_clear. apply Z.shiftr_nonneg. lia.
Qed.

End NumFacts.

(* ===================================================================== *)
(** ** Strings and rounding *)
(* ===================================================================== *)

#[local] Arguments String.append !_ _ / : simpl nomatch.

Lemma append_empty_r (s : string) : s +:+ "" = s.
Proof. induction s as [|a s IH]; simpl; [reflexivity | f_equal; exact IH]. Qed.

Lemma append_assoc (a b c : string) : (a +:+ b) +:+ c = a +:+ (b +:+ c).
Proof. induction a as [|x a IH]; simpl; [reflexivity | f_equal; exact IH]. Qed.

Lemma append_cancel_l (a b c : string) : a +:+ b = a +:+ c -> b = c.
Proof.
  induction a as [|x a IH]; simpl; [auto|]. intros E. inversion E. auto.
Qed.

Lemma append_not_empty (a : string) (x : ascii) (b : string) :
  a +:+ String x b <> "".
Proof. destruct a; simpl; discriminate. Qed.

(** On a Number whose sign bit is clear, [Math.round] rounds a tie away
    from zero. *)
Lemma Math_round_half_away (x : Num.Number) :
  Num.sign_clear x = true ->
  Num.Math_round x = Policy.round_half_away_from_zero x.
Proof.
  destruct x as [s|s| |s m e]; try reflexivity.
  simpl. intros Hs. destruct s; [discriminate|]. cbn [Num.signed].
  destruct e as [|e|k]; cbn [Num.Math_round Policy.round_half_away_from_zero Num.signed].
  - rewrite Z.shiftl_mul_pow2 by lia. reflexivity.
  - rewrite Z.shiftl_mul_pow2 by lia. reflexivity.
  - f_equal. unfold Policy.nearest_tie_up.
    rewrite Z.shiftr_div_pow2, Z.shiftl_mul_pow2 by lia.
    assert (Hk : 2 ^ Z.pos k = 2 * 2 ^ (Z.pos k - 1)).
    { rewrite <- Z.pow_succ_r by lia. f_equal. lia. }
    assert (Hpos : 0 < 2 ^ (Z.pos k - 1)) by (apply Z.pow_pos_nonneg; lia).
    set (h := 2 ^ (Z.pos k - 1)) in *. rewrite Hk. clear Hk.
    pose proof (Z.div_mod (Z.pos m) (2 * h) ltac:(lia)) as Hdm.
    pose proof (Z.mod_pos_bound (Z.pos m) (2 * h) ltac:(lia)) as Hr.
    set (q := Z.pos m / (2 * h)) in *. set (r := Z.pos m mod (2 * h)) in *.
    rewrite Z.mul_1_l.
    destruct (2 * h <=? 2 * r) eqn:Hc.
    + apply Z.leb_le in Hc. symmetry. apply (Z.div_unique _ _ _ (r - h)); lia.
    + apply Z.leb_gt in Hc. symmetry. apply (Z.div_unique _ _ _ (r + h)); lia.
Qed.

Lemma round_half_away_nonneg (x : Num.Number) (t : Z) :
  Num.sign_clear x = true ->
  Policy.round_half_away_from_zero x = Num.IInt t -> 0 <= t.
Proof.
  destruct x as [s|s| |s m e]; simpl; try discriminate.
  - intros _ E. inversion E. lia.
  - intros Hs. destruct s; [discriminate|].
    destruct e as [|e|k]; intros E; inversion E; subst; clear E.
    + lia.
    + apply Z.mul_nonneg_nonneg; [lia | apply Z.pow_nonneg; lia].
    + unfold Policy.nearest_tie_up.
      assert (0 <= Z.pos m / 2 ^ Z.pos k)
        by (apply Z.div_pos; [lia | apply Z.pow_pos_nonneg; lia]).
      destruct (_ <=? _); lia.
Qed.

(** The renderer on a whole number of minutes. *)
Lemma formatDuration_of_minutes (hours : Num.Number) (t : Z) :
  0 <= t ->
  Num.Math_round (Num.mul hours (Num.of_Z 60)) = Num.IInt t ->
  Qbxml.formatDuration hours = Policy.render_minutes t.
Proof.
  intros Ht E. unfold Qbxml.formatDuration, Policy.render_minutes. rewrite E.
  cbn [Num.floor_div Num.rem Num.is_zero Num.to_string].
  rewrite Z.rem_mod_nonneg by lia.
  destruct (t mod 60 =? 0); reflexivity.
Qed.

(* ===================================================================== *)
(** ** Where a tag can start in a rendered document *)
(* ===================================================================== *)

Section Markup.
Import Str Policy.

Lemma has_char_app (c : ascii) (a b : string) :
  has_char c (a +:+ b) = has_char c a || has_char c b.
Proof.
  induction a as [|x a IH]; simpl; [reflexivity|].
  rewrite IH. apply orb_assoc.
Qed.

Lemma no_lt_app (a b : string) : no_lt a -> no_lt b -> no_lt (a +:+ b).
Proof. unfold no_lt. intros Ha Hb. rewrite has_char_app, Ha, Hb. reflexivity. Qed.

Lemma replace_all_no_lt (c : ascii) (by_ s : string) :
  no_lt by_ -> no_lt s -> no_lt (replace_all c by_ s).
Proof.
  unfold no_lt. intros Hby. induction s as [|a s IH]; simpl; [reflexivity|].
  intros Hs. apply orb_false_iff in Hs as [Ha Hs].
  destruct (Ascii.eqb a c).
  - rewrite has_char_app, Hby. simpl. auto.
  - simpl. rewrite Ha. simpl. auto.
Qed.

Lemma replace_all_lt_removes (s : string) : no_lt (replace_all "<" "&lt;" s).
Proof.
  unfold no_lt. induction s as [|a s IH]; simpl; [reflexivity|].
  destruct (Ascii.eqb a "<") eqn:Ha; simpl; [exact IH|].
  rewrite Ha. exact IH.
Qed.

Lemma escapeXml_no_lt (v : Cell) : no_lt (Qbxml.escapeXml v).
Proof.
  unfold Qbxml.escapeXml. destruct (negb (truthy v)); [reflexivity|].
  do 3 (apply replace_all_no_lt; [reflexivity|]).
  apply replace_all_lt_removes.
Qed.

Lemma string_of_uint_no_lt (d : Decimal.uint) :
  no_lt (NilEmpty.string_of_uint d).
Proof. unfold no_lt. induction d; simpl; auto. Qed.

Lemma Z_to_string_no_lt (z : Z) : no_lt (Num.Z_to_string z).
Proof.
  unfold Num.Z_to_string, NilZero.string_of_int, NilZero.string_of_uint.
  destruct (Z.to_int z) as [d|d].
  - destruct d; try reflexivity; apply (string_of_uint_no_lt (_ d)).
  - change (no_lt ("-" +:+ match d with
                           | Decimal.Nil => "0"
                           | _ => NilEmpty.string_of_uint d
                           end)).
    apply no_lt_app; [reflexivity|].
    destruct d; try reflexivity; apply (string_of_uint_no_lt (_ d)).
Qed.

Lemma to_string_no_lt (t : Num.Integral) : no_lt (Num.to_string t).
Proof.
  destruct t as [|[|]|z]; try reflexivity. apply Z_to_string_no_lt.
Qed.

Lemma padStart_no_lt (n : nat) (s : string) :
  no_lt s -> no_lt (padStart n "0" s).
Proof.
  intros Hs. unfold padStart. apply no_lt_app; [|exact Hs].
  unfold no_lt. induction (n - String.length s)%nat; simpl; auto.
Qed.

Lemma formatDate_no_lt (d : DateObj) : no_lt (Qbxml.formatDate d).
Proof.
  unfold Qbxml.formatDate.
  repeat first [ apply padStart_no_lt | apply to_string_no_lt
               | reflexivity | apply no_lt_app ].
Qed.

Lemma formatDuration_no_lt (hours : Num.Number) : no_lt (Qbxml.formatDuration hours).
Proof.
  unfold Qbxml.formatDuration. destruct (Num.is_zero _);
    repeat first [ apply to_string_no_lt | reflexivity | apply no_lt_app ].
Qed.

(** A tag does not start inside text that is free of the opener. *)
Lemma includes_skip_text (needle u rest : string) :
  no_lt u ->
  includes (String "<" needle) (u +:+ rest) = includes (String "<" needle) rest.
Proof.
  unfold no_lt. induction u as [|a u IH]; [reflexivity|].
  cbn [has_char String.append]. intros Hs.
  apply orb_false_iff in Hs as [Ha Hs].
  cbn [includes startsWith]. rewrite Ascii.eqb_sym, Ha. cbn [andb orb].
  apply IH, Hs.
Qed.

Lemma startsWith_app (needle rest : string) :
  startsWith needle (needle +:+ rest) = true.
Proof.
  induction needle as [|a n IH]; [reflexivity|].
  cbn [startsWith String.append]. rewrite Ascii.eqb_refl. exact IH.
Qed.

Lemma includes_startsWith (needle hay : string) :
  startsWith needle hay = true -> includes needle hay = true.
Proof. intros Hs. destruct hay; cbn [includes]; rewrite Hs; reflexivity. Qed.

Lemma includes_infix (needle before after : string) :
  includes needle (before +:+ needle +:+ after) = true.
Proof.
  induction before as [|a b IH].
  - cbn [String.append]. apply includes_startsWith, startsWith_app.
  - cbn [String.append includes]. rewrite IH. apply orb_true_r.
Qed.

Ltac walk :=
  repeat first
    [ rewrite includes_skip_text by assumption
    | progress cbn [includes startsWith String.append Ascii.eqb Bool.eqb andb orb] ].

Lemma buildTimeTrackingAddXML_shape `{Builtins} (entry : Entry) :
  exists d n dur nt,
    no_lt d /\ no_lt n /\ no_lt dur /\ no_lt nt
    /\ Qbxml.buildTimeTrackingAddXML entry
       = Qbxml.xml_head d n dur +:+
         (if Qbxml.is_billable entry
          then Qbxml.xml_billable (Qbxml.escapeXml (CustomerName entry))
          else Qbxml.xml_not_billable) +:+
         notes_block nt +:+ Qbxml.xml_tail.
Proof.
  exists (Qbxml.formatDate (newDate (ClockIn entry))),
         (Qbxml.escapeXml (Some (or_else (EmployeeName entry) "Unknown"))),
         (Qbxml.formatDuration (Num.or_zero (parseFloat (TotalHours entry)))),
         (Qbxml.escapeXml (Some (join " | " (Qbxml.notes_of entry)))).
  repeat split;
    try first [ apply formatDate_no_lt | apply escapeXml_no_lt
              | apply formatDuration_no_lt ].
  unfold Qbxml.buildTimeTrackingAddXML, notes_block.
  destruct (Qbxml.is_billable entry);
    destruct (Qbxml.escapeXml (Some (join " | " (Qbxml.notes_of entry))));
    rewrite ?append_assoc; reflexivity.
Qed.

(** Either there is no notes element, or there is one around a text
    that is free of the opener. *)
Ltac notes_cases nt Hnt :=
  let a := fresh "a" in
  let nt' := fresh "nt" in
  destruct nt as [|a nt'];
  [ cbn [notes_block]
  | change (notes_block (String a nt')) with (Qbxml.xml_notes (String a nt'));
    generalize dependent (String a nt'); clear a nt'; intros nt Hnt ].

Lemma billable_shape_facts (d n dur c nt : string) :
  no_lt d -> no_lt n -> no_lt dur -> no_lt c -> no_lt nt ->
  let doc := Qbxml.xml_head d n dur +:+ Qbxml.xml_billable c +:+
             notes_block nt +:+ Qbxml.xml_tail in
  Policy.billable_document c doc
  /\ includes "<BillableStatus>NotBillable</BillableStatus>" doc = false.
Proof.
  intros Hd Hn Hdur Hc Hnt doc. split; [split|].
  - subst doc.
    replace (Qbxml.xml_head d n dur +:+ Qbxml.xml_billable c +:+
             notes_block nt +:+ Qbxml.xml_tail)
      with ((Qbxml.xml_head d n dur +:+ nl +:+ "        ") +:+
            Policy.customer_ref c +:+
            (nl +:+ "        <BillableStatus>Billable</BillableStatus>" +:+
             notes_block nt +:+ Qbxml.xml_tail)).
    2:{ unfold Qbxml.xml_head, Qbxml.xml_billable, Policy.customer_ref.
        rewrite !append_assoc. reflexivity. }
    apply includes_infix.
  - subst doc. notes_cases nt Hnt;
    unfold Qbxml.xml_head, Qbxml.xml_billable, Qbxml.xml_notes,
      Qbxml.xml_tail, dq, nl; rewrite ?append_assoc; walk; reflexivity.
  - subst doc. notes_cases nt Hnt;
    unfold Qbxml.xml_head, Qbxml.xml_billable, Qbxml.xml_notes,
      Qbxml.xml_tail, dq, nl; rewrite ?append_assoc; walk; reflexivity.
Qed.

Lemma not_billable_shape_facts (d n dur nt : string) :
  no_lt d -> no_lt n -> no_lt dur -> no_lt nt ->
  Policy.not_billable_document
    (Qbxml.xml_head d n dur +:+ Qbxml.xml_not_billable +:+
     notes_block nt +:+ Qbxml.xml_tail).
Proof.
  intros Hd Hn Hdur Hnt. repeat split;
    notes_cases nt Hnt;
    unfold Qbxml.xml_head, Qbxml.xml_not_billable, Qbxml.xml_notes,
      Qbxml.xml_tail, dq, nl; rewrite ?append_assoc; walk; reflexivity.
Qed.

(** The builder's test, as a statement about the record. *)
Lemma is_billable_spec (entry : Entry) :
  Qbxml.is_billable entry = true <-> Policy.billing_required entry.
Proof.
  unfold Qbxml.is_billable, Policy.billing_required, strict_eq.
  destruct (CustomerName entry) as [[|a c]|]; cbn [truthy andb negb];
    [ intuition congruence | | intuition congruence ].
  destruct (String.eqb_spec (String a c) "Shop") as [E|Hc]; cbn [negb andb].
  - rewrite E. intuition congruence.
  - destruct (RequiresTicket entry) as [f|]; [|intuition congruence].
    destruct (String.eqb_spec f "TRUE") as [->|Hf]; intuition congruence.
Qed.

End Markup.

(* ===================================================================== *)
(** ** What one handler call does to the session it serves *)
(* ===================================================================== *)

Section HandlerFacts.
Context `{Builtins} `{XmlParser} {St : Type} `{RecordStore St}.
Variable CONFIG : Config.

Local Arguments Nat.leb : simpl never.

Ltac try_unfold :=
  unfold sendRequestXML_try, receiveResponseXML_try, Try.bind, Try.lift,
    Try.ret, session, update, call_getQBSyncPendingEntries,
    call_markEntriesQBSynced, set_pendingEntries, set_currentIndex,
    set_lastError in *;
  simpl in *.

Ltac close_case E :=
  simpl in E; inversion E; subst; simpl; intuition (auto; congruence).

(** The [try] block of sendRequestXML never moves the cursor, never
    touches [lastError] and never marks; it replaces the worklist only
    by a fetch, and fetches exactly when the worklist is empty and the
    cursor is 0. *)
Lemma sendRequestXML_try_effect (s s' : Session) (w w' : World St) r :
  sendRequestXML_try (s, w) = (r, (s', w')) ->
  currentIndex s' = currentIndex s
  /\ lastError s' = lastError s
  /\ authenticated s' = authenticated s
  /\ markCalls w' = markCalls w
  /\ ((pendingEntries s = [] /\ currentIndex s = 0%nat
       /\ fetchCalls w' = S (fetchCalls w))
      \/ ((pendingEntries s <> [] \/ currentIndex s <> 0%nat)
          /\ pendingEntries s' = pendingEntries s /\ w' = w)).
Proof.
  destruct s as [au es i le], w as [st fc mc]. intros E. try_unfold.
  destruct es as [|e0 es], i as [|i]; simpl in E.
  - destruct (getQBSyncPendingEntries st) as [[fetched|msg] st']; simpl in E.
    + destruct (length fetched <=? 0)%nat; [close_case E|].
      destruct (fetched !! 0%nat); close_case E.
    + close_case E.
  - close_case E.
  - destruct (S (length es) <=? 0)%nat; close_case E.
  - destruct (S (length es) <=? S i)%nat; [close_case E|].
    destruct (es !! i); close_case E.
Qed.

Ltac on_outcome E o :=
  destruct o eqn:?; simpl in E; [| solve [close_case E] ].

(** The [try] block of receiveResponseXML never changes the worklist
    and never fetches. When it returns, the cursor has advanced by one
    and the value is the progress at the new cursor; when it throws,
    the cursor and [lastError] are still the old ones. It marks at
    most once, and then the one id of the entry at the old cursor. *)
Lemma receiveResponseXML_try_effect response (s s' : Session) (w w' : World St) r :
  receiveResponseXML_try response (s, w) = (r, (s', w')) ->
  pendingEntries s' = pendingEntries s
  /\ authenticated s' = authenticated s
  /\ fetchCalls w' = fetchCalls w
  /\ match r with
     | Returns p => currentIndex s' = S (currentIndex s) /\ p = progress s'
     | Throws _ => currentIndex s' = currentIndex s /\ lastError s' = lastError s
     end
  /\ (markCalls w' = markCalls w
      \/ exists e, pendingEntries s !! currentIndex s = Some e
                   /\ markCalls w' = markCalls w ++ [[ID e]]).
Proof.
  destruct s as [au es i le], w as [st fc mc]. intros E. try_unfold.
  on_outcome E (parseStringPromise response).
  match type of E with context [JS.get ?v ?k] => on_outcome E (JS.get v k) end.
  match type of E with context [JS.get_opt ?v ?k] => on_outcome E (JS.get_opt v k) end.
  match type of E with context [JS.get_opt ?v ?k] => on_outcome E (JS.get_opt v k) end.
  match type of E with context [JS.truthy ?v] => destruct (JS.truthy v) end;
    simpl in E; [| solve [close_case E] ].
  match type of E with context [JS.get ?v "$"] => on_outcome E (JS.get v "$") end.
  match type of E with
    context [JS.get ?v "statusCode"] => on_outcome E (JS.get v "statusCode") end.
  match type of E with
    context [JS.get ?v "statusMessage"] => on_outcome E (JS.get v "statusMessage") end.
  match type of E with context [JS.strict_eq ?v ?k] => destruct (JS.strict_eq v k) end;
    simpl in E; [| solve [close_case E] ].
  destruct (es !! i) as [e|] eqn:He; simpl in E; [| solve [close_case E] ].
  destruct (markEntriesQBSynced [ID e] st) as [[u|msg] st'] eqn:Hm; simpl in E.
  - inversion E; subst; simpl. repeat split; eauto.
  - inversion E; subst; simpl. repeat split; eauto.
Qed.

(** Property reads on a parsed document, in terms of its elements. *)
Lemma get_opt_child (v : JS.Value) (k : string) :
  JS.get_opt v k = Returns (Doc.child k v).
Proof. destruct v; reflexivity. Qed.

Lemma get_child fields (k : string) :
  JS.get (JS.Obj fields) k = Returns (Doc.child k (JS.Obj fields)).
Proof. reflexivity. Qed.

Lemma child_Str_is_Obj (k : string) (v : JS.Value) (c : string) :
  Doc.child k v = JS.Str c -> exists fields, v = JS.Obj fields.
Proof. destruct v; simpl; try discriminate. eauto. Qed.

Lemma child_truthy_is_Obj (k : string) (v : JS.Value) :
  JS.truthy (Doc.child k v) = true -> exists fields, v = JS.Obj fields.
Proof. destruct v; simpl; try discriminate. eauto. Qed.

(** A document without the TimeTrackingAddRs element. *)
Lemma receiveResponseXML_try_no_element response fields (s : Session) (w : World St) :
  parseStringPromise response = Returns (JS.Obj fields) ->
  JS.truthy (Doc.timeTrackingAddRs (JS.Obj fields)) = false ->
  receiveResponseXML_try response (s, w)
  = (Returns (progress (advanced s)), (advanced s, w)).
Proof.
  intros Hparse Hrs. unfold receiveResponseXML_try, Try.bind, Try.lift.
  rewrite Hparse, get_child, !get_opt_child.
  unfold Doc.timeTrackingAddRs in Hrs. rewrite Hrs. reflexivity.
Qed.

(** A document whose TimeTrackingAddRs element has a status code. *)
Lemma receiveResponseXML_try_status response parsed code (s : Session) (w : World St) :
  parseStringPromise response = Returns parsed ->
  Doc.statusCode parsed = JS.Str code ->
  receiveResponseXML_try response (s, w)
  = if String.eqb code "0" then
      match pendingEntries s !! currentIndex s with
      | Some e =>
          let (r, st') := markEntriesQBSynced [ID e] (store w) in
          let w' := mkWorld st' (fetchCalls w) (markCalls w ++ [[ID e]]) in
          match r with
          | Returns _ => (Returns (progress (advanced s)), (advanced s, w'))
          | Throws message => (Throws message, (s, w'))
          end
      | None => (Throws (JS.TypeError "undefined" "ID"), (s, w))
      end
    else
      let s' := advanced (set_lastError (Doc.statusMessage parsed) s) in
      (Returns (progress s'), (s', w)).
Proof.
  intros Hparse Hcode.
  unfold Doc.statusCode, Doc.statusMessage in *.
  destruct (child_Str_is_Obj _ _ _ Hcode) as [attrs Hattrs].
  assert (Hrs : exists rsf, Doc.timeTrackingAddRs parsed = JS.Obj rsf).
  { apply (child_truthy_is_Obj "$"). rewrite Hattrs. reflexivity. }
  destruct Hrs as [rsf Hrs].
  assert (Hp : exists fields, parsed = JS.Obj fields).
  { unfold Doc.timeTrackingAddRs in Hrs.
    destruct parsed; simpl in Hrs; try discriminate. eauto. }
  destruct Hp as [fields ->].
  unfold receiveResponseXML_try, Try.bind, Try.lift.
  rewrite Hparse, get_child, !get_opt_child.
  fold (Doc.timeTrackingAddRs (JS.Obj fields)). rewrite Hrs in *.
  cbn [JS.truthy]. rewrite get_child, Hattrs in *. rewrite !get_child, Hcode.
  cbn [JS.strict_eq]. destruct (String.eqb code "0"); [|reflexivity].
  unfold session, call_markEntriesQBSynced, update, Try.ret; cbn [fst snd].
  destruct (pendingEntries s !! currentIndex s) as [e|]; cbn [deref]; [|reflexivity].
  destruct (markEntriesQBSynced [ID e] (store w)) as [[u|msg] st']; reflexivity.
Qed.

(** The progress value is never negative: it cannot be taken for the
    error result -1. *)
Lemma progress_sign_clear (s : Session) :
  Num.sign_clear (progress s) = true.
Proof.
  unfold progress.
  apply NumFacts.Math_floor_sign_clear, NumFacts.mul_sign_clear;
    [apply NumFacts.div_sign_clear|]; apply NumFacts.of_Z_sign_clear; lia.
Qed.

Lemma progress_not_minus_one (s : Session) : progress s <> Num.of_Z (-1).
Proof.
  intros E. pose proof (progress_sign_clear s) as Hs. rewrite E in Hs.
  discriminate Hs.
Qed.

(** receiveResponseXML on a live session with an entry at its cursor,
    for a document that carries a status code. *)
Lemma handleReceiveResponseXML_status
    (ticket response : Str.Cell) (σ : State St) (s : Session) (e : Entry)
    parsed code :
  sessions σ !! Str.or_else ticket "" = Some s ->
  pendingEntries s !! currentIndex s = Some e ->
  parseStringPromise (Str.or_else response "") = Returns parsed ->
  Doc.statusCode parsed = JS.Str code ->
  exists s' w',
    snd (handleReceiveResponseXML ticket response σ)
    = mkState (<[Str.or_else ticket "" := s']> (sessions σ)) w'
    /\ currentIndex s' = S (currentIndex s)
    /\ pendingEntries s' = pendingEntries s
    /\ fetchCalls w' = fetchCalls (world σ)
    /\ if String.eqb code "0"
       then markCalls w' = markCalls (world σ) ++ [[ID e]]
       else markCalls w' = markCalls (world σ)
            /\ lastError s' = Doc.statusMessage parsed
            /\ fst (handleReceiveResponseXML ticket response σ)
               = receiveResponseXMLResponse (progress s').
Proof.
  intros Hlive He Hparse Hcode. unfold handleReceiveResponseXML.
  rewrite Hlive, (receiveResponseXML_try_status _ parsed code) by assumption.
  destruct (String.eqb code "0").
  - rewrite He.
    destruct (markEntriesQBSynced [ID e] (store (world σ))) as [[u|msg] st'].
    + eexists _, _. cbn [snd fst]. repeat split; reflexivity.
    + eexists _, _. cbn [snd fst]. repeat split; reflexivity.
  - eexists _, _. cbn [snd fst]. repeat split; reflexivity.
Qed.

Lemma session_step_refl rq T o :
  receives rq T = false -> session_step CONFIG rq T o o.
Proof.
  intros Hr. destruct o as [s|]; simpl; auto.
  right. rewrite Hr. auto.
Qed.

Ltac at_ticket T Hs :=
  cbn [snd sessions];
  match goal with
  | |- context [<[?k := _]> _ !! T] =>
      destruct (decide (k = T)) as [<-|Hne];
      [ rewrite lookup_insert_eq, ?Hs
      | rewrite lookup_insert_ne by assumption;
        apply session_step_refl; cbn [receives];
        try reflexivity; apply String.eqb_neq; assumption ]
  end.

Lemma handleSOAPRequest_session_step (rq : Request) (σ : State St) (T : string) :
  session_step CONFIG rq T (sessions σ !! T)
    (sessions (snd (handleSOAPRequest CONFIG rq σ)) !! T).
Proof.
  destruct rq as [|v|u p now random|t|t r|t m|t|t|name]; cbn [handleSOAPRequest].
  - apply session_step_refl; reflexivity.
  - apply session_step_refl; reflexivity.
  - unfold handleAuthenticate.
    destruct (String.eqb (Str.or_else u "") (username CONFIG)
              && String.eqb (Str.or_else p "") (password CONFIG)) eqn:Hc;
      [| apply session_step_refl; reflexivity ].
    at_ticket T Hc.
    assert (Hi : issues CONFIG (authenticate u p now random)
                   ("TICKET-" +:+ Num.Z_to_string now +:+ "-" +:+ random) = true).
    { unfold issues. rewrite Hc, String.eqb_refl. reflexivity. }
    unfold session_step. destruct (sessions σ !! _); [left|]; auto.
  - unfold handleSendRequestXML.
    destruct (sessions σ !! Str.or_else t "") as [s|] eqn:Hs;
      [| apply session_step_refl; reflexivity ].
    destruct (negb (authenticated s)); [ apply session_step_refl; reflexivity |].
    destruct (sendRequestXML_try (s, world σ)) as [[q|msg] [s' w']] eqn:E;
      apply sendRequestXML_try_effect in E as (Hi & Hl & Ha & Hm & Hp);
      at_ticket T Hs; unfold session_step; right; cbn [receives];
      simpl; intuition auto.
  - unfold handleReceiveResponseXML.
    destruct (sessions σ !! Str.or_else t "") as [s|] eqn:Hs.
    2:{ destruct (sessions σ !! T) as [s0|] eqn:Hs0; simpl; rewrite ?Hs0; auto.
        right. split; auto.
        destruct (String.eqb (Str.or_else t "") T) eqn:Ht; auto.
        apply String.eqb_eq in Ht. congruence. }
    destruct (receiveResponseXML_try (Str.or_else r "") (s, world σ))
      as [[q|msg] [s' w']] eqn:E;
      apply receiveResponseXML_try_effect in E as (Hp & Ha & Hf & Hi & Hm);
      at_ticket T Hs; unfold session_step; right;
      cbn [receives]; rewrite String.eqb_refl; simpl; intuition auto.
  - unfold handleConnectionError.
    destruct (sessions σ !! Str.or_else t "") as [s|] eqn:Hs;
      [| apply session_step_refl; reflexivity ].
    at_ticket T Hs. unfold session_step. right. simpl. auto.
  - apply session_step_refl; reflexivity.
  - unfold handleCloseConnection. cbn [snd sessions].
    destruct (decide (Str.or_else t "" = T)) as [<-|Hne].
    + rewrite lookup_delete_eq. unfold session_step.
      destruct (sessions σ !! _); exact I.
    + rewrite lookup_delete_ne by assumption.
      apply session_step_refl; reflexivity.
  - apply session_step_refl; reflexivity.
Qed.

Lemma serve_cons (rq : Request) (rqs : list Request) (σ : State St) :
  snd (serve CONFIG (rq :: rqs) σ)
  = snd (serve CONFIG rqs (snd (handleSOAPRequest CONFIG rq σ))).
Proof.
  cbn [serve]. destruct (handleSOAPRequest CONFIG rq σ) as [r σ1].
  cbn [snd]. destruct (serve CONFIG rqs σ1) as [rs σ2]. reflexivity.
Qed.

(** One call keeps every cursor within its worklist, provided that a
    receiveResponseXML answers a request. *)
Lemma handleSOAPRequest_keeps_bound (rq : Request) (σ : State St) :
  cursors_bounded σ -> answers_a_request rq σ ->
  cursors_bounded (snd (handleSOAPRequest CONFIG rq σ)).
Proof.
  intros Hb Hc T s' Hs'.
  pose proof (handleSOAPRequest_session_step rq σ T) as Hstep.
  rewrite Hs' in Hstep. unfold session_step in Hstep.
  destruct (sessions σ !! T) as [s|] eqn:Hs.
  - destruct Hstep as [[_ ->] | [_ Hstep]]; [simpl; lia|].
    pose proof (Hb T s Hs) as Hbs.
    destruct (receives rq T) eqn:Hr.
    + destruct Hstep as [Hp Hi]. rewrite Hp, Hi.
      destruct rq; try discriminate Hr. cbn [receives] in Hr.
      apply String.eqb_eq in Hr. subst T.
      specialize (Hc s Hs). lia.
    + destruct Hstep as [Hi [Hp | [_ Hz]]]; [rewrite Hi, Hp; lia | lia].
  - destruct Hstep as [_ ->]. simpl. lia.
Qed.

Lemma handleSOAPRequest_keeps_drained (rq : Request) (σ : State St) (T : string) :
  issues CONFIG rq T = false ->
  closed_or_drained T σ ->
  closed_or_drained T (snd (handleSOAPRequest CONFIG rq σ)).
Proof.
  unfold closed_or_drained, drained. intros Hissue Hd.
  pose proof (handleSOAPRequest_session_step rq σ T) as Hstep.
  unfold session_step in Hstep. rewrite Hissue in Hstep.
  destruct (sessions (snd (handleSOAPRequest CONFIG rq σ)) !! T) as [s'|];
    [|exact I].
  destruct (sessions σ !! T) as [s|].
  - destruct Hstep as [[Hf _] | [_ Hstep]]; [discriminate|].
    destruct (receives rq T).
    + destruct Hstep as [Hp Hi]. rewrite Hp, Hi. lia.
    + destruct Hstep as [Hi [Hp | [_ Hz]]]; [rewrite Hi, Hp; lia | lia].
  - destruct Hstep as [Hf _]. discriminate.
Qed.

(** A closed or drained session has no more work. *)
Lemma handleSendRequestXML_drained (ticket : Str.Cell) (σ : State St) :
  closed_or_drained (Str.or_else ticket "") σ ->
  fst (handleSendRequestXML ticket σ) = sendRequestXMLResponse "".
Proof.
  unfold closed_or_drained, drained, handleSendRequestXML.
  destruct (sessions σ !! Str.or_else ticket "") as [s|]; [|reflexivity].
  intros [Hpos Hlen]. destruct (negb (authenticated s)); [reflexivity|].
  unfold sendRequestXML_try, Try.bind, session, Try.ret. cbn [fst snd].
  destruct (currentIndex s) as [|i] eqn:Hi; [lia|].
  rewrite Nat.eqb_sym. cbn [Nat.eqb]. rewrite andb_false_r. cbn [fst snd].
  rewrite Hi. apply Nat.leb_le in Hlen. rewrite Hlen. reflexivity.
Qed.

(** Once the worklist is fetched (it is non-empty, or the cursor has
    left 0), sendRequestXML changes nothing: it does not fetch, and the
    same request gets the same answer again. *)
Lemma handleSendRequestXML_fetched (ticket : Str.Cell) (σ : State St) (s : Session) :
  sessions σ !! Str.or_else ticket "" = Some s ->
  pendingEntries s <> [] \/ currentIndex s <> 0%nat ->
  snd (handleSendRequestXML ticket σ) = σ.
Proof.
  intros Hs Hfetched. unfold handleSendRequestXML. rewrite Hs.
  destruct (negb (authenticated s)); [reflexivity|].
  assert (Hskip : (length (pendingEntries s) =? 0)%nat && (currentIndex s =? 0)%nat
                  = false).
  { destruct Hfetched as [Hp|Hi].
    - destruct (pendingEntries s); [congruence | reflexivity].
    - apply Nat.eqb_neq in Hi. rewrite Hi. apply andb_false_r. }
  unfold sendRequestXML_try, Try.bind, session, Try.ret, Try.lift.
  cbn [fst snd]. rewrite Hskip. cbn [fst snd].
  assert (Hσ : mkState (<[Str.or_else ticket "" := s]> (sessions σ)) (world σ) = σ).
  { rewrite insert_id by exact Hs. destruct σ; reflexivity. }
  destruct (length (pendingEntries s) <=? currentIndex s)%nat eqn:Hl;
    [exact Hσ|].
  apply Nat.leb_gt in Hl.
  destruct (lookup_lt_is_Some_2 _ _ Hl) as [e He]. rewrite He. exact Hσ.
Qed.

End HandlerFacts.

(* ===================================================================== *)
(** ** Further properties: the protocol, the renderer, the adapters *)
(* ===================================================================== *)

Section SessionFacts.
Context `{Builtins} `{XmlParser} {St : Type} `{RecordStore St}.
Variable CONFIG : Config.

Lemma ticket_ne (t : Str.Cell) (T : string) :
  Some (Str.or_else t "") <> Some T -> Str.or_else t "" <> T.
Proof. congruence. Qed.

Lemma handleSOAPRequest_other_session (rq : Request) (σ : State St) (T : string) :
  ticket_of rq <> Some T ->
  issues CONFIG rq T = false ->
  sessions (snd (handleSOAPRequest CONFIG rq σ)) !! T = sessions σ !! T.
Proof.
  intros Hbear Hissue.
  destruct rq as [|v|u p now random|t|t r|t m|t|t|name];
    cbn [handleSOAPRequest ticket_of] in *; try reflexivity.
  - unfold handleAuthenticate. cbn [issues] in Hissue.
    destruct (String.eqb (Str.or_else u "") (username CONFIG)
              && String.eqb (Str.or_else p "") (password CONFIG)); [|reflexivity].
    cbn [andb] in Hissue. apply String.eqb_neq in Hissue.
    cbn [snd sessions]. apply lookup_insert_ne. exact Hissue.
  - apply ticket_ne in Hbear. unfold handleSendRequestXML.
    destruct (sessions σ !! Str.or_else t "") as [s|]; [|reflexivity].
    destruct (negb (authenticated s)); [reflexivity|].
    destruct (sendRequestXML_try (s, world σ)) as [[q|msg] [s' w']];
      cbn [snd sessions]; apply lookup_insert_ne; exact Hbear.
  - apply ticket_ne in Hbear. unfold handleReceiveResponseXML.
    destruct (sessions σ !! Str.or_else t "") as [s|]; [|reflexivity].
    destruct (receiveResponseXML_try (Str.or_else r "") (s, world σ))
      as [[q|msg] [s' w']];
      cbn [snd sessions]; apply lookup_insert_ne; exact Hbear.
  - apply ticket_ne in Hbear. unfold handleConnectionError.
    destruct (sessions σ !! Str.or_else t "") as [s|]; [|reflexivity].
    cbn [snd sessions]. apply lookup_insert_ne; exact Hbear.
  - apply ticket_ne in Hbear. unfold handleCloseConnection.
    cbn [snd sessions]. apply lookup_delete_ne; exact Hbear.
Qed.


Local Arguments Nat.leb : simpl never.

Ltac run_try :=
  unfold sendRequestXML_try, receiveResponseXML_try, Try.bind, Try.lift,
    Try.ret, session, update, call_getQBSyncPendingEntries,
    call_markEntriesQBSynced, set_pendingEntries, set_currentIndex,
    set_lastError in *;
  simpl in *.

Ltac done_with E :=
  simpl in E; inversion E; subst; simpl; eauto 10.

(** The world after the [try] block of sendRequestXML: untouched, or
    changed by the one fetch that an empty worklist at cursor 0 asks
    for. *)
Lemma sendRequestXML_try_world (s s' : Session) (w w' : World St) r :
  sendRequestXML_try (s, w) = (r, (s', w')) ->
  w' = w
  \/ (pendingEntries s = [] /\ currentIndex s = 0%nat
      /\ w' = mkWorld (snd (getQBSyncPendingEntries (store w)))
                (S (fetchCalls w)) (markCalls w)).
Proof.
  destruct s as [au es i le], w as [st fc mc]. intros E. run_try.
  destruct es as [|e0 es], i as [|i]; simpl in E.
  - right. destruct (getQBSyncPendingEntries st) as [[fetched|msg] st']; simpl in E.
    + destruct (length fetched <=? 0)%nat; [done_with E|].
      destruct (fetched !! 0%nat); done_with E.
    + done_with E.
  - left. done_with E.
  - left. destruct (S (length es) <=? 0)%nat; done_with E.
  - left. destruct (S (length es) <=? S i)%nat; [done_with E|].
    destruct (es !! i); done_with E.
Qed.

Ltac step_on E o :=
  destruct o eqn:?; simpl in E; [| solve [left; done_with E] ].

(** The world after the [try] block of receiveResponseXML: untouched, or
    changed by the one mark of the entry at the cursor. *)
Lemma receiveResponseXML_try_world response (s s' : Session) (w w' : World St) r :
  receiveResponseXML_try response (s, w) = (r, (s', w')) ->
  w' = w
  \/ exists e, pendingEntries s !! currentIndex s = Some e
       /\ w' = mkWorld (snd (markEntriesQBSynced [ID e] (store w)))
                 (fetchCalls w) (markCalls w ++ [[ID e]]).
Proof.
  destruct s as [au es i le], w as [st fc mc]. intros E. run_try.
  step_on E (parseStringPromise response).
  match type of E with context [JS.get ?v ?k] => step_on E (JS.get v k) end.
  match type of E with context [JS.get_opt ?v ?k] => step_on E (JS.get_opt v k) end.
  match type of E with context [JS.get_opt ?v ?k] => step_on E (JS.get_opt v k) end.
  match type of E with context [JS.truthy ?v] => destruct (JS.truthy v) end;
    simpl in E; [| solve [left; done_with E] ].
  match type of E with context [JS.get ?v "$"] => step_on E (JS.get v "$") end.
  match type of E with
    context [JS.get ?v "statusCode"] => step_on E (JS.get v "statusCode") end.
  match type of E with
    context [JS.get ?v "statusMessage"] => step_on E (JS.get v "statusMessage") end.
  match type of E with context [JS.strict_eq ?v ?k] => destruct (JS.strict_eq v k) end;
    simpl in E; [| solve [left; done_with E] ].
  destruct (es !! i) as [e|] eqn:He; simpl in E; [| solve [left; done_with E] ].
  right. exists e. split; [reflexivity|].
  destruct (markEntriesQBSynced [ID e] st) as [[u|msg] st'] eqn:Hm; simpl in E;
    inversion E; subst; reflexivity.
Qed.


Lemma serve_app (rqs1 rqs2 : list Request) (σ : State St) :
  serve CONFIG (rqs1 ++ rqs2) σ
  = (fst (serve CONFIG rqs1 σ) ++ fst (serve CONFIG rqs2 (snd (serve CONFIG rqs1 σ))),
     snd (serve CONFIG rqs2 (snd (serve CONFIG rqs1 σ)))).
Proof.
  revert σ. induction rqs1 as [|rq rqs1 IH]; intros σ; cbn [app serve fst snd].
  - destruct (serve CONFIG rqs2 σ); reflexivity.
  - destruct (handleSOAPRequest CONFIG rq σ) as [r σ1]. rewrite IH.
    destruct (serve CONFIG rqs1 σ1) as [rs1 σ2]. reflexivity.
Qed.

(** X1. Sessions are isolated: a run of calls none of which bears the
    ticket T, and none of which is a login that issues T, leaves under T
    what the session table held there before, be it a session or
    nothing. *)
Theorem calls_leave_other_sessions_alone
    (rqs : list Request) (σ : State St) (T : string) :
  Forall (fun rq => ticket_of rq <> Some T /\ issues CONFIG rq T = false) rqs ->
  sessions (snd (serve CONFIG rqs σ)) !! T = sessions σ !! T.
Proof.
  intros Hrqs. revert σ.
  induction Hrqs as [|rq rqs [Hbear Hissue] _ IH]; intros σ; [reflexivity|].
  rewrite serve_cons, IH. apply handleSOAPRequest_other_session; assumption.
Qed.

(** X2. A call reaches the record store at most once. sendRequestXML either
    leaves the world as it is or fetches once, which it does only for an
    authenticated session with an empty worklist and the cursor at 0;
    receiveResponseXML either leaves the world as it is or marks once,
    and then exactly the ID of the entry at the cursor; every other call
    leaves the world as it is. *)
Theorem each_call_reaches_the_store_at_most_once (rq : Request) (σ : State St) :
  let w := world σ in
  let w' := world (snd (handleSOAPRequest CONFIG rq σ)) in
  match rq with
  | sendRequestXML t =>
      w' = w
      \/ exists s, sessions σ !! Str.or_else t "" = Some s
           /\ authenticated s = true
           /\ pendingEntries s = [] /\ currentIndex s = 0%nat
           /\ w' = mkWorld (snd (getQBSyncPendingEntries (store w)))
                     (S (fetchCalls w)) (markCalls w)
  | receiveResponseXML t _ =>
      w' = w
      \/ exists s e, sessions σ !! Str.or_else t "" = Some s
           /\ pendingEntries s !! currentIndex s = Some e
           /\ w' = mkWorld (snd (markEntriesQBSynced [ID e] (store w)))
                     (fetchCalls w) (markCalls w ++ [[ID e]])
  | _ => w' = w
  end.
Proof.
  destruct rq as [|v|u p now random|t|t r|t m|t|t|name];
    cbn [handleSOAPRequest]; try reflexivity.
  - unfold handleAuthenticate. destruct (_ && _); reflexivity.
  - unfold handleSendRequestXML.
    destruct (sessions σ !! Str.or_else t "") as [s|] eqn:Hs; [|left; reflexivity].
    destruct (authenticated s) eqn:Ha; [|left; reflexivity]. cbn [negb].
    destruct (sendRequestXML_try (s, world σ)) as [[q|msg] [s' w']] eqn:E;
      apply sendRequestXML_try_world in E as [->|(Hp & Hi & ->)];
      cbn [snd world];
      first [ left; reflexivity
            | right; exists s; repeat split; assumption ].
  - unfold handleReceiveResponseXML.
    destruct (sessions σ !! Str.or_else t "") as [s|] eqn:Hs; [|left; reflexivity].
    destruct (receiveResponseXML_try (Str.or_else r "") (s, world σ))
      as [[q|msg] [s' w']] eqn:E;
      apply receiveResponseXML_try_world in E as [->|(e & He & ->)];
      cbn [snd world];
      first [ left; reflexivity
            | right; exists s, e; repeat split; assumption ].
  - unfold handleConnectionError.
    destruct (sessions σ !! Str.or_else t ""); reflexivity.
Qed.

Lemma boot_sessions_issued (st : St) : sessions_issued (boot st).
Proof. intros T s Hs. unfold boot in Hs. cbn in Hs. rewrite lookup_empty in Hs. discriminate. Qed.

Lemma handleSOAPRequest_sessions_issued (rq : Request) (σ : State St) :
  sessions_issued σ -> sessions_issued (snd (handleSOAPRequest CONFIG rq σ)).
Proof.
  intros Hσ T s' Hs'.
  pose proof (handleSOAPRequest_session_step CONFIG rq σ T) as Hstep.
  rewrite Hs' in Hstep. unfold session_step in Hstep.
  assert (Hnew : issues CONFIG rq T = true /\ s' = fresh_session ->
                 authenticated s' = true /\ Str.startsWith "TICKET-" T = true).
  { intros [Hi ->]. split; [reflexivity|].
    destruct rq; try discriminate Hi. cbn [issues] in Hi.
    apply andb_true_iff in Hi as [_ Hi]. apply String.eqb_eq in Hi. subst T.
    reflexivity. }
  destruct (sessions σ !! T) as [s|] eqn:Hs; [|auto].
  destruct Hstep as [Hi | [Ha _]]; [auto|].
  destruct (Hσ T s Hs) as [Hau Hpre]. split; congruence.
Qed.

Lemma serve_sessions_issued (rqs : list Request) (σ : State St) :
  sessions_issued σ -> sessions_issued (snd (serve CONFIG rqs σ)).
Proof.
  revert σ. induction rqs as [|rq rqs IH]; intros σ Hσ; [exact Hσ|].
  rewrite serve_cons. apply IH, handleSOAPRequest_sessions_issued, Hσ.
Qed.

(** X3. In every state a freshly started process reaches, each session of
    the table is authenticated and stored under a ticket that starts
    with TICKET-. A call whose ticket is missing or empty therefore
    finds no session: sendRequestXML answers the empty string,
    receiveResponseXML -1, connectionError done, getLastError the empty
    string, and the state stays as it is. *)
Theorem sessions_of_a_running_process (rqs : list Request) (st : St) :
  let σ := snd (serve CONFIG rqs (boot st)) in
  (forall T s, sessions σ !! T = Some s ->
     authenticated s = true /\ Str.startsWith "TICKET-" T = true)
  /\ (forall (t response message : Str.Cell),
        Str.or_else t "" = "" ->
        handleSendRequestXML t σ = (sendRequestXMLResponse "", σ)
        /\ handleReceiveResponseXML t response σ
           = (receiveResponseXMLResponse (Num.of_Z (-1)), σ)
        /\ handleConnectionError t message σ = (connectionErrorResponse "done", σ)
        /\ handleGetLastError t σ = (getLastErrorResponse (JS.Str ""), σ)).
Proof.
  intros σ.
  assert (Hσ : sessions_issued σ) by apply serve_sessions_issued, boot_sessions_issued.
  split; [exact Hσ|]. intros t response message Ht.
  assert (Hnone : sessions σ !! Str.or_else t "" = None).
  { rewrite Ht. destruct (sessions σ !! "") as [s|] eqn:Hs; [|reflexivity].
    destruct (Hσ _ _ Hs) as [_ Hpre]. discriminate Hpre. }
  unfold handleSendRequestXML, handleReceiveResponseXML, handleConnectionError,
    handleGetLastError. rewrite Hnone. auto.
Qed.

(** X4. connectionError always answers done and leaves the store alone. For
    a known ticket it records the message, or the empty string when
    there is none, as the last error of the session, and a getLastError
    that follows reports just that; for an unknown ticket the state
    stays as it is. *)
Theorem connectionError_is_reported_by_getLastError
    (ticket message : Str.Cell) (σ : State St) :
  let σ' := snd (handleConnectionError ticket message σ) in
  fst (handleConnectionError ticket message σ) = connectionErrorResponse "done"
  /\ world σ' = world σ
  /\ match sessions σ !! Str.or_else ticket "" with
     | Some s =>
         sessions σ'
         = <[Str.or_else ticket "" := set_lastError (JS.Str (Str.or_else message "")) s]>
             (sessions σ)
         /\ handleGetLastError ticket σ'
            = (getLastErrorResponse (JS.Str (Str.or_else message "")), σ')
     | None => σ' = σ
     end.
Proof.
  unfold handleConnectionError.
  destruct (sessions σ !! Str.or_else ticket "") as [s|] eqn:Hs; cbn [fst snd];
    [|auto].
  split; [reflexivity|]. split; [reflexivity|]. split; [reflexivity|].
  unfold handleGetLastError. cbn [sessions]. rewrite lookup_insert_eq.
  cbn [set_lastError lastError].
  destruct message as [[|a m]|]; reflexivity.
Qed.

(** X5. closeConnection always answers OK, removes the session of its
    ticket from the table and leaves the store alone. Any call that
    bears the ticket afterwards is answered as for an unknown session
    and changes nothing: the empty string, -1, done, the empty error,
    and OK for a second closeConnection. *)
Theorem closeConnection_forgets_the_session
    (ticket response message : Str.Cell) (σ : State St) :
  let T := Str.or_else ticket "" in
  let σ' := snd (handleCloseConnection ticket σ) in
  fst (handleCloseConnection ticket σ) = closeConnectionResponse "OK"
  /\ sessions σ' = delete T (sessions σ)
  /\ world σ' = world σ
  /\ handleSendRequestXML ticket σ' = (sendRequestXMLResponse "", σ')
  /\ handleReceiveResponseXML ticket response σ'
     = (receiveResponseXMLResponse (Num.of_Z (-1)), σ')
  /\ handleConnectionError ticket message σ' = (connectionErrorResponse "done", σ')
  /\ handleGetLastError ticket σ' = (getLastErrorResponse (JS.Str ""), σ')
  /\ handleCloseConnection ticket σ' = (closeConnectionResponse "OK", σ').
Proof.
  intros T σ'. subst σ'. unfold handleCloseConnection. cbn [fst snd].
  fold T. repeat (split; [reflexivity|]).
  unfold handleSendRequestXML, handleReceiveResponseXML, handleConnectionError,
    handleGetLastError. cbn [sessions world]. fold T. rewrite lookup_delete_eq.
  repeat (split; [reflexivity|]).
  rewrite delete_delete_eq. reflexivity.
Qed.


(** sendRequestXML on a session that has an entry at its cursor. *)
Lemma handleSendRequestXML_at_cursor
    (ticket : Str.Cell) (σ : State St) (s : Session) (e : Entry) :
  sessions σ !! Str.or_else ticket "" = Some s ->
  authenticated s = true ->
  pendingEntries s !! currentIndex s = Some e ->
  handleSendRequestXML ticket σ
  = (sendRequestXMLResponse (Qbxml.buildTimeTrackingAddXML e), σ).
Proof.
  intros Hs Ha He.
  assert (Hlt : (currentIndex s < length (pendingEntries s))%nat)
    by (eapply lookup_lt_Some; exact He).
  unfold handleSendRequestXML. rewrite Hs, Ha. cbn [negb].
  assert (Hskip : (length (pendingEntries s) =? 0)%nat && (currentIndex s =? 0)%nat
                  = false).
  { destruct (pendingEntries s); [simpl in Hlt; lia | reflexivity]. }
  unfold sendRequestXML_try, Try.bind, session, Try.ret, Try.lift.
  cbn [fst snd]. rewrite Hskip. cbn [fst snd].
  apply Nat.leb_gt in Hlt. rewrite Hlt, He. cbn [deref].
  rewrite insert_id by exact Hs. destruct σ; reflexivity.
Qed.

(** X6. sendRequestXML does not move the cursor: while an authenticated
    session has an entry at its cursor, any number of sendRequestXML
    calls in a row each return the document of that same entry, and the
    state stays as it is. *)
Theorem sendRequestXML_repeats_the_document_at_the_cursor
    (ticket : Str.Cell) (σ : State St) (s : Session) (e : Entry) (n : nat) :
  sessions σ !! Str.or_else ticket "" = Some s ->
  authenticated s = true ->
  pendingEntries s !! currentIndex s = Some e ->
  serve CONFIG (repeat (sendRequestXML ticket) n) σ
  = (repeat (sendRequestXMLResponse (Qbxml.buildTimeTrackingAddXML e)) n, σ).
Proof.
  intros Hs Ha He. induction n as [|n IH]; [reflexivity|].
  cbn [repeat serve handleSOAPRequest].
  rewrite (handleSendRequestXML_at_cursor ticket σ s e Hs Ha He), IH. reflexivity.
Qed.

(** X7. A login with the configured credentials, followed by a
    sendRequestXML with the ticket it issued: when the fetch returns a
    worklist that is not empty, the call returns the document of the
    first entry, the fetch is made once, and the session holds the
    worklist with the cursor at 0 and no error. *)
Theorem first_request_after_login_fetches_the_worklist
    (strUserName strPassword : Str.Cell) (now : Z) (random : string)
    (σ : State St) (e : Entry) (es : list Entry) (st' : St) :
  Str.or_else strUserName "" = username CONFIG ->
  Str.or_else strPassword "" = password CONFIG ->
  getQBSyncPendingEntries (store (world σ)) = (Returns (e :: es), st') ->
  let ticket := "TICKET-" +:+ Num.Z_to_string now +:+ "-" +:+ random in
  serve CONFIG [authenticate strUserName strPassword now random;
                sendRequestXML (Some ticket)] σ
  = ([authenticateResponse [ticket; ""];
      sendRequestXMLResponse (Qbxml.buildTimeTrackingAddXML e)],
     mkState (<[ticket := mkSession true (e :: es) 0 (JS.Str "")]> (sessions σ))
       (mkWorld st' (S (fetchCalls (world σ))) (markCalls (world σ)))).
Proof.
  intros Hu Hp Hfetch ticket. cbn [serve handleSOAPRequest].
  unfold handleAuthenticate. rewrite Hu, Hp, !String.eqb_refl. cbn [andb].
  fold ticket. unfold handleSendRequestXML.
  change (Str.or_else (Some ticket) "") with ticket.
  cbn [sessions world]. rewrite lookup_insert_eq. cbn [authenticated negb].
  unfold sendRequestXML_try, Try.bind, session, Try.ret, Try.lift, update,
    call_getQBSyncPendingEntries.
  cbn [fst snd pendingEntries currentIndex length Nat.eqb andb].
  rewrite Hfetch.
  cbn [fst snd set_pendingEntries pendingEntries currentIndex length Nat.leb
       lookup deref authenticated lastError].
  simpl. rewrite insert_insert_eq. reflexivity.
Qed.

(** sendRequestXML on a session whose worklist is empty at cursor 0
    calls the store. *)
Lemma handleSendRequestXML_awaiting_fetch
    (ticket : Str.Cell) (σ : State St) (s : Session) :
  sessions σ !! Str.or_else ticket "" = Some s ->
  authenticated s = true ->
  pendingEntries s = [] -> currentIndex s = 0%nat ->
  fetchCalls (world (snd (handleSendRequestXML ticket σ))) = S (fetchCalls (world σ)).
Proof.
  intros Hs Ha Hp Hi. unfold handleSendRequestXML. rewrite Hs, Ha. cbn [negb].
  destruct (sendRequestXML_try (s, world σ)) as [[q|msg] [s' w']] eqn:E;
    apply sendRequestXML_try_effect in E
      as (_ & _ & _ & _ & [(_ & _ & Hf) | ([Hn|Hn] & _)]);
    cbn [snd world]; congruence.
Qed.

(** X8. A fetch that fails is reported and retried. When the fetch throws
    for an authenticated session with an empty worklist, sendRequestXML
    answers the empty string and records the message as the last error;
    getLastError then reports it; and the next sendRequestXML of the
    session fetches again. *)
Theorem failed_fetch_is_reported_and_retried
    (ticket : Str.Cell) (σ : State St) (s : Session) (message : string) (st' : St) :
  sessions σ !! Str.or_else ticket "" = Some s ->
  authenticated s = true ->
  pendingEntries s = [] -> currentIndex s = 0%nat ->
  getQBSyncPendingEntries (store (world σ)) = (Throws message, st') ->
  let σ' := snd (handleSendRequestXML ticket σ) in
  handleSendRequestXML ticket σ
  = (sendRequestXMLResponse "",
     mkState (<[Str.or_else ticket "" := set_lastError (JS.Str message) s]> (sessions σ))
       (mkWorld st' (S (fetchCalls (world σ))) (markCalls (world σ))))
  /\ fst (handleGetLastError ticket σ') = getLastErrorResponse (JS.Str message)
  /\ fetchCalls (world (snd (handleSendRequestXML ticket σ')))
     = S (S (fetchCalls (world σ))).
Proof.
  intros Hs Ha Hp Hi Hfetch σ'.
  assert (E : handleSendRequestXML ticket σ
              = (sendRequestXMLResponse "",
                 mkState (<[Str.or_else ticket "" := set_lastError (JS.Str message) s]>
                            (sessions σ))
                   (mkWorld st' (S (fetchCalls (world σ))) (markCalls (world σ))))).
  { unfold handleSendRequestXML. rewrite Hs, Ha. cbn [negb].
    unfold sendRequestXML_try, Try.bind, session, Try.ret, Try.lift, update,
      call_getQBSyncPendingEntries.
    cbn [fst snd]. rewrite Hp, Hi. cbn [length Nat.eqb andb fst snd].
    rewrite Hfetch. reflexivity. }
  subst σ'. rewrite E. cbn [snd]. split; [reflexivity|]. split.
  - unfold handleGetLastError. cbn [sessions fst]. rewrite lookup_insert_eq.
    cbn [set_lastError lastError]. destruct message; reflexivity.
  - apply handleSendRequestXML_awaiting_fetch
      with (s := set_lastError (JS.Str message) s); try assumption.
    cbn [sessions]. apply lookup_insert_eq.
Qed.

(** X9. A response that the parser rejects is skipped: receiveResponseXML
    answers -1, records the message of the parser as the last error and
    moves the cursor on by one, without a call to the store. *)
Theorem unparseable_response_is_skipped
    (ticket response : Str.Cell) (σ : State St) (s : Session) (message : string) :
  sessions σ !! Str.or_else ticket "" = Some s ->
  parseStringPromise (Str.or_else response "") = Throws message ->
  handleReceiveResponseXML ticket response σ
  = (receiveResponseXMLResponse (Num.of_Z (-1)),
     mkState (<[Str.or_else ticket "" := advanced (set_lastError (JS.Str message) s)]>
                (sessions σ))
       (world σ)).
Proof.
  intros Hs Hparse. unfold handleReceiveResponseXML. rewrite Hs.
  unfold receiveResponseXML_try, Try.bind, Try.lift. rewrite Hparse. reflexivity.
Qed.

(** X10. A confirmation whose mark fails: when the response reports success
    and the store throws on marking the entry at the cursor,
    receiveResponseXML answers -1 and records the message, and the
    cursor still moves on by one, so that the entry, which is not
    marked, is not offered again in this session. *)
Theorem failed_mark_skips_the_entry
    (ticket response : Str.Cell) (σ : State St) (s : Session) (parsed : JS.Value)
    (e : Entry) (message : string) (st' : St) :
  sessions σ !! Str.or_else ticket "" = Some s ->
  parseStringPromise (Str.or_else response "") = Returns parsed ->
  Doc.statusCode parsed = JS.Str "0" ->
  pendingEntries s !! currentIndex s = Some e ->
  markEntriesQBSynced [ID e] (store (world σ)) = (Throws message, st') ->
  handleReceiveResponseXML ticket response σ
  = (receiveResponseXMLResponse (Num.of_Z (-1)),
     mkState (<[Str.or_else ticket "" := advanced (set_lastError (JS.Str message) s)]>
                (sessions σ))
       (mkWorld st' (fetchCalls (world σ)) (markCalls (world σ) ++ [[ID e]]))).
Proof.
  intros Hs Hparse Hcode He Hmark. unfold handleReceiveResponseXML. rewrite Hs.
  rewrite (receiveResponseXML_try_status _ parsed "0") by assumption.
  cbn [String.eqb Ascii.eqb Bool.eqb]. rewrite He, Hmark. reflexivity.
Qed.

(** X11. A successful response that finds no entry at the cursor, the cursor
    being at or beyond the end of the worklist, answers -1, records the
    TypeError of reading ID of undefined as the last error, moves the
    cursor on by one and makes no call to the store. *)
Theorem confirmation_beyond_the_worklist
    (ticket response : Str.Cell) (σ : State St) (s : Session) (parsed : JS.Value) :
  sessions σ !! Str.or_else ticket "" = Some s ->
  parseStringPromise (Str.or_else response "") = Returns parsed ->
  Doc.statusCode parsed = JS.Str "0" ->
  (length (pendingEntries s) <= currentIndex s)%nat ->
  handleReceiveResponseXML ticket response σ
  = (receiveResponseXMLResponse (Num.of_Z (-1)),
     mkState (<[Str.or_else ticket "" :=
                  advanced (set_lastError
                              (JS.Str "Cannot read properties of undefined (reading 'ID')")
                              s)]>
                (sessions σ))
       (world σ)).
Proof.
  intros Hs Hparse Hcode Hlen. unfold handleReceiveResponseXML. rewrite Hs.
  rewrite (receiveResponseXML_try_status _ parsed "0") by assumption.
  cbn [String.eqb Ascii.eqb Bool.eqb].
  rewrite (lookup_ge_None_2 _ _ Hlen). reflexivity.
Qed.

(** One round of the agent's loop on a session that has an entry at its
    cursor, when the response confirms it and the mark succeeds. *)
Lemma confirmed_round
    (t rs : Str.Cell) (σ : State St) (s : Session) (e : Entry) (parsed : JS.Value) :
  sessions σ !! Str.or_else t "" = Some s ->
  authenticated s = true ->
  pendingEntries s !! currentIndex s = Some e ->
  parseStringPromise (Str.or_else rs "") = Returns parsed ->
  Doc.statusCode parsed = JS.Str "0" ->
  fst (markEntriesQBSynced [ID e] (store (world σ))) = Returns tt ->
  serve CONFIG [sendRequestXML t; receiveResponseXML t rs] σ
  = ([sendRequestXMLResponse (Qbxml.buildTimeTrackingAddXML e);
      receiveResponseXMLResponse (progress (advanced s))],
     mkState (<[Str.or_else t "" := advanced s]> (sessions σ))
       (mkWorld (snd (markEntriesQBSynced [ID e] (store (world σ))))
          (fetchCalls (world σ)) (markCalls (world σ) ++ [[ID e]]))).
Proof.
  intros Hs Ha He Hparse Hcode Hmark. cbn [serve handleSOAPRequest].
  rewrite (handleSendRequestXML_at_cursor t σ s e Hs Ha He).
  unfold handleReceiveResponseXML. rewrite Hs.
  rewrite (receiveResponseXML_try_status _ parsed "0") by assumption.
  cbn [String.eqb Ascii.eqb Bool.eqb]. rewrite He.
  destruct (markEntriesQBSynced [ID e] (store (world σ))) as [r st'].
  cbn [fst snd] in *. subst r. reflexivity.
Qed.

Lemma pass_answers_cons (s : Session) (e : Entry) (es : list Entry) :
  pass_answers s (e :: es)
  = sendRequestXMLResponse (Qbxml.buildTimeTrackingAddXML e)
    :: receiveResponseXMLResponse (progress (advanced s))
    :: pass_answers (advanced s) es.
Proof.
  unfold pass_answers. rewrite imap_cons. cbn [mjoin list_join app].
  rewrite Nat.add_1_r. f_equal. f_equal. f_equal.
  apply imap_ext. intros k x _. cbn [compose advanced set_currentIndex currentIndex].
  unfold progress. cbn [currentIndex pendingEntries set_currentIndex].
  replace (currentIndex s + S (S k))%nat with (S (currentIndex s) + S k)%nat by lia.
  reflexivity.
Qed.

Lemma full_pass_gen (t rs : Str.Cell) (parsed : JS.Value) (n : nat) :
  parseStringPromise (Str.or_else rs "") = Returns parsed ->
  Doc.statusCode parsed = JS.Str "0" ->
  (forall ids st, fst (markEntriesQBSynced ids st) = Returns tt) ->
  forall (σ : State St) (s : Session),
  sessions σ !! Str.or_else t "" = Some s ->
  authenticated s = true ->
  (currentIndex s + n = length (pendingEntries s))%nat ->
  let σ' := snd (serve CONFIG (rounds t rs n) σ) in
  fst (serve CONFIG (rounds t rs n) σ)
  = pass_answers s (drop (currentIndex s) (pendingEntries s))
  /\ sessions σ'
     = <[Str.or_else t "" := set_currentIndex (length (pendingEntries s)) s]> (sessions σ)
  /\ markCalls (world σ')
     = markCalls (world σ)
       ++ map (fun e => [ID e]) (drop (currentIndex s) (pendingEntries s))
  /\ fetchCalls (world σ') = fetchCalls (world σ).
Proof.
  intros Hparse Hcode Hmark. induction n as [|n IH]; intros σ s Hs Ha Hlen σ'.
  - subst σ'. cbn [rounds serve fst snd].
    rewrite Nat.add_0_r in Hlen.
    replace (set_currentIndex (length (pendingEntries s)) s) with s
      by (destruct s; unfold set_currentIndex; cbn in *; congruence).
    rewrite Hlen, drop_all.
    cbn [map]. rewrite app_nil_r. repeat split; try reflexivity.
    symmetry. apply insert_id, Hs.
  - assert (Hlt : (currentIndex s < length (pendingEntries s))%nat) by lia.
    destruct (lookup_lt_is_Some_2 _ _ Hlt) as [e He].
    subst σ'. change (rounds t rs (S n))
      with ([sendRequestXML t; receiveResponseXML t rs] ++ rounds t rs n).
    rewrite serve_app.
    rewrite (confirmed_round t rs σ s e parsed Hs Ha He Hparse Hcode (Hmark _ _)).
    cbn [fst snd].
    set (σ1 := mkState _ _).
    assert (Hs1 : sessions σ1 !! Str.or_else t "" = Some (advanced s))
      by (subst σ1; cbn [sessions]; apply lookup_insert_eq).
    destruct (IH σ1 (advanced s) Hs1 Ha) as (Hans & Hss & Hmk & Hf).
    { cbn [advanced set_currentIndex currentIndex pendingEntries]. lia. }
    cbn [advanced set_currentIndex currentIndex pendingEntries] in Hans, Hss, Hmk.
    rewrite (drop_S _ _ _ He). rewrite pass_answers_cons.
    split; [cbn [app]; rewrite Hans; reflexivity|].
    split; [rewrite Hss; subst σ1; cbn [sessions]; apply insert_insert_eq|].
    split; [|rewrite Hf; reflexivity].
    rewrite Hmk. subst σ1. cbn [world markCalls map].
    rewrite <- app_assoc. reflexivity.
Qed.

(** X12. A full pass. With a response that parses and reports success and a
    store whose marks succeed, n rounds of sendRequestXML and
    receiveResponseXML on an authenticated session that holds n > 0
    entries with the cursor at 0 return, round by round, the document
    of the next entry and the progress after it; the store is asked to
    mark the entries one at a time in the order of the worklist and is
    not asked to fetch; the cursor ends at n; and the sendRequestXML
    that follows returns the empty string. *)
Theorem full_pass_marks_every_entry_in_order
    (t rs : Str.Cell) (parsed : JS.Value) (σ : State St) (s : Session) :
  parseStringPromise (Str.or_else rs "") = Returns parsed ->
  Doc.statusCode parsed = JS.Str "0" ->
  (forall ids st, fst (markEntriesQBSynced ids st) = Returns tt) ->
  sessions σ !! Str.or_else t "" = Some s ->
  authenticated s = true ->
  currentIndex s = 0%nat ->
  pendingEntries s <> [] ->
  let calls := rounds t rs (length (pendingEntries s)) in
  let σ' := snd (serve CONFIG calls σ) in
  fst (serve CONFIG calls σ) = pass_answers s (pendingEntries s)
  /\ sessions σ'
     = <[Str.or_else t "" := set_currentIndex (length (pendingEntries s)) s]> (sessions σ)
  /\ markCalls (world σ')
     = markCalls (world σ) ++ map (fun e => [ID e]) (pendingEntries s)
  /\ fetchCalls (world σ') = fetchCalls (world σ)
  /\ handleSendRequestXML t σ' = (sendRequestXMLResponse "", σ').
Proof.
  intros Hparse Hcode Hmark Hs Ha Hi Hne calls σ'.
  destruct (full_pass_gen t rs parsed (length (pendingEntries s))
              Hparse Hcode Hmark σ s Hs Ha ltac:(lia)) as (Hans & Hss & Hmk & Hf).
  rewrite Hi in Hans, Hmk. rewrite drop_0 in Hans, Hmk.
  fold calls in Hans, Hss, Hmk, Hf. fold σ' in Hss, Hmk, Hf.
  repeat (split; [assumption|]).
  assert (Hs' : sessions σ' !! Str.or_else t ""
                = Some (set_currentIndex (length (pendingEntries s)) s))
    by (rewrite Hss; apply lookup_insert_eq).
  assert (Hd : closed_or_drained (Str.or_else t "") σ').
  { unfold closed_or_drained, drained. rewrite Hs'.
    cbn [set_currentIndex currentIndex pendingEntries].
    destruct (pendingEntries s); [congruence | simpl; lia]. }
  pose proof (handleSendRequestXML_drained t σ' Hd) as Hans'.
  pose proof (handleSendRequestXML_fetched t σ' _ Hs') as Hsame.
  destruct (handleSendRequestXML t σ') as [r σ'']. cbn [fst snd] in *.
  rewrite Hans', Hsame; [reflexivity|].
  left. cbn [set_currentIndex pendingEntries]. exact Hne.
Qed.

End SessionFacts.

Section RendererFacts.
Import Str Rendered.

Lemma escapeXml_escape_each (s : string) :
  replace_all "'" "&apos;"
    (replace_all "034" "&quot;"
      (replace_all ">" "&gt;"
        (replace_all "<" "&lt;"
          (replace_all "&" "&amp;" s))))
  = escape_each s.
Proof.
  induction s as [|a s IH]; [reflexivity|].
  cbn [escape_each]. unfold entity.
  destruct (Ascii.eqb a "&") eqn:H1;
    [apply Ascii.eqb_eq in H1; subst a; cbn; rewrite IH; reflexivity|].
  destruct (Ascii.eqb a "<") eqn:H2;
    [apply Ascii.eqb_eq in H2; subst a; cbn; rewrite IH; reflexivity|].
  destruct (Ascii.eqb a ">") eqn:H3;
    [apply Ascii.eqb_eq in H3; subst a; cbn; rewrite IH; reflexivity|].
  destruct (Ascii.eqb a "034") eqn:H4;
    [apply Ascii.eqb_eq in H4; subst a; cbn; rewrite IH; reflexivity|].
  destruct (Ascii.eqb a "'") eqn:H5;
    [apply Ascii.eqb_eq in H5; subst a; cbn; rewrite IH; reflexivity|].
  cbn [replace_all]. rewrite H1. cbn [replace_all]. rewrite H2.
  cbn [replace_all]. rewrite H3. cbn [replace_all]. rewrite H4.
  cbn [replace_all]. rewrite H5. cbn [String.append]. rewrite IH. reflexivity.
Qed.

Lemma escapeXml_Some (s : string) : Qbxml.escapeXml (Some s) = escape_each s.
Proof.
  unfold Qbxml.escapeXml. destruct s as [|a s]; [reflexivity|].
  cbn [truthy negb or_else]. apply escapeXml_escape_each.
Qed.

Lemma escape_each_app (s t : string) :
  escape_each (s +:+ t) = escape_each s +:+ escape_each t.
Proof.
  induction s as [|a s IH]; [reflexivity|].
  cbn [String.append escape_each]. rewrite IH, append_assoc. reflexivity.
Qed.


Lemma entity_not_empty (c : ascii) (rest : string) : entity c +:+ rest <> "".
Proof.
  unfold entity.
  repeat match goal with |- context [if ?b then _ else _] => destruct b end;
    discriminate.
Qed.

Ltac classify c :=
  unfold entity;
  destruct (Ascii.eqb c "&") eqn:?;
  [|destruct (Ascii.eqb c "<") eqn:?;
    [|destruct (Ascii.eqb c ">") eqn:?;
      [|destruct (Ascii.eqb c "034") eqn:?;
        [|destruct (Ascii.eqb c "'") eqn:?]]]].

Ltac literal :=
  repeat match goal with
         | H : Ascii.eqb _ _ = true |- _ => apply Ascii.eqb_eq in H; subst
         end.

Lemma entity_prefix_free (a b : ascii) (x y : string) :
  entity a +:+ x = entity b +:+ y -> a = b /\ x = y.
Proof.
  intros E. revert E. classify a; classify b; literal; cbn [String.append];
    intros E; inversion E; subst; auto;
    repeat match goal with
           | H : Ascii.eqb _ _ = false |- _ => cbn in H; try discriminate H; clear H
           end.
Qed.

Lemma escape_each_injective (s t : string) :
  escape_each s = escape_each t -> s = t.
Proof.
  revert t. induction s as [|a s IH]; intros [|b t] E; cbn [escape_each] in E.
  - reflexivity.
  - symmetry in E. destruct (entity_not_empty _ _ E).
  - destruct (entity_not_empty _ _ E).
  - apply entity_prefix_free in E as [-> E]. f_equal. apply IH, E.
Qed.

Lemma escape_each_markup_free (c : ascii) (s : string) :
  c = "<"%char \/ c = ">"%char \/ c = "034"%char \/ c = "'"%char ->
  has_char c (escape_each s) = false.
Proof.
  intros Hc. induction s as [|a s IH]; [reflexivity|].
  cbn [escape_each]. rewrite has_char_app, IH, orb_false_r.
  classify a; literal;
    try (destruct Hc as [-> | [-> | [-> | ->]]]; reflexivity).
  cbn [has_char]. rewrite orb_false_r.
  destruct Hc as [-> | [-> | [-> | ->]]]; assumption.
Qed.

(** X13. escapeXml acts character by character: its five successive
    replacements amount to replacing each ampersand, less-than,
    greater-than, double quote and apostrophe by its entity once and
    keeping every other character, so that the ampersand of an entity
    it has inserted is not escaped again; hence the escape of a
    concatenation is the concatenation of the escapes. *)
Theorem escapeXml_escapes_each_character_once (v : Cell) (s t : string) :
  Qbxml.escapeXml v = escape_each (or_else v "")
  /\ Qbxml.escapeXml (Some (s +:+ t))
     = Qbxml.escapeXml (Some s) +:+ Qbxml.escapeXml (Some t).
Proof.
  split.
  - destruct v as [u|]; [|reflexivity]. rewrite escapeXml_Some.
    destruct u; reflexivity.
  - rewrite !escapeXml_Some. apply escape_each_app.
Qed.

(** X14. The text escapeXml returns holds no less-than, greater-than, double
    quote or apostrophe, and it determines the text it was made from:
    two texts with the same escape are equal. *)
Theorem escapeXml_is_markup_free_and_reversible (s t : string) :
  has_char "<" (Qbxml.escapeXml (Some s)) = false
  /\ has_char ">" (Qbxml.escapeXml (Some s)) = false
  /\ has_char "034" (Qbxml.escapeXml (Some s)) = false
  /\ has_char "'" (Qbxml.escapeXml (Some s)) = false
  /\ (Qbxml.escapeXml (Some s) = Qbxml.escapeXml (Some t) -> s = t).
Proof.
  rewrite !escapeXml_Some.
  repeat (split; [apply escape_each_markup_free; auto|]).
  apply escape_each_injective.
Qed.


Context `{Builtins}.

(** The document, part by part. *)
Lemma buildTimeTrackingAddXML_parts (entry : Entry) :
  Qbxml.buildTimeTrackingAddXML entry
  = Qbxml.xml_head (Qbxml.formatDate (newDate (ClockIn entry)))
      (Qbxml.escapeXml (Some (or_else (EmployeeName entry) "Unknown")))
      (Qbxml.formatDuration (Num.or_zero (parseFloat (TotalHours entry)))) +:+
    (if Qbxml.is_billable entry
     then Qbxml.xml_billable (Qbxml.escapeXml (CustomerName entry))
     else Qbxml.xml_not_billable) +:+
    Policy.notes_block (Qbxml.escapeXml (Some (join " | " (Qbxml.notes_of entry)))) +:+
    Qbxml.xml_tail.
Proof.
  unfold Qbxml.buildTimeTrackingAddXML, Policy.notes_block.
  destruct (Qbxml.is_billable entry);
    destruct (Qbxml.escapeXml (Some (join " | " (Qbxml.notes_of entry))));
    rewrite ?append_assoc; reflexivity.
Qed.

Lemma escape_each_empty (s : string) : escape_each s = "" -> s = "".
Proof. intros E. apply escape_each_injective. exact E. Qed.

(** The notes text is empty exactly when no part was pushed. *)
Lemma notes_text_empty (entry : Entry) :
  Qbxml.escapeXml (Some (join " | " (Qbxml.notes_of entry))) = ""
  <-> Qbxml.notes_of entry = [].
Proof.
  rewrite escapeXml_Some. split.
  - intros E. apply escape_each_empty in E. revert E. unfold Qbxml.notes_of.
    destruct (truthy (CustomerName entry) && negb (strict_eq (CustomerName entry) "Shop"));
      destruct (truthy (JobName entry)); destruct (truthy (Notes entry));
      cbn; first [ reflexivity | discriminate ].
  - intros ->. reflexivity.
Qed.

Lemma notes_of_empty (entry : Entry) :
  Qbxml.notes_of entry = []
  <-> ~ ((truthy (CustomerName entry) = true /\ CustomerName entry <> Some "Shop")
         \/ truthy (JobName entry) = true \/ truthy (Notes entry) = true).
Proof.
  unfold Qbxml.notes_of, strict_eq.
  destruct (CustomerName entry) as [[|a c]|]; cbn [truthy andb negb].
  1,3: destruct (truthy (JobName entry)); destruct (truthy (Notes entry)); cbn;
       split; try discriminate; intuition congruence.
  destruct (String.eqb_spec (String a c) "Shop") as [E|Hne]; cbn [negb];
    destruct (truthy (JobName entry)); destruct (truthy (Notes entry)); cbn;
    split; try discriminate; try (intuition congruence).
Qed.

Ltac scan :=
  repeat first
    [ rewrite includes_skip_text by assumption
    | progress cbn [includes startsWith String.append Ascii.eqb Bool.eqb andb orb] ].

Lemma includes_notes_tag (d n dur b nt : string) :
  no_lt d -> no_lt n -> no_lt dur -> no_lt nt ->
  (b = Qbxml.xml_not_billable
   \/ exists c, no_lt c /\ b = Qbxml.xml_billable c) ->
  includes "<Notes>"
    (Qbxml.xml_head d n dur +:+ b +:+ Policy.notes_block nt +:+ Qbxml.xml_tail)
  = match nt with EmptyString => false | _ => true end.
Proof.
  intros Hd Hn Hdur Hnt [->|(c & Hc & ->)]; destruct nt as [|a nt'];
    unfold Policy.notes_block, Qbxml.xml_head, Qbxml.xml_billable,
      Qbxml.xml_not_billable, Qbxml.xml_notes, Qbxml.xml_tail, dq, nl;
    rewrite ?append_assoc; scan; reflexivity.
Qed.

(** X15. The document has a Notes element exactly when there is a part to
    note: a customer name other than Shop, a job name, or notes. The
    element then holds the escape of the parts joined by a bar between
    spaces. *)
Theorem notes_element_iff_some_part (entry : Entry) :
  let doc := Qbxml.buildTimeTrackingAddXML entry in
  let notesText := Qbxml.escapeXml (Some (join " | " (Qbxml.notes_of entry))) in
  (includes "<Notes>" doc = true
   <-> (truthy (CustomerName entry) = true /\ CustomerName entry <> Some "Shop")
       \/ truthy (JobName entry) = true \/ truthy (Notes entry) = true)
  /\ (includes "<Notes>" doc = true ->
      includes ("<Notes>" +:+ notesText +:+ "</Notes>") doc = true).
Proof.
  intros doc notesText. subst doc. rewrite buildTimeTrackingAddXML_parts.
  fold notesText.
  assert (Hinc : includes "<Notes>"
                   (Qbxml.xml_head (Qbxml.formatDate (newDate (ClockIn entry)))
                      (Qbxml.escapeXml (Some (or_else (EmployeeName entry) "Unknown")))
                      (Qbxml.formatDuration (Num.or_zero (parseFloat (TotalHours entry)))) +:+
                    (if Qbxml.is_billable entry
                     then Qbxml.xml_billable (Qbxml.escapeXml (CustomerName entry))
                     else Qbxml.xml_not_billable) +:+
                    Policy.notes_block notesText +:+ Qbxml.xml_tail)
                 = match notesText with EmptyString => false | _ => true end).
  { apply includes_notes_tag;
      try first [ apply formatDate_no_lt | apply escapeXml_no_lt
                | apply formatDuration_no_lt ].
    destruct (Qbxml.is_billable entry); [right|left; reflexivity].
    eexists. split; [apply escapeXml_no_lt | reflexivity]. }
  rewrite Hinc. pose proof (notes_text_empty entry) as He. fold notesText in He.
  pose proof (notes_of_empty entry) as Hn.
  split.
  - destruct notesText as [|a nt'] eqn:Hnt.
    + split; [discriminate|]. intros Hp. exfalso.
      apply (proj1 Hn); [apply He; reflexivity | exact Hp].
    + split; [|reflexivity]. intros _.
      destruct (truthy (CustomerName entry)) eqn:Hc;
        destruct (truthy (JobName entry)) eqn:Hj;
        destruct (truthy (Notes entry)) eqn:Hk; auto.
      * destruct (decide (CustomerName entry = Some "Shop")) as [Hs|Hs]; [|auto].
        exfalso. assert (Hnil : Qbxml.notes_of entry = []).
        { apply Hn. intros [[_ Hx]|[Hx|Hx]]; congruence. }
        apply He in Hnil. discriminate Hnil.
      * exfalso. assert (Hnil : Qbxml.notes_of entry = []).
        { apply Hn. intros [[Hx _]|[Hx|Hx]]; congruence. }
        apply He in Hnil. discriminate Hnil.
  - destruct notesText as [|a nt'] eqn:Hnt; [discriminate|]. intros _.
    unfold Policy.notes_block, Qbxml.xml_notes.
    match goal with
    | |- includes _ (?h +:+ ?b +:+ (nl +:+ "        <Notes>" +:+ ?t +:+ "</Notes>") +:+ ?z) = true =>
        replace (h +:+ b +:+ (nl +:+ "        <Notes>" +:+ t +:+ "</Notes>") +:+ z)
          with ((h +:+ b +:+ nl +:+ "        ") +:+ ("<Notes>" +:+ t +:+ "</Notes>") +:+ z)
          by (rewrite !append_assoc; reflexivity)
    end.
    apply includes_infix.
Qed.


Lemma count_char_app (c : ascii) (a b : string) :
  count_char c (a +:+ b) = (count_char c a + count_char c b)%nat.
Proof.
  induction a as [|x a IH]; [reflexivity|].
  cbn [String.append count_char]. rewrite IH. lia.
Qed.

Lemma count_char_absent (c : ascii) (s : string) :
  has_char c s = false -> count_char c s = 0%nat.
Proof.
  induction s as [|a s IH]; [reflexivity|]. cbn [has_char count_char].
  intros Hs. apply orb_false_iff in Hs as [Ha Hs]. rewrite Ha, IH by exact Hs.
  reflexivity.
Qed.

(** X16. Whatever the entry holds, the document has exactly the tag openers
    of the template: 18 that are always there, 6 more for a billable
    entry (the customer reference and the billable status) or 2 for the
    status alone, and 2 for the Notes element when there is one. No
    field of the entry adds a less-than sign to the document. *)
Theorem document_tags_are_those_of_the_template (entry : Entry) :
  count_char "<" (Qbxml.buildTimeTrackingAddXML entry)
  = (18 + (if Qbxml.is_billable entry then 6 else 2)
     + match Qbxml.notes_of entry with [] => 0 | _ => 2 end)%nat.
Proof.
  rewrite buildTimeTrackingAddXML_parts.
  pose proof (formatDate_no_lt (newDate (ClockIn entry))) as Hd.
  pose proof (escapeXml_no_lt (Some (or_else (EmployeeName entry) "Unknown"))) as Hn.
  pose proof (formatDuration_no_lt (Num.or_zero (parseFloat (TotalHours entry)))) as Hdur.
  pose proof (escapeXml_no_lt (CustomerName entry)) as Hc.
  pose proof (escapeXml_no_lt (Some (join " | " (Qbxml.notes_of entry)))) as Hnt.
  pose proof (notes_text_empty entry) as He.
  apply count_char_absent in Hd, Hn, Hdur, Hc.
  assert (Hnotes : count_char "<"
                     (Policy.notes_block
                        (Qbxml.escapeXml (Some (join " | " (Qbxml.notes_of entry)))))
                   = match Qbxml.notes_of entry with [] => 0 | _ => 2 end%nat).
  { destruct (Qbxml.escapeXml (Some (join " | " (Qbxml.notes_of entry))))
      as [|a nt'] eqn:Hnt'.
    - rewrite (proj1 He eq_refl). reflexivity.
    - destruct (Qbxml.notes_of entry) as [|p ps] eqn:Hps;
        [discriminate (proj2 He eq_refl)|].
      unfold Policy.notes_block, Qbxml.xml_notes.
      rewrite !count_char_app, (count_char_absent _ _ Hnt). reflexivity. }
  assert (Hhead : forall d n dur,
             count_char "<" d = 0%nat -> count_char "<" n = 0%nat ->
             count_char "<" dur = 0%nat ->
             count_char "<" (Qbxml.xml_head d n dur) = 14%nat).
  { intros d n dur E1 E2 E3. unfold Qbxml.xml_head.
    rewrite !count_char_app, E1, E2, E3. reflexivity. }
  assert (Hbill : forall c, count_char "<" c = 0%nat ->
                            count_char "<" (Qbxml.xml_billable c) = 6%nat).
  { intros c E. unfold Qbxml.xml_billable. rewrite !count_char_app, E. reflexivity. }
  rewrite !count_char_app, Hnotes, Hhead by assumption.
  destruct (Qbxml.is_billable entry); [rewrite Hbill by assumption|];
    change (count_char "<" Qbxml.xml_not_billable) with 2%nat;
    change (count_char "<" Qbxml.xml_tail) with 4%nat; lia.
Qed.

Lemma on_range (P : Z -> bool) (lo hi : Z) :
  forallb P (map (fun k : nat => lo + Z.of_nat k) (seq 0 (Z.to_nat (hi - lo)))) = true ->
  forall z, lo <= z < hi -> P z = true.
Proof.
  intros Hall z Hz. rewrite forallb_forall in Hall. apply Hall.
  apply in_map_iff. exists (Z.to_nat (z - lo)). split; [lia|].
  apply in_seq. lia.
Qed.

Lemma two_digits_padStart (n : Z) :
  0 <= n < 100 -> padStart 2 "0" (Num.Z_to_string n) = two_digits n.
Proof.
  intros Hn. apply String.eqb_eq.
  apply (on_range (fun n => String.eqb (padStart 2 "0" (Num.Z_to_string n))
                              (two_digits n)) 0 100);
    [vm_compute; reflexivity | exact Hn].
Qed.

Lemma two_digits_length (n : Z) :
  0 <= n < 100 -> String.length (two_digits n) = 2%nat.
Proof.
  intros Hn. apply Nat.eqb_eq.
  apply (on_range (fun n => Nat.eqb (String.length (two_digits n)) 2) 0 100);
    [vm_compute; reflexivity | exact Hn].
Qed.

Lemma four_digit_year (y : Z) :
  1000 <= y < 10000 -> String.length (Num.Z_to_string y) = 4%nat.
Proof.
  intros Hy. apply Nat.eqb_eq.
  apply (on_range (fun y => Nat.eqb (String.length (Num.Z_to_string y)) 4) 1000 10000);
    [vm_compute; reflexivity | exact Hy].
Qed.

Lemma string_length_app (a b : string) :
  String.length (a +:+ b) = (String.length a + String.length b)%nat.
Proof. induction a as [|x a IH]; [reflexivity|]. cbn. rewrite IH. reflexivity. Qed.

(** X17. formatDate of a calendar date, months counting from 0: the year as
    it is, the month plus one and the day each on two digits, with
    hyphens between them; for a year of four digits the result has the
    ten characters of YYYY-MM-DD. *)
Theorem formatDate_is_zero_padded (y m d : Z) :
  0 <= m <= 11 -> 1 <= d <= 31 ->
  Qbxml.formatDate (LocalDate y m d)
  = Num.Z_to_string y +:+ "-" +:+ two_digits (m + 1) +:+ "-" +:+ two_digits d
  /\ (1000 <= y <= 9999 ->
      String.length (Qbxml.formatDate (LocalDate y m d)) = 10%nat).
Proof.
  intros Hm Hd.
  assert (E : Qbxml.formatDate (LocalDate y m d)
              = Num.Z_to_string y +:+ "-" +:+ two_digits (m + 1) +:+ "-" +:+ two_digits d).
  { unfold Qbxml.formatDate.
    cbn [Qbxml.getFullYear Qbxml.getMonth Qbxml.getDate Num.succ Num.to_string].
    rewrite !two_digits_padStart by lia. reflexivity. }
  split; [exact E|]. intros Hy. rewrite E, !string_length_app.
  rewrite four_digit_year, !two_digits_length by lia. reflexivity.
Qed.

(** The head of the document ends with the Duration element. *)
Lemma xml_head_duration (d n dur : string) :
  exists before,
    Qbxml.xml_head d n dur = before +:+ ("<Duration>" +:+ dur +:+ "</Duration>").
Proof.
  exists ("<?xml version=" +:+ dq +:+ "1.0" +:+ dq +:+ " encoding=" +:+ dq +:+
          "utf-8" +:+ dq +:+ "?>" +:+ nl +:+
          "<?qbxml version=" +:+ dq +:+ "13.0" +:+ dq +:+ "?>" +:+ nl +:+
          "<QBXML>" +:+ nl +:+
          "  <QBXMLMsgsRq onError=" +:+ dq +:+ "stopOnError" +:+ dq +:+ ">" +:+ nl +:+
          "    <TimeTrackingAddRq>" +:+ nl +:+
          "      <TimeTrackingAdd>" +:+ nl +:+
          "        <TxnDate>" +:+ d +:+ "</TxnDate>" +:+ nl +:+
          "        <EntityRef>" +:+ nl +:+
          "          <FullName>" +:+ n +:+ "</FullName>" +:+ nl +:+
          "        </EntityRef>" +:+ nl +:+
          "        ").
  unfold Qbxml.xml_head. rewrite !append_assoc. reflexivity.
Qed.

(** X18. Hours that do not parse, or that are zero: when parseFloat of
    TotalHours is NaN or a zero, the document carries the duration
    PT0H. *)
Theorem unparseable_hours_render_as_zero (entry : Entry) :
  parseFloat (TotalHours entry) = Num.NaN
  \/ (exists negative, parseFloat (TotalHours entry) = S754_zero negative) ->
  includes "<Duration>PT0H</Duration>" (Qbxml.buildTimeTrackingAddXML entry) = true.
Proof.
  intros Hnan.
  assert (Hz : Num.or_zero (parseFloat (TotalHours entry)) = S754_zero false).
  { destruct Hnan as [-> | [negative ->]]; reflexivity. }
  rewrite buildTimeTrackingAddXML_parts, Hz.
  change (Qbxml.formatDuration (S754_zero false)) with "PT0H".
  destruct (xml_head_duration
              (Qbxml.formatDate (newDate (ClockIn entry)))
              (Qbxml.escapeXml (Some (or_else (EmployeeName entry) "Unknown")))
              "PT0H") as [before ->].
  rewrite append_assoc. apply includes_infix.
Qed.

End RendererFacts.

Section SheetsFacts.
Import Sheets SheetsSpec.
Context `{NumberFormat} {G : Type} `{Api G}.
Variable CONFIG : Sheets.Config.

Lemma foldl_same {A B} (f g : A -> B -> A) (l : list B) (a : A) :
  (forall a x, f a x = g a x) -> foldl f a l = foldl g a l.
Proof.
  intros Hfg. revert a. induction l as [|x l IH]; intros a; [reflexivity|].
  cbn [foldl]. rewrite Hfg. apply IH.
Qed.

Lemma foldl_push {A B} (p : A -> bool) (f : A -> B) (l : list A) (init : list B) :
  foldl (fun acc x => if p x then acc ++ [f x] else acc) init l
  = init ++ map f (List.filter p l).
Proof.
  revert init. induction l as [|x l IH]; intros init; cbn [foldl List.filter map].
  - rewrite app_nil_r. reflexivity.
  - rewrite IH. destruct (p x); cbn [map]; [rewrite <- app_assoc|]; reflexivity.
Qed.

Lemma imap_seq {A B} (f : nat -> A -> B) (d : A) (pre l : list A) :
  imap (fun j => f (length pre + j)%nat) l
  = map (fun i => f i (default d ((pre ++ l) !! i))) (seq (length pre) (length l)).
Proof.
  revert pre. induction l as [|x l IH]; intros pre; [reflexivity|].
  rewrite imap_cons. cbn [length seq map]. f_equal.
  - rewrite Nat.add_0_r. f_equal.
    rewrite lookup_app_r, Nat.sub_diag by lia. reflexivity.
  - specialize (IH (pre ++ [x])). rewrite length_app in IH. cbn [length] in IH.
    rewrite Nat.add_1_r, <- app_assoc in IH. cbn [app] in IH.
    rewrite <- IH. apply imap_ext. intros j y _. cbn. f_equal. lia.
Qed.

Lemma indexed_seq (rows : list Row) :
  indexed rows = map (fun i => (i, row_at rows i)) (seq 0 (length rows)).
Proof. unfold indexed. apply (imap_seq pair [] [] rows). Qed.

Lemma drop1_indexed (rows : list Row) :
  drop 1 (indexed rows)
  = map (fun i => (i, row_at rows i)) (seq 1 (length rows - 1)).
Proof.
  rewrite indexed_seq. destruct rows as [|r rows]; [reflexivity|].
  cbn [length seq map drop]. replace (S (length rows) - 1)%nat with (length rows) by lia.
  reflexivity.
Qed.

Lemma filter_map {A B} (p : B -> bool) (g : A -> B) (l : list A) :
  List.filter p (map g l) = map g (List.filter (fun x => p (g x)) l).
Proof.
  induction l as [|x l IH]; [reflexivity|]. cbn [map List.filter].
  destruct (p (g x)); cbn [map]; rewrite IH; reflexivity.
Qed.

(** The loop over the data rows that pushes on a condition. *)
Lemma loop_push {B} (p : nat -> Row -> bool) (f : nat -> Row -> B) (rows : list Row) :
  foldl (fun acc ir => if p ir.1 ir.2 then acc ++ [f ir.1 ir.2] else acc)
        [] (drop 1 (indexed rows))
  = map (fun i => f i (row_at rows i))
        (List.filter (fun i => p i (row_at rows i)) (seq 1 (length rows - 1))).
Proof.
  rewrite (foldl_push (fun ir => p ir.1 ir.2) (fun ir => f ir.1 ir.2)).
  cbn [app]. rewrite drop1_indexed, filter_map, map_map. reflexivity.
Qed.


Lemma assign_lookup (key : string) (v : Cell) (obj : Obj) (k : string) :
  k <> "__proto__" ->
  assign key v obj !! k = if String.eqb key k then Some v else obj !! k.
Proof.
  intros Hk. unfold assign.
  destruct (String.eqb_spec key k) as [->|Hne].
  - destruct (String.eqb_spec k "__proto__") as [E|_]; [contradiction|].
    apply lookup_insert_eq.
  - destruct (String.eqb key "__proto__"); [reflexivity|].
    apply lookup_insert_ne. exact Hne.
Qed.

Lemma fill_lookup (row : Row) (headers : Row) (j0 : nat) (acc : Obj) (k : string) :
  k <> "__proto__" ->
  foldl (fun entry jh => assign (toString jh.2) (or_empty (row !! jh.1)) entry)
        acc (imap (fun j h => ((j0 + j)%nat, h)) headers) !! k
  = match column_of k headers j0 with
    | Some j => Some (or_empty (row !! j))
    | None => acc !! k
    end.
Proof.
  intros Hk. revert j0 acc. induction headers as [|h rest IH]; intros j0 acc.
  - reflexivity.
  - rewrite imap_cons. cbn [foldl column_of fst snd].
    rewrite (imap_ext _ (fun j h => ((S j0 + j)%nat, h)))
      by (intros; cbn; f_equal; lia).
    rewrite IH, Nat.add_0_r.
    destruct (column_of k rest (S j0)); [reflexivity|].
    rewrite (assign_lookup _ _ _ _ Hk).
    destruct (String.eqb (toString h) k); reflexivity.
Qed.

Lemma entry_of_lookup (headers row : Row) (i : nat) (k : string) :
  k <> "__proto__" -> k <> "_rowIndex" ->
  entry_of headers row i !! k
  = (fun j => or_empty (row !! j)) <$> column_of k headers 0.
Proof.
  intros Hk Hr. unfold entry_of. rewrite lookup_insert_ne by congruence.
  unfold indexed. rewrite (fill_lookup row headers 0 ∅ k Hk).
  destruct (column_of k headers 0); [reflexivity|]. apply lookup_empty.
Qed.

Lemma column_of_None (k : string) (headers : Row) (j0 : nat) :
  column_of k headers j0 = None ->
  forall j h, headers !! j = Some h -> toString h <> k.
Proof.
  revert j0. induction headers as [|r rest IH]; intros j0 Hnone j h Hj;
    [destruct j; discriminate|].
  cbn [column_of] in Hnone.
  destruct (column_of k rest (S j0)) eqn:Hr; [discriminate|].
  destruct (String.eqb_spec (toString r) k) as [|Hne]; [discriminate|].
  destruct j as [|j]; cbn in Hj; [inversion Hj; subst; exact Hne|].
  eapply IH; eassumption.
Qed.

Lemma column_of_Some (k : string) (headers : Row) (j0 j : nat) :
  column_of k headers j0 = Some j ->
  (j0 <= j)%nat
  /\ (exists h, headers !! (j - j0)%nat = Some h /\ toString h = k)
  /\ forall j' h', (j < j')%nat -> headers !! (j' - j0)%nat = Some h' -> toString h' <> k.
Proof.
  revert j0 j. induction headers as [|h rest IH]; intros j0 j; cbn [column_of];
    [discriminate|].
  destruct (column_of k rest (S j0)) as [j1|] eqn:Hrest.
  - intros E. inversion E; subst j1. destruct (IH _ _ Hrest) as (Hle & (h1 & Hh1 & Hk1) & Hlast).
    split; [lia|]. split.
    + exists h1. split; [|exact Hk1].
      replace (j - j0)%nat with (S (j - S j0)) by lia. exact Hh1.
    + intros j' h' Hlt Hh'. apply (Hlast j' h' Hlt).
      replace (j' - j0)%nat with (S (j' - S j0)) in Hh' by lia. exact Hh'.
  - destruct (String.eqb_spec (toString h) k) as [E|Hne]; [|discriminate].
    intros Ej. inversion Ej; subst j. split; [lia|]. split.
    + exists h. rewrite Nat.sub_diag. auto.
    + intros j' h' Hlt Hh'.
      replace (j' - j0)%nat with (S (j' - S j0)) in Hh' by lia. cbn in Hh'.
      exact (column_of_None _ _ _ Hrest _ _ Hh').
Qed.

Lemma entry_of_reads_each_column_aux
    (headers row : Row) (i : nat) (k : string) (j : nat) (h : Cell) :
  k <> "__proto__" -> k <> "_rowIndex" ->
  headers !! j = Some h -> toString h = k ->
  (forall j' h', (j < j')%nat -> headers !! j' = Some h' -> toString h' <> k) ->
  entry_of headers row i !! k = Some (or_empty (row !! j)).
Proof.
  intros Hk Hr Hj Hh Hlast. rewrite (entry_of_lookup headers row i k Hk Hr).
  destruct (column_of k headers 0) as [j1|] eqn:Hc.
  - destruct (column_of_Some _ _ _ _ Hc) as (_ & (h1 & Hh1 & Hk1) & Hlast1).
    rewrite Nat.sub_0_r in Hh1. cbn. f_equal. f_equal. f_equal.
    destruct (Nat.lt_trichotomy j j1) as [Hlt|[->|Hgt]]; [|reflexivity|].
    + exfalso. exact (Hlast j1 h1 Hlt Hh1 Hk1).
    + exfalso. apply (Hlast1 j h Hgt); [rewrite Nat.sub_0_r; exact Hj | exact Hh].
  - exfalso. exact (column_of_None _ _ _ Hc j h Hj Hh).
Qed.

(** X19. The entry object built from a row. Under a key that is the text of
    a header, other than __proto__ and _rowIndex, it holds the cell of
    the rightmost column with that header, or the empty string when
    that cell is missing or falsy; under a key that is the text of no
    header it holds nothing; _rowIndex is the number of the row in the
    sheet, counting from 1; and a header __proto__ adds no property. *)
Theorem entry_of_reads_each_column (headers row : Row) (i : nat) (k : string) :
  k <> "__proto__" -> k <> "_rowIndex" ->
  (forall j h,
      headers !! j = Some h -> toString h = k ->
      (forall j' h', (j < j')%nat -> headers !! j' = Some h' -> toString h' <> k) ->
      entry_of headers row i !! k = Some (or_empty (row !! j)))
  /\ ((forall j h, headers !! j = Some h -> toString h <> k) ->
      entry_of headers row i !! k = None)
  /\ entry_of headers row i !! "_rowIndex" = Some (CNum (Num.of_nat (i + 1)))
  /\ entry_of headers row i !! "__proto__" = None.
Proof.
  intros Hk Hr. split; [|split; [|split]].
  - intros j h. apply entry_of_reads_each_column_aux; assumption.
  - intros Hnone. rewrite (entry_of_lookup headers row i k Hk Hr).
    destruct (column_of k headers 0) as [j1|] eqn:Hc; [|reflexivity].
    destruct (column_of_Some _ _ _ _ Hc) as (_ & (h1 & Hh1 & Hk1) & _).
    rewrite Nat.sub_0_r in Hh1. exfalso. exact (Hnone j1 h1 Hh1 Hk1).
  - unfold entry_of. apply lookup_insert_eq.
  - unfold entry_of. rewrite lookup_insert_ne by discriminate.
    unfold indexed. generalize (imap pair headers) as l.
    assert (Hgen : forall l (acc : Obj), acc !! "__proto__" = None ->
              foldl (fun entry jh => assign (toString jh.2) (or_empty (row !! jh.1)) entry)
                    acc l !! "__proto__" = None).
    { induction l as [|x l IH]; intros acc Hacc; [exact Hacc|].
      cbn [foldl]. apply IH. unfold assign.
      destruct (String.eqb_spec (toString x.2) "__proto__") as [E|Hne]; [exact Hacc|].
      rewrite lookup_insert_ne by exact Hne. exact Hacc. }
    intros l. apply Hgen, lookup_empty.
Qed.


(** X20. getQBSyncPendingEntries, when the sheet id is set and the client
    and the read of ClockLog!A:U succeed, returns the entries of exactly
    those rows after the header row whose Status in upper case is
    COMPLETE, whose QBSynced in upper case is not TRUE, and whose
    EmployeeName and TotalHours are truthy, in the order of the sheet;
    the adapter is left as the read left it. *)
Theorem getQBSyncPendingEntries_selects_the_rows_in_need
    (w w1 w2 : World G) (values : option (list Row)) :
  spreadsheetId CONFIG <> "" ->
  getSheetsClient w = (Returns tt, w1) ->
  get CONFIG (mkGet "ClockLog!A:U" (Some "UNFORMATTED_VALUE") (Some "FORMATTED_STRING")) w1
  = (Returns values, w2) ->
  let rows := default [] values in
  let headers := row_at rows 0 in
  getQBSyncPendingEntries CONFIG w
  = (Returns
       (map (fun i => entry_of headers (row_at rows i) i)
            (List.filter (fun i => needs_sync (entry_of headers (row_at rows i) i))
                         (seq 1 (length rows - 1)))),
     w2).
Proof.
  intros Hid Hclient Hget rows headers. unfold getQBSyncPendingEntries.
  destruct (spreadsheetId CONFIG) as [|a sid] eqn:Hsid; [congruence|].
  cbn [Str.truthy negb]. unfold Try.bind. rewrite Hclient.
  change (clockLogSheet +:+ "!A:U") with "ClockLog!A:U". rewrite Hget.
  fold rows. unfold Try.ret.
  destruct (length rows <=? 1)%nat eqn:Hlen.
  - apply Nat.leb_le in Hlen.
    replace (length rows - 1)%nat with 0%nat by lia. reflexivity.
  - f_equal. f_equal. fold (row_at rows 0). fold headers.
    rewrite <- (loop_push
                  (fun i row => needs_sync (entry_of headers row i))
                  (fun i row => entry_of headers row i) rows).
    apply foldl_same. intros acc [i row]. cbn [fst snd]. unfold needs_sync.
    destruct (String.eqb _ "COMPLETE" && negb (String.eqb _ "TRUE")); cbn [andb];
      [|reflexivity].
    destruct (truthy (entry_of headers row i !! "EmployeeName")); reflexivity.
Qed.

Lemma indexOf_ge (lit : string) (arr : Row) : -1 <= indexOf lit arr.
Proof.
  induction arr as [|c arr IH]; cbn [indexOf]; [lia|].
  destruct (is_string lit c); [lia|].
  destruct (indexOf lit arr =? -1); lia.
Qed.

Lemma indexOf_absent (lit : string) (arr : Row) :
  (indexOf lit arr =? -1) = negb (includes lit arr).
Proof.
  induction arr as [|c arr IH]; [reflexivity|].
  cbn [indexOf includes existsb]. destruct (is_string lit c); [reflexivity|].
  cbn [orb]. fold (includes lit arr). rewrite <- IH.
  pose proof (indexOf_ge lit arr).
  destruct (indexOf lit arr =? -1) eqn:E; [reflexivity|].
  apply Z.eqb_neq in E. apply Z.eqb_neq. lia.
Qed.

Lemma indexOf_first (lit : string) (arr : Row) (j : nat) (c : Cell) :
  arr !! j = Some c -> is_string lit c = true ->
  (forall j' c', (j' < j)%nat -> arr !! j' = Some c' -> is_string lit c' = false) ->
  indexOf lit arr = Z.of_nat j.
Proof.
  revert j. induction arr as [|x arr IH]; intros j Hj Hc Hfirst; [destruct j; discriminate|].
  cbn [indexOf]. destruct j as [|j].
  - cbn in Hj. inversion Hj; subst x. rewrite Hc. reflexivity.
  - rewrite (Hfirst 0%nat x) by (reflexivity || lia).
    rewrite (IH j Hj Hc).
    2:{ intros j' c' Hlt Hj'. apply (Hfirst (S j') c'); [lia | exact Hj']. }
    destruct (Z.of_nat j =? -1) eqn:E; [apply Z.eqb_eq in E; lia | lia].
Qed.

Lemma updates_for_selected (entryIds : list (option Cell)) (rows : list Row)
    (idIdx qbSyncedIdx : Z) :
  updates_for entryIds rows idIdx qbSyncedIdx
  = map (mark_of qbSyncedIdx)
        (List.filter (fun i => id_matches entryIds idIdx (row_at rows i))
                     (seq 1 (length rows - 1))).
Proof.
  unfold updates_for.
  rewrite <- (loop_push (fun _ row => id_matches entryIds idIdx row)
                        (fun i _ => mark_of qbSyncedIdx i) rows).
  apply foldl_same. intros acc [i row]. reflexivity.
Qed.

(** X21. markEntriesQBSynced, when the sheet id is set, there are ids, and
    the client, the column check and the read succeed: it throws
    Required columns not found unless the header row holds both ID and
    QBSynced; otherwise it sends one batch update that writes TRUE into
    the QBSynced column of each row after the header row whose ID cell,
    as text, is among the ids, in the order of the sheet, and it sends
    no update when there is no such row. *)
Theorem markEntriesQBSynced_marks_the_matching_rows
    (entryIds : list (option Cell)) (w w1 w2 w3 : World G)
    (values : option (list Row)) :
  spreadsheetId CONFIG <> "" ->
  entryIds <> [] ->
  getSheetsClient w = (Returns tt, w1) ->
  ensureQBSyncedColumn CONFIG w1 = (Returns tt, w2) ->
  get CONFIG (mkGet "ClockLog!A:U" (Some "UNFORMATTED_VALUE") None) w2
  = (Returns values, w3) ->
  let rows := default [] values in
  let headers := row_at rows 0 in
  let updates :=
    map (mark_of (indexOf "QBSynced" headers))
        (List.filter (fun i => id_matches entryIds (indexOf "ID" headers) (row_at rows i))
                     (seq 1 (length rows - 1))) in
  markEntriesQBSynced CONFIG entryIds w
  = if includes "ID" headers && includes "QBSynced" headers then
      match updates with
      | [] => (Returns tt, w3)
      | _ => batchUpdate CONFIG "RAW" updates w3
      end
    else (Throws "Required columns not found", w3).
Proof.
  intros Hid Hids Hclient Hensure Hget rows headers updates.
  unfold markEntriesQBSynced.
  destruct (spreadsheetId CONFIG) as [|a sid] eqn:Hsid; [congruence|].
  assert (Hlen : (length entryIds =? 0)%nat = false)
    by (destruct entryIds; [congruence | reflexivity]).
  cbn [Str.truthy negb orb]. rewrite Hlen.
  unfold Try.bind. rewrite Hclient, Hensure.
  change (clockLogSheet +:+ "!A:U") with "ClockLog!A:U". rewrite Hget.
  fold rows. fold (row_at rows 0). fold headers.
  rewrite !indexOf_absent, updates_for_selected. subst updates. cbv zeta.
  destruct (includes "ID" headers); destruct (includes "QBSynced" headers);
    cbn [negb orb andb]; try reflexivity.
  destruct (map _ _); reflexivity.
Qed.


Lemma no_batch_refl (w : World G) : no_batch_since w w.
Proof. exists []. rewrite app_nil_r. auto. Qed.

Lemma no_batch_trans (w1 w2 w3 : World G) :
  no_batch_since w1 w2 -> no_batch_since w2 w3 -> no_batch_since w1 w3.
Proof.
  intros (n1 & E1 & H1) (n2 & E2 & H2). exists (n1 ++ n2).
  rewrite E2, E1, <- app_assoc, forallb_app, H1, H2. auto.
Qed.

Lemma quiet_ret {A} (a : A) : quiet (G := G) (Try.ret a).
Proof. intros w. apply no_batch_refl. Qed.

Lemma quiet_lift {A} (o : Outcome A) : quiet (G := G) (Try.lift o).
Proof. intros w. apply no_batch_refl. Qed.

Lemma quiet_bind {A B} (m : Try.t (World G) A) (k : A -> Try.t (World G) B) :
  quiet m -> (forall a, quiet (k a)) -> quiet (Try.bind m k).
Proof.
  intros Hm Hk w. unfold Try.bind. specialize (Hm w).
  destruct (m w) as [[a|msg] w1]; cbn [snd] in *; [|exact Hm].
  eapply no_batch_trans; [exact Hm | apply Hk].
Qed.

Lemma quiet_request {A} (c : Call) (op : G -> Outcome A * G) :
  is_batchUpdate c = false -> quiet (request c op).
Proof.
  intros Hc w. unfold request. destruct (op (api w)) as [r g'].
  exists [c]. cbn. rewrite Hc. auto.
Qed.

Lemma quiet_getSheetsClient : quiet getSheetsClient.
Proof.
  intros w. unfold getSheetsClient. destruct (sheetsClient w); [apply no_batch_refl|].
  pose proof (quiet_request authorize_call authorize eq_refl w) as Hq.
  destruct (request authorize_call authorize w) as [[u|msg] w']; exact Hq.
Qed.

Lemma quiet_ensureQBSyncedColumn : quiet (ensureQBSyncedColumn CONFIG).
Proof.
  unfold ensureQBSyncedColumn. apply quiet_bind.
  - apply quiet_request. reflexivity.
  - intros values. destruct (negb _); [apply quiet_request; reflexivity | apply quiet_ret].
Qed.

Lemma ids_include_no_string (lit : string) (entryIds : list (option Cell)) :
  Forall (fun v => forall s, v <> Some (CStr s)) entryIds ->
  ids_include lit entryIds = false.
Proof.
  induction 1 as [|v ids Hv _ IH]; [reflexivity|].
  cbn [ids_include existsb]. fold (ids_include lit ids). rewrite IH, orb_false_r.
  destruct v as [[s| |]|]; try reflexivity. exfalso. exact (Hv s eq_refl).
Qed.

Lemma filter_none {A} (l : list A) : List.filter (fun _ => false) l = [].
Proof. induction l; auto. Qed.

(** X22. markEntriesQBSynced does nothing at all when the sheet id is not set
    or there are no ids. And as the ids are compared with the text of
    the ID cell by strict equality, ids none of which is a string never
    lead to a batch update, whatever the sheet holds and whatever the
    API answers. *)
Theorem markEntriesQBSynced_needs_a_string_id
    (entryIds : list (option Cell)) (w : World G) :
  (spreadsheetId CONFIG = "" \/ entryIds = [] ->
   markEntriesQBSynced CONFIG entryIds w = (Returns tt, w))
  /\ (Forall (fun v => forall s, v <> Some (CStr s)) entryIds ->
      no_batch_since w (snd (markEntriesQBSynced CONFIG entryIds w))).
Proof.
  split.
  - intros [Hid | ->]; unfold markEntriesQBSynced.
    + rewrite Hid. reflexivity.
    + rewrite orb_true_r. reflexivity.
  - intros Hids. revert w. change (quiet (markEntriesQBSynced CONFIG entryIds)).
    unfold markEntriesQBSynced. destruct (_ || _); [apply quiet_ret|].
    apply quiet_bind; [apply quiet_getSheetsClient | intros _].
    apply quiet_bind; [apply quiet_ensureQBSyncedColumn | intros _].
    apply quiet_bind; [apply quiet_request; reflexivity | intros values].
    cbv zeta. destruct (_ || _); [apply quiet_lift|].
    rewrite updates_for_selected.
    rewrite (List.filter_ext _ (fun _ => false))
      by (intros i; apply ids_include_no_string, Hids).
    rewrite filter_none. apply quiet_ret.
Qed.

(** X23. An entry built from the row at index i of a sheet with a single ID
    column, whose ID is a string: it carries i + 1 as _rowIndex, and
    marking its ID prepares the update of the cell in the QBSynced
    column and in row i + 1 of the sheet, the row it came from. *)
Theorem acknowledged_entry_marks_its_own_row
    (rows : list Row) (i j : nat) (id : string) (q : Z) :
  let headers := row_at rows 0 in
  let entry := entry_of headers (row_at rows i) i in
  (1 <= i < length rows)%nat ->
  headers !! j = Some (CStr "ID") ->
  (forall j' h', headers !! j' = Some h' -> toString h' = "ID" -> j' = j) ->
  entry !! "ID" = Some (CStr id) ->
  entry !! "_rowIndex" = Some (CNum (Num.of_nat (i + 1)))
  /\ mkValueRange
       ("ClockLog!" +:+ Text.fromCharCode (65 + q) +:+
        Num.Z_to_string (Z.of_nat (i + 1)))
       [[CStr "TRUE"]]
     ∈ updates_for [Some (CStr id)] rows (indexOf "ID" headers) q.
Proof.
  intros headers entry Hi Hj Huniq Hid. split; [apply lookup_insert_eq|].
  assert (Hidx : indexOf "ID" headers = Z.of_nat j).
  { apply (indexOf_first "ID" headers j (CStr "ID") Hj eq_refl).
    intros j' c' Hlt Hj'. destruct c' as [s| |]; try reflexivity.
    cbn [is_string]. destruct (String.eqb_spec s "ID") as [->|]; [|reflexivity].
    specialize (Huniq j' (CStr "ID") Hj' eq_refl). lia. }
  assert (Hcell : entry !! "ID" = Some (or_empty (row_at rows i !! j))).
  { apply (entry_of_reads_each_column_aux headers (row_at rows i) i "ID" j (CStr "ID"));
      try discriminate; auto.
    intros j' h' Hlt Hj' Hh'. specialize (Huniq j' h' Hj' Hh'). lia. }
  rewrite updates_for_selected. apply list_elem_of_In, in_map_iff.
  exists i. split.
  - unfold mark_of. replace (Z.of_nat (i + 1)) with (Z.of_nat i + 1) by lia.
    reflexivity.
  - apply filter_In. split; [apply in_seq; lia|].
    unfold id_matches. rewrite Hidx, Nat2Z.id.
    rewrite Hcell in Hid. inversion Hid as [Hcell']. rewrite Hcell'.
    cbn. rewrite String.eqb_refl. reflexivity.
Qed.

(** The column letter the adapter computes is the A1 letter of the
    column. *)
Lemma fromCharCode_column_letter (q : nat) :
  (q < 26)%nat -> Text.fromCharCode (65 + Z.of_nat q) = column_letter q.
Proof.
  intros Hq. do 26 (destruct q as [|q]; [reflexivity|]). lia.
Qed.

(** X24. What the adapter writes, it reads as synced. For a sheet with a
    single QBSynced column, among the first 26, every update that
    markEntriesQBSynced prepares addresses the cell of that very column
    in the sheet row of a row whose ID matched, and writes one value
    there; and a row that holds this value in that column, the column
    the fetch reads QBSynced from, is not in need of a sync, whatever
    else it holds. With more than one QBSynced header the mark goes to
    the first and the fetch reads the last. *)
Theorem marked_rows_are_no_longer_pending
    (entryIds : list (option Cell)) (rows : list Row) (q : nat) (u : ValueRange) :
  let headers := row_at rows 0 in
  headers !! q = Some (CStr "QBSynced") ->
  (forall j h, headers !! j = Some h -> toString h = "QBSynced" -> j = q) ->
  (q < 26)%nat ->
  u ∈ updates_for entryIds rows (indexOf "ID" headers) (indexOf "QBSynced" headers) ->
  exists (i : nat) (c : Cell),
    (1 <= i < length rows)%nat
    /\ id_matches entryIds (indexOf "ID" headers) (row_at rows i) = true
    /\ range u = "ClockLog!" +:+ column_letter q +:+ Num.Z_to_string (Z.of_nat (i + 1))
    /\ values u = [[c]]
    /\ forall (row : Row) (k : nat),
         row !! q = Some c -> needs_sync (entry_of headers row k) = false.
Proof.
  intros headers Hq Huniq Hlt Hu.
  assert (Hidx : indexOf "QBSynced" headers = Z.of_nat q).
  { apply (indexOf_first "QBSynced" headers q (CStr "QBSynced") Hq); [reflexivity|].
    intros j' c' Hj' Hc'. destruct (is_string "QBSynced" c') eqn:E; [|reflexivity].
    exfalso. destruct c' as [s| |]; try discriminate E. cbn in E.
    apply String.eqb_eq in E. subst s.
    pose proof (Huniq j' _ Hc' eq_refl). lia. }
  rewrite Hidx, updates_for_selected in Hu.
  apply list_elem_of_In, in_map_iff in Hu as (i & <- & Hi).
  apply filter_In in Hi as [Hi Hm]. apply in_seq in Hi.
  exists i, (CStr "TRUE"). split; [lia|]. split; [exact Hm|].
  split.
  { unfold mark_of. cbn [range]. rewrite (fromCharCode_column_letter q Hlt).
    replace (Z.of_nat (i + 1)) with (Z.of_nat i + 1) by lia. reflexivity. }
  split; [reflexivity|].
  intros row k Hcell. unfold needs_sync.
  rewrite (entry_of_reads_each_column_aux headers row k "QBSynced" q (CStr "QBSynced"))
    by (try discriminate; try assumption; try reflexivity;
        intros j' h' Hj' Hh' E; pose proof (Huniq j' h' Hh' E); lia).
  rewrite Hcell. cbn. rewrite andb_false_r. reflexivity.
Qed.

End SheetsFacts.

Section HttpFacts.
Import Text Http HttpSpec.
Context `{UriDecoder}.

Lemma split_absent (c : ascii) (s : string) :
  Str.has_char c s = false -> split c s = (s, []).
Proof.
  induction s as [|a s IH]; [reflexivity|]. cbn [Str.has_char split].
  intros Hs. apply orb_false_iff in Hs as [Ha Hs]. rewrite (IH Hs), Ha. reflexivity.
Qed.

Lemma split_at (c : ascii) (a b : string) :
  Str.has_char c a = false ->
  split c (a +:+ String c b) = (a, (split c b).1 :: (split c b).2).
Proof.
  induction a as [|x a IH]; cbn [String.append Str.has_char split].
  - intros _. rewrite Ascii.eqb_refl. destruct (split c b); reflexivity.
  - intros Hs. apply orb_false_iff in Hs as [Hx Hs]. rewrite (IH Hs), Hx. reflexivity.
Qed.

Lemma indexOf_char_ge (c : ascii) (s : string) : -1 <= indexOf c s.
Proof.
  induction s as [|a s IH]; cbn [indexOf]; [lia|].
  destruct (Ascii.eqb a c); [lia|]. destruct (indexOf c s =? -1); lia.
Qed.

Lemma indexOf_char_absent (c : ascii) (s : string) :
  Str.has_char c s = false -> indexOf c s = -1.
Proof.
  induction s as [|a s IH]; [reflexivity|]. cbn [Str.has_char indexOf].
  intros Hs. apply orb_false_iff in Hs as [Ha Hs]. rewrite Ha, (IH Hs). reflexivity.
Qed.

Lemma indexOf_char_at (c : ascii) (a b : string) :
  Str.has_char c a = false ->
  indexOf c (a +:+ String c b) = Z.of_nat (String.length a).
Proof.
  induction a as [|x a IH]; cbn [String.append Str.has_char indexOf String.length].
  - intros _. rewrite Ascii.eqb_refl. reflexivity.
  - intros Hs. apply orb_false_iff in Hs as [Hx Hs]. rewrite Hx, (IH Hs).
    destruct (Z.of_nat (String.length a) =? -1) eqn:E; [apply Z.eqb_eq in E|]; lia.
Qed.

Lemma skip_at (a b : string) : skip (String.length a) (a +:+ b) = b.
Proof. induction a as [|x a IH]; [destruct b; reflexivity | exact IH]. Qed.

(** The query string of a URL is what follows the first question mark. *)
Lemma query_string_of (path qs : string) :
  Str.has_char "?" path = false ->
  indexOf "?" (path +:+ "?" +:+ qs) <> -1
  /\ slice (indexOf "?" (path +:+ "?" +:+ qs) + 1) (path +:+ "?" +:+ qs) = qs.
Proof.
  intros Hp. change ("?" +:+ qs) with (String "?" qs).
  rewrite (indexOf_char_at _ _ _ Hp). split; [lia|].
  unfold slice. replace (Z.to_nat (Z.of_nat (String.length path) + 1))
    with (String.length (path +:+ "?"))%nat.
  2:{ clear. induction path as [|x p IH]; [reflexivity|]. cbn. rewrite IH. lia. }
  replace (path +:+ String "?" qs) with ((path +:+ "?") +:+ qs)
    by (rewrite append_assoc; reflexivity).
  apply skip_at.
Qed.


Lemma plain_no (s : string) :
  plain s = true ->
  Str.has_char "&" s = false /\ Str.has_char "=" s = false /\ Str.has_char "%" s = false.
Proof.
  unfold plain. intros Hp.
  apply andb_true_iff in Hp as [Hp H3]. apply andb_true_iff in Hp as [H1 H2].
  apply negb_true_iff in H1, H2, H3. auto.
Qed.

Lemma render_no_amp (p : string * option string) :
  plain_pair p = true -> Str.has_char "&" (render p) = false.
Proof.
  destruct p as [k [v|]]; unfold plain_pair, render; cbn [fst snd]; intros Hp.
  - apply andb_true_iff in Hp as [Hk Hv].
    apply plain_no in Hk as (Hk & _ & _). apply plain_no in Hv as (Hv & _ & _).
    rewrite !has_char_app, Hk, Hv. reflexivity.
  - rewrite andb_true_r in Hp. apply plain_no in Hp as (Hk & _ & _). exact Hk.
Qed.

(** The pieces of a query string written from pairs. *)
Lemma split_join (p : string * option string) (ps : list (string * option string)) :
  Forall (fun p => plain_pair p = true) (p :: ps) ->
  split "&" (Str.join "&" (map render (p :: ps))) = (render p, map render ps).
Proof.
  revert p. induction ps as [|p' ps IH]; intros p Hall.
  - cbn [map Str.join]. apply split_absent, render_no_amp.
    inversion Hall; assumption.
  - inversion Hall as [|? ? Hp Hrest]; subst.
    change (Str.join "&" (map render (p :: p' :: ps)))
      with (render p +:+ String "&" (Str.join "&" (map render (p' :: ps)))).
    rewrite (split_at _ _ _ (render_no_amp p Hp)), (IH p' Hrest). reflexivity.
Qed.

(** One pair, cut at its first [=]. *)
Lemma split_render (p : string * option string) :
  plain_pair p = true ->
  split "=" (render p) = (p.1, match p.2 with Some v => [v] | None => [] end).
Proof.
  destruct p as [k [v|]]; unfold plain_pair, render; cbn [fst snd]; intros Hp.
  - apply andb_true_iff in Hp as [Hk Hv].
    apply plain_no in Hk as (_ & Hk & _). apply plain_no in Hv as (_ & Hv & _).
    change ("=" +:+ v) with (String "=" v).
    rewrite (split_at _ _ _ Hk), (split_absent _ _ Hv). reflexivity.
  - rewrite andb_true_r in Hp. apply plain_no in Hp as (_ & Hk & _).
    apply split_absent, Hk.
Qed.

Lemma forEach_plain (ps : list (string * option string)) (query : Query) :
  (forall s, Str.has_char "%" s = false -> decodeURIComponent s = Returns s) ->
  Forall (fun p => plain_pair p = true) ps ->
  forEach (fun pair query =>
             let (key, more) := split "=" pair in
             let value := head more in
             match decodeURIComponent key with
             | Throws message => Throws message
             | Returns k =>
                 match value with
                 | Some v =>
                     match decodeURIComponent v with
                     | Throws message => Throws message
                     | Returns v' => Returns (assign k v' query)
                     end
                 | None => Returns (assign k "" query)
                 end
             end)
          (map render ps) query
  = Returns (foldl (fun query p => assign p.1 (default "" p.2) query) query ps).
Proof.
  intros Hlaw Hall. revert query.
  induction Hall as [|p ps Hp _ IH]; intros query; [reflexivity|].
  cbn [map forEach foldl]. rewrite (split_render p Hp).
  assert (Hk : decodeURIComponent p.1 = Returns p.1).
  { apply Hlaw. unfold plain_pair in Hp. apply andb_true_iff in Hp as [Hk _].
    apply plain_no in Hk. tauto. }
  rewrite Hk. destruct p as [k [v|]]; cbn [fst snd head] in *.
  - assert (Hv : decodeURIComponent v = Returns v).
    { apply Hlaw. unfold plain_pair in Hp. cbn [fst snd] in Hp.
      apply andb_true_iff in Hp as [_ Hv]. apply plain_no in Hv. tauto. }
    rewrite Hv. apply IH.
  - apply IH.
Qed.

Lemma parseQuery_reads_the_pairs_aux
    (path : string) (p : string * option string) (ps : list (string * option string)) :
  (forall s, Str.has_char "%" s = false -> decodeURIComponent s = Returns s) ->
  Str.has_char "?" path = false ->
  Forall (fun p => plain_pair p = true) (p :: ps) ->
  parseQuery (path +:+ "?" +:+ Str.join "&" (map render (p :: ps)))
  = Returns (foldl (fun query p => assign p.1 (default "" p.2) query) ∅ (p :: ps)).
Proof.
  intros Hlaw Hpath Hall. unfold parseQuery.
  destruct (query_string_of path (Str.join "&" (map render (p :: ps))) Hpath)
    as [Hne Hqs].
  apply Z.eqb_neq in Hne. rewrite Hne, Hqs, (split_join p ps Hall). cbn [negb].
  apply (forEach_plain (p :: ps) ∅ Hlaw Hall).
Qed.

(** X25. parseQuery reads back a query string written from pairs. When the
    keys and values hold no ampersand, equals sign or percent sign, a
    text without percent sign being left as it is by
    decodeURIComponent, and the path holds no question mark, the query
    of path?k1=v1&k2&... holds each key with its value, the empty
    string for a key without an equals sign, a later pair overriding an
    earlier one with the same key, and no property for the key
    __proto__. A URL without question mark gives the empty query, and
    a URL that ends in its question mark gives the empty key with the
    empty value. *)
Theorem parseQuery_reads_the_pairs
    (path : string) (p : string * option string) (ps : list (string * option string)) :
  (forall s, Str.has_char "%" s = false -> decodeURIComponent s = Returns s) ->
  Str.has_char "?" path = false ->
  Forall (fun p => plain_pair p = true) (p :: ps) ->
  parseQuery (path +:+ "?" +:+ Str.join "&" (map render (p :: ps)))
  = Returns (foldl (fun query p => assign p.1 (default "" p.2) query) ∅ (p :: ps))
  /\ parseQuery path = Returns ∅
  /\ parseQuery (path +:+ "?") = Returns {[ "" := "" ]}.
Proof.
  intros Hlaw Hpath Hall. split; [apply parseQuery_reads_the_pairs_aux; assumption|].
  split.
  - unfold parseQuery. rewrite (indexOf_char_absent _ _ Hpath). reflexivity.
  - unfold parseQuery.
    destruct (query_string_of path "" Hpath) as [Hne Hqs].
    change ("?" +:+ "") with "?" in Hne, Hqs.
    apply Z.eqb_neq in Hne. rewrite Hne, Hqs. cbn [negb split forEach head].
    rewrite (Hlaw "" eq_refl). reflexivity.
Qed.


(** X26. parseQuery cuts a value at its next equals sign: of k=v=rest only
    v is kept as the value of k, and rest is dropped. *)
Theorem parseQuery_cuts_a_value_at_the_next_equals_sign
    (path k v rest : string) :
  (forall s, Str.has_char "%" s = false -> decodeURIComponent s = Returns s) ->
  Str.has_char "?" path = false ->
  plain k = true -> plain v = true ->
  Str.has_char "&" rest = false ->
  parseQuery (path +:+ "?" +:+ k +:+ "=" +:+ v +:+ "=" +:+ rest)
  = Returns (assign k v ∅).
Proof.
  intros Hlaw Hpath Hk Hv Hrest. unfold parseQuery.
  destruct (query_string_of path (k +:+ "=" +:+ v +:+ "=" +:+ rest) Hpath)
    as [Hne Hqs].
  apply Z.eqb_neq in Hne. rewrite Hne, Hqs. cbn [negb].
  apply plain_no in Hk as (Hk1 & Hk2 & Hk3). apply plain_no in Hv as (Hv1 & Hv2 & Hv3).
  rewrite split_absent.
  2:{ rewrite !has_char_app, Hk1, Hv1, Hrest. reflexivity. }
  cbn [forEach].
  change ("=" +:+ v +:+ "=" +:+ rest) with (String "=" (v +:+ String "=" rest)).
  rewrite (split_at _ _ _ Hk2), (split_at _ _ _ Hv2). cbn [fst snd head].
  rewrite (Hlaw k Hk3), (Hlaw v Hv3). reflexivity.
Qed.

Lemma forEach_throws (pairs : list string) (query : Query) :
  existsb malformed pairs = true ->
  exists message,
    forEach (fun pair query =>
               let (key, more) := split "=" pair in
               let value := head more in
               match decodeURIComponent key with
               | Throws message => Throws message
               | Returns k =>
                   match value with
                   | Some v =>
                       match decodeURIComponent v with
                       | Throws message => Throws message
                       | Returns v' => Returns (assign k v' query)
                       end
                   | None => Returns (assign k "" query)
                   end
               end)
            pairs query
    = Throws message.
Proof.
  revert query. induction pairs as [|pair pairs IH]; intros query; [discriminate|].
  cbn [existsb forEach]. unfold malformed at 1.
  destruct (split "=" pair) as [key more].
  destruct (decodeURIComponent key) as [k|m]; cbn [throws orb]; [|eauto].
  destruct (head more) as [v|]; cbn [orb].
  - destruct (decodeURIComponent v) as [v'|m]; cbn [throws orb]; [|eauto]. apply IH.
  - apply IH.
Qed.

Lemma forEach_returns (pairs : list string) (query : Query) :
  existsb malformed pairs = false ->
  exists query',
    forEach (fun pair query =>
               let (key, more) := split "=" pair in
               let value := head more in
               match decodeURIComponent key with
               | Throws message => Throws message
               | Returns k =>
                   match value with
                   | Some v =>
                       match decodeURIComponent v with
                       | Throws message => Throws message
                       | Returns v' => Returns (assign k v' query)
                       end
                   | None => Returns (assign k "" query)
                   end
               end)
            pairs query
    = Returns query'.
Proof.
  revert query. induction pairs as [|pair pairs IH]; intros query; [eauto|].
  cbn [existsb forEach]. unfold malformed at 1.
  destruct (split "=" pair) as [key more].
  destruct (decodeURIComponent key) as [k|m]; cbn [throws orb]; [|discriminate].
  destruct (head more) as [v|]; cbn [orb].
  - destruct (decodeURIComponent v) as [v'|m]; cbn [throws orb]; [|discriminate]. apply IH.
  - apply IH.
Qed.

Lemma parseQuery_outcome (url_ : string) :
  if existsb malformed (query_pairs url_)
  then exists message, parseQuery url_ = Throws message
  else exists query_, parseQuery url_ = Returns query_.
Proof.
  unfold parseQuery, query_pairs.
  destruct (indexOf "?" url_ =? -1); cbn [negb existsb]; [eauto|].
  destruct (split "&" (slice (indexOf "?" url_ + 1) url_)) as [first rest].
  destruct (existsb malformed (first :: rest)) eqn:Hm.
  - apply forEach_throws, Hm.
  - apply forEach_returns, Hm.
Qed.

Section Listener.
Context {Σ : Type}.
Variable handleSOAPRequest : string -> Σ -> Outcome string * Σ.
Variable getWSDL : string.

Lemma qbwcHandler_sends (req : Req) (σ : Σ) :
  is_Some (sent (qbwcHandler handleSOAPRequest getWSDL req mockRes σ).1).
Proof.
  unfold qbwcHandler.
  repeat match goal with
         | |- context [if ?b then _ else _] => destruct b
         | |- context [match ?x with (_, _) => _ end] => destruct x as [[?|?] ?]
         end; cbn; eauto.
Qed.

(** X27. A malformed escape in the query leaves the request unanswered. The
    listener parses the query before it enters its try block: when
    decodeURIComponent throws on the key or on the value of some pair
    of the URL, the callback throws with nothing written to the
    response and the state untouched. In every other case a response is
    sent, whatever the method, the URL and the body. *)
Theorem malformed_query_leaves_the_request_unanswered
    (method_ url_ body_ : string) (σ : Σ) :
  if existsb malformed (query_pairs url_)
  then exists message,
         onRequestEnd handleSOAPRequest getWSDL method_ url_ body_ σ
         = (Throws message, σ)
  else exists res σ',
         onRequestEnd handleSOAPRequest getWSDL method_ url_ body_ σ
         = (Returns res, σ')
         /\ is_Some (sent res).
Proof.
  unfold onRequestEnd. pose proof (parseQuery_outcome url_) as Hq.
  destruct (existsb malformed (query_pairs url_)).
  - destruct Hq as [message ->]. eauto.
  - destruct Hq as [query_ ->].
    pose proof (qbwcHandler_sends (mkReq method_ url_ query_ body_) σ) as Hs.
    destruct (qbwcHandler _ _ _ _ _) as [res σ']. eauto.
Qed.

Lemma foldl_assign_wsdl (ps : list (string * option string)) (query : Query) :
  is_Some (query !! "wsdl") \/ (exists v, ("wsdl", v) ∈ ps) ->
  is_Some (foldl (fun query p => assign p.1 (default "" p.2) query) query ps !! "wsdl").
Proof.
  revert query. induction ps as [|p ps IH]; intros query [Hq|[v Hv]].
  - exact Hq.
  - inversion Hv.
  - cbn [foldl]. apply IH. left. unfold assign.
    destruct (String.eqb p.1 "__proto__"); [exact Hq|].
    destruct (decide (p.1 = "wsdl")) as [->|Hne].
    + rewrite lookup_insert_eq. eauto.
    + rewrite lookup_insert_ne by exact Hne. exact Hq.
  - cbn [foldl]. apply IH. apply elem_of_cons in Hv as [<-|Hv]; [left|right; eauto].
    cbn [fst snd]. unfold assign. cbn. rewrite lookup_insert_eq. eauto.
Qed.

(** X28. A GET whose query names wsdl gets the WSDL, with status 200 and
    content type text/xml, whatever the path, the value given to wsdl
    and the other pairs (keys and values without ampersand, equals sign
    or percent sign); the SOAP layer is not entered and the state stays
    as it is. *)
Theorem wsdl_is_served_wherever_the_query_names_it
    (path body_ : string) (p : string * option string)
    (ps : list (string * option string)) (v : option string) (σ : Σ) :
  (forall s, Str.has_char "%" s = false -> decodeURIComponent s = Returns s) ->
  Str.has_char "?" path = false ->
  Forall (fun p => plain_pair p = true) (p :: ps) ->
  ("wsdl", v) ∈ p :: ps ->
  onRequestEnd handleSOAPRequest getWSDL "GET"
    (path +:+ "?" +:+ Str.join "&" (map render (p :: ps))) body_ σ
  = (Returns (mkRes 200 {[ "Content-Type" := "text/xml" ]} (Some getWSDL)), σ).
Proof.
  intros Hlaw Hpath Hall Hin. unfold onRequestEnd.
  rewrite (parseQuery_reads_the_pairs_aux path p ps Hlaw Hpath Hall).
  unfold qbwcHandler. cbn [method query String.eqb Ascii.eqb Bool.eqb].
  rewrite bool_decide_eq_true_2; [reflexivity|].
  apply foldl_assign_wsdl. right. eauto.
Qed.

End Listener.

End HttpFacts.

Section SoapFacts.
Import Soap SoapSpec.

Lemma first_of_element (tag : string) (fields : list (string * JS.Value)) :
  first_of (JS.Obj fields) ("soap:" +:+ tag) ("SOAP-ENV:" +:+ tag) tag
  = Returns (element tag (JS.Obj fields)).
Proof.
  unfold first_of, element. cbn [JS.get Doc.child].
  destruct (JS.truthy (JS.assoc ("soap:" +:+ tag) fields)); [reflexivity|].
  destruct (JS.truthy (JS.assoc ("SOAP-ENV:" +:+ tag) fields)); reflexivity.
Qed.

Lemma after_colon_prefix (p rest : string) :
  Str.has_char ":" p = false -> after_colon (p +:+ String ":" rest) = Some rest.
Proof.
  induction p as [|a p IH]; cbn [String.append Str.has_char after_colon].
  - reflexivity.
  - intros Hp. apply orb_false_iff in Hp as [Ha Hp]. rewrite Ha. exact (IH Hp).
Qed.

Lemma strip_prefix_qualified (p name : string) :
  p <> "" -> Str.has_char ":" p = false ->
  strip_prefix (p +:+ ":" +:+ name) = name.
Proof.
  intros Hne Hp. destruct p as [|a p]; [congruence|].
  cbn [Str.has_char] in Hp. apply orb_false_iff in Hp as [Ha Hp].
  change ((String a p) +:+ ":" +:+ name) with (String a (p +:+ String ":" name)).
  cbn [strip_prefix]. rewrite Ha, (after_colon_prefix _ _ Hp). reflexivity.
Qed.

Lemma strip_prefix_plain (name : string) :
  Str.has_char ":" name = false -> strip_prefix name = name.
Proof.
  intros Hn. destruct name as [|a s]; [reflexivity|].
  cbn [Str.has_char] in Hn. apply orb_false_iff in Hn as [Ha Hs].
  cbn [strip_prefix]. rewrite Ha.
  assert (Hnone : after_colon s = None).
  { clear Ha. induction s as [|b s IH]; [reflexivity|]. cbn [Str.has_char] in Hs.
    apply orb_false_iff in Hs as [Hb Hs]. cbn [after_colon]. rewrite Hb. exact (IH Hs). }
  rewrite Hnone. reflexivity.
Qed.

Lemma find_after_xmlns (pre post : list (string * JS.Value)) (k : string) (v : JS.Value) :
  Forall (fun kv => Str.startsWith "xmlns" kv.1 = true) pre ->
  Str.startsWith "xmlns" k = false ->
  List.find (fun m => negb (Str.startsWith "xmlns" m))
            (map fst (pre ++ (k, v) :: post)) = Some k
  /\ JS.assoc k (pre ++ (k, v) :: post) = v.
Proof.
  intros Hpre Hk. induction Hpre as [|[k0 v0] pre Hk0 _ IH]; cbn [app map fst List.find JS.assoc].
  - rewrite Hk, String.eqb_refl. auto.
  - cbn [fst] in Hk0. rewrite Hk0. cbn [negb].
    destruct (String.eqb_spec k0 k) as [->|_]; [congruence|]. exact IH.
Qed.

Ltac open_element tag fields :=
  let E := fresh "E" in
  pose proof (first_of_element tag fields) as E;
  cbn [String.append] in E; rewrite E; clear E.

(** X29. The router finds the method under any namespace prefix. When the
    parsed document is an object whose envelope (spelled soap:Envelope,
    SOAP-ENV:Envelope or Envelope) is an object whose body (spelled
    likewise) is an object, the method key is the first key of the body
    that does not start with xmlns; the method name is that key without
    its prefix, the text up to its first colon; and the parameters are
    what the body holds under the key. *)
Theorem route_finds_the_method_under_any_prefix
    (parsed : JS.Value) (pre post : list (string * JS.Value))
    (methodKey name : string) (params : JS.Value) :
  (exists top, parsed = JS.Obj top) ->
  (exists inner, element "Envelope" parsed = JS.Obj inner) ->
  element "Body" (element "Envelope" parsed) = JS.Obj (pre ++ (methodKey, params) :: post) ->
  Forall (fun kv => Str.startsWith "xmlns" kv.1 = true) pre ->
  Str.startsWith "xmlns" methodKey = false ->
  (methodKey = name /\ name <> "" /\ Str.has_char ":" name = false
   \/ exists p, methodKey = p +:+ ":" +:+ name /\ p <> "" /\ Str.has_char ":" p = false) ->
  route parsed = Returns (name, params).
Proof.
  intros [top ->] [inner Henv] Hbody Hpre Hxmlns Hname. unfold route.
  open_element "Envelope" top. rewrite Henv in *.
  open_element "Body" inner. rewrite Hbody. cbn [keys own].
  destruct (find_after_xmlns pre post methodKey params Hpre Hxmlns) as [-> ->].
  destruct Hname as [(-> & Hne & Hn) | (p & -> & Hne & Hp)].
  - rewrite (strip_prefix_plain _ Hn). destruct name; [congruence | reflexivity].
  - rewrite (strip_prefix_qualified _ _ Hne Hp).
    destruct p; [congruence | reflexivity].
Qed.

(** X30. What the router rejects. The empty document, which parses to
    null, throws the TypeError of reading soap:Envelope of null; a
    document without an envelope throws the TypeError of reading
    soap:Body of undefined; an envelope that is text, or that holds no
    body, throws the TypeError of Object.keys, and so does an envelope
    whose only body is an empty soap:Body or SOAP-ENV:Body, which parses
    to the empty string and is passed over by the chain of
    alternatives; an empty Body without prefix throws Unknown SOAP
    method, and so does a body all of whose keys start with xmlns. *)
Theorem route_rejects_what_is_not_an_envelope :
  route JS.Null = Throws "Cannot read properties of null (reading 'soap:Envelope')"
  /\ (forall top,
        element "Envelope" (JS.Obj top) = JS.Undefined ->
        route (JS.Obj top)
        = Throws "Cannot read properties of undefined (reading 'soap:Body')")
  /\ (forall top text,
        element "Envelope" (JS.Obj top) = JS.Str text ->
        route (JS.Obj top) = Throws "Cannot convert undefined or null to object")
  /\ (forall top inner,
        element "Envelope" (JS.Obj top) = JS.Obj inner ->
        JS.truthy (Doc.child "soap:Body" (JS.Obj inner)) = false ->
        JS.truthy (Doc.child "SOAP-ENV:Body" (JS.Obj inner)) = false ->
        (Doc.child "Body" (JS.Obj inner) = JS.Undefined ->
         route (JS.Obj top) = Throws "Cannot convert undefined or null to object")
        /\ (Doc.child "Body" (JS.Obj inner) = JS.Str "" ->
            route (JS.Obj top) = Throws "Unknown SOAP method"))
  /\ (forall top inner fields,
        element "Envelope" (JS.Obj top) = JS.Obj inner ->
        element "Body" (JS.Obj inner) = JS.Obj fields ->
        Forall (fun kv => Str.startsWith "xmlns" kv.1 = true) fields ->
        route (JS.Obj top) = Throws "Unknown SOAP method").
Proof.
  split; [reflexivity|]. split; [|split; [|split]].
  - intros top Henv. unfold route.
    open_element "Envelope" top. rewrite Henv. reflexivity.
  - intros top text Henv. unfold route.
    open_element "Envelope" top. rewrite Henv. reflexivity.
  - intros top inner Henv Hsoap Henv2.
    assert (Hbody : element "Body" (JS.Obj inner) = Doc.child "Body" (JS.Obj inner)).
    { unfold element. cbn [String.append]. rewrite Hsoap, Henv2. reflexivity. }
    split; intros Hb; unfold route;
      open_element "Envelope" top; rewrite Henv;
      open_element "Body" inner; rewrite Hbody, Hb; reflexivity.
  - intros top inner fields Henv Hbody Hall. unfold route.
    open_element "Envelope" top. rewrite Henv.
    open_element "Body" inner. rewrite Hbody. cbn [keys].
    assert (Hnone : List.find (fun m => negb (Str.startsWith "xmlns" m))
                              (map fst fields) = None).
    { clear Hbody. induction Hall as [|[k v] fields Hk _ IH]; [reflexivity|].
      cbn [map fst List.find] in *. rewrite Hk. exact IH. }
    rewrite Hnone. reflexivity.
Qed.

End SoapFacts.

(* ===================================================================== *)
(** ** The claims *)
(* ===================================================================== *)

Import Demo Scenario.

(** C1 (as amended). The cursor is never negative, and it stays within
    the worklist, 0 <= cursor <= len(pendingEntries), for every session
    as long as each receiveResponseXML answers a request, that is, finds
    an entry at the cursor of the session it names: every call of the
    dispatcher then preserves the bound, and so the bound holds in every
    state reached from a freshly started process by such calls. *)
Theorem C1_cursor_bounded_while_receives_answer_requests
    `{Builtins} `{XmlParser} {St : Type} `{RecordStore St} (CONFIG : Config) :
  (forall (rq : Request) (σ : State St),
      cursors_bounded σ -> answers_a_request rq σ ->
      cursors_bounded (snd (handleSOAPRequest CONFIG rq σ)))
  /\ (forall (rqs : list Request) (st : St),
        conforming CONFIG rqs (boot st) ->
        cursors_bounded (snd (serve CONFIG rqs (boot st)))).
Proof.
  split; [exact (handleSOAPRequest_keeps_bound CONFIG)|].
  assert (Hgen : forall rqs (σ : State St),
             cursors_bounded σ -> conforming CONFIG rqs σ ->
             cursors_bounded (snd (serve CONFIG rqs σ))).
  { induction rqs as [|rq rqs IH]; intros σ Hb Hc; [exact Hb|].
    destruct Hc as [Hrq Hrest]. rewrite serve_cons.
    apply IH; [|exact Hrest]. apply handleSOAPRequest_keeps_bound; assumption. }
  intros rqs st Hc. apply Hgen; [|exact Hc].
  intros T s Hs. unfold boot in Hs. cbn [sessions] in Hs.
  rewrite lookup_empty in Hs. discriminate.
Qed.

(** C1, as stated, fails: a receiveResponseXML that answers no request
    finds the worklist empty and moves the cursor to 1, above
    len(pendingEntries) = 0. *)
Lemma C1_receive_without_request_overruns_worklist :
  let σ := snd (serve config
                  [login; receiveResponseXML (Some ticket) (Some rs_other)]
                  idle) in
  sessions σ !! ticket
  = Some {| authenticated := true; pendingEntries := [];
            currentIndex := 1; lastError := JS.Str "" |}
  /\ ~ cursors_bounded σ.
Proof.
  assert (E : sessions (snd (serve config
                  [login; receiveResponseXML (Some ticket) (Some rs_other)]
                  idle)) !! ticket
              = Some {| authenticated := true; pendingEntries := [];
                        currentIndex := 1; lastError := JS.Str "" |}).
  { vm_compute. reflexivity. }
  split; [exact E|].
  intros Hb. specialize (Hb _ _ E). simpl in Hb. lia.
Qed.

Lemma C1_witness :
  conforming config calls (boot [Returns [e1; e2; e3]])
  /\ cursors_bounded (snd (serve config calls (boot [Returns [e1; e2; e3]]))).
Proof.
  assert (Hc : conforming config calls (boot [Returns [e1; e2; e3]])).
  { vm_compute. repeat split; intros s Hs; inversion Hs; lia. }
  split; [exact Hc|].
  exact (proj2 (C1_cursor_bounded_while_receives_answer_requests config)
           calls [Returns [e1; e2; e3]] Hc).
Defined.

(** C2, on the code: when the first fetch of a session returns the empty
    list, the next sendRequestXML of the same session fetches again. Here
    the store is empty at the first request and holds one entry at the
    second, and getQBSyncPendingEntries has been called twice. *)
Lemma C2_empty_fetch_is_repeated :
  let σ := snd (serve config
                  [login; sendRequestXML (Some ticket); sendRequestXML (Some ticket)]
                  (boot [Returns []; Returns [e1]])) in
  fetchCalls (world σ) = 2%nat.
Proof. vm_compute. reflexivity. Qed.

(** C3, on the code: receiveResponseXML on a live session whose worklist
    is empty answers Infinity (1 / 0 in binary64), not 0, and on a session
    whose one entry is already confirmed it answers 200; neither is -1 or
    an integer in 0..100. *)
Lemma C3_progress_leaves_the_percent_range :
  last (fst (serve config
               [login; sendRequestXML (Some ticket);
                receiveResponseXML (Some ticket) (Some rs_other)]
               idle))
  = Some (receiveResponseXMLResponse Num.Infinity)
  /\ last (fst (serve config
                  [login; sendRequestXML (Some ticket);
                   receiveResponseXML (Some ticket) (Some rs_ok);
                   receiveResponseXML (Some ticket) (Some rs_other)]
                  (boot [Returns [e1]])))
     = Some (receiveResponseXMLResponse (Num.of_Z 200)).
Proof. split; vm_compute; reflexivity. Qed.

(** C4. On a live session with an entry at its cursor, a receiveResponseXML
    whose document carries a TimeTrackingAddRs status code leaves the
    worklist alone, makes no fetch and moves the cursor on by exactly one.
    If the code is 0, markEntriesQBSynced is called exactly once, with the
    one-element batch holding the id of the entry at the old cursor; for
    any other code it is not called, the status message is stored into
    [lastError] and the progress is answered. In the three-record session
    with outcomes success, failure, success, the last answer is progress
    100, the final cursor is 3, [lastError] is the failure's non-empty
    message, and markEntriesQBSynced was called exactly twice, with the ids
    of the first and the third entry. *)
Theorem C4_receive_marks_confirmed_entry_and_advances :
  (forall `{Builtins} `{XmlParser} (St : Type) `{RecordStore St}
          (ticket response : Str.Cell) (σ : State St) (s : Session) (e : Entry)
          (parsed : JS.Value) (code : string),
      sessions σ !! Str.or_else ticket "" = Some s ->
      pendingEntries s !! currentIndex s = Some e ->
      parseStringPromise (Str.or_else response "") = Returns parsed ->
      Doc.statusCode parsed = JS.Str code ->
      exists s' w',
        snd (handleReceiveResponseXML ticket response σ)
        = mkState (<[Str.or_else ticket "" := s']> (sessions σ)) w'
        /\ currentIndex s' = S (currentIndex s)
        /\ pendingEntries s' = pendingEntries s
        /\ fetchCalls w' = fetchCalls (world σ)
        /\ if String.eqb code "0"
           then markCalls w' = markCalls (world σ) ++ [[ID e]]
           else markCalls w' = markCalls (world σ)
                /\ lastError s' = Doc.statusMessage parsed
                /\ fst (handleReceiveResponseXML ticket response σ)
                   = receiveResponseXMLResponse (progress s'))
  /\ (last (fst Scenario.outcome)
       = Some (receiveResponseXMLResponse (Num.of_Z 100))
      /\ sessions (snd Scenario.outcome) !! Demo.ticket
         = Some {| authenticated := true;
                   pendingEntries := [Demo.e1; Demo.e2; Demo.e3];
                   currentIndex := 3;
                   lastError := JS.Str "Invalid reference to Employee" |}
      /\ markCalls (world (snd Scenario.outcome))
         = [[Some "CL-1"]; [Some "CL-3"]]).
Proof.
  split.
  - intros. eapply handleReceiveResponseXML_status; eassumption.
  - repeat split; vm_compute; reflexivity.
Qed.

Lemma C4_witness :
  exists s' w',
    snd (handleReceiveResponseXML (Some ticket) (Some rs_ok) streaming)
    = mkState (<[ticket := s']> (sessions streaming)) w'
    /\ currentIndex s' = 1%nat
    /\ pendingEntries s' = [e1; e2; e3]
    /\ fetchCalls w' = fetchCalls (world streaming)
    /\ markCalls w' = markCalls (world streaming) ++ [[Some "CL-1"]].
Proof.
  assert (Hlive : sessions streaming !! Str.or_else (Some ticket) ""
                  = Some streaming_session) by (vm_compute; reflexivity).
  assert (Hparse : parseStringPromise (Str.or_else (Some rs_ok) "")
                   = Returns (addRs "0" "Status OK")) by (vm_compute; reflexivity).
  destruct (proj1 C4_receive_marks_confirmed_entry_and_advances
              builtins parser _ store
              (Some ticket) (Some rs_ok) streaming streaming_session e1
              (addRs "0" "Status OK") "0" Hlive eq_refl Hparse eq_refl)
    as (s' & w' & E & Hi & Hp & Hf & Hm).
  exists s', w'. repeat split; assumption.
Defined.

(** C5 (as amended). Once a live session has consumed a non-empty
    worklist (cursor == len(pendingEntries) with cursor > 0), every later
    sendRequestXML bearing its ticket answers the empty string, whatever
    calls are served in between, as long as no authenticate issues the
    same ticket anew. *)
Theorem C5_drained_session_has_no_more_work
    `{Builtins} `{XmlParser} {St : Type} `{RecordStore St} (CONFIG : Config)
    (σ : State St) (T : string) (s : Session) (rqs : list Request)
    (ticket : Str.Cell) :
  sessions σ !! T = Some s ->
  currentIndex s = length (pendingEntries s) ->
  (0 < currentIndex s)%nat ->
  Forall (fun rq => issues CONFIG rq T = false) rqs ->
  Str.or_else ticket "" = T ->
  fst (handleSendRequestXML ticket (snd (serve CONFIG rqs σ)))
  = sendRequestXMLResponse "".
Proof.
  intros Hs Heq Hpos Hrqs <-. apply handleSendRequestXML_drained.
  assert (Hd : closed_or_drained (Str.or_else ticket "") σ).
  { unfold closed_or_drained, drained. rewrite Hs. lia. }
  clear Hs Heq Hpos. revert σ Hd.
  induction Hrqs as [|rq rqs Hrq _ IH]; intros σ Hd; [exact Hd|].
  rewrite serve_cons. apply IH.
  apply handleSOAPRequest_keeps_drained; assumption.
Qed.

(** C5, as stated, fails: a fresh session has
    cursor == len(pendingEntries) == 0, and its first sendRequestXML
    fetches the worklist and hands out a document. *)
Lemma C5_fresh_session_is_handed_work :
  let σ := snd (serve config [login] (boot [Returns [e2]])) in
  sessions σ !! ticket = Some fresh_session
  /\ currentIndex fresh_session = length (pendingEntries fresh_session)
  /\ fst (handleSendRequestXML (Some ticket) σ)
     = sendRequestXMLResponse (Qbxml.buildTimeTrackingAddXML e2)
  /\ Qbxml.buildTimeTrackingAddXML e2 <> "".
Proof.
  split; [vm_compute; reflexivity|].
  split; [reflexivity|].
  split; [vm_compute; reflexivity | vm_compute; discriminate].
Qed.

Lemma C5_witness :
  fst (handleSendRequestXML (Some ticket)
         (snd (serve config
                 [receiveResponseXML (Some ticket) (Some rs_ok);
                  getLastError (Some ticket);
                  sendRequestXML (Some ticket)]
                 (snd outcome))))
  = sendRequestXMLResponse "".
Proof.
  refine (C5_drained_session_has_no_more_work config
            (snd outcome) ticket drained_session _ (Some ticket) _ _ _ _ _).
  - vm_compute. reflexivity.
  - reflexivity.
  - vm_compute. lia.
  - repeat constructor.
  - reflexivity.
Defined.

(** C6, on the code: with the store empty at the first request and
    holding one entry at the second, two sendRequestXML calls in a row on
    the same session get different answers, the empty string and then a
    document. *)
Lemma C6_second_request_differs_after_empty_fetch :
  fst (serve config
         [login; sendRequestXML (Some ticket); sendRequestXML (Some ticket)]
         (boot [Returns []; Returns [e1]]))
  = [ authenticateResponse [ticket; ""];
      sendRequestXMLResponse "";
      sendRequestXMLResponse (Qbxml.buildTimeTrackingAddXML e1) ]
  /\ Qbxml.buildTimeTrackingAddXML e1 <> "".
Proof. split; [vm_compute; reflexivity | vm_compute; discriminate]. Qed.

(** C7. For every username/password pair other than the configured
    credentials, authenticate answers the pair ["", "nvu"] and leaves the
    state, hence the session registry, unchanged: no session is created.
    Consequently, in the state it leaves, sendRequestXML with any ticket
    that was not issued answers "" and getLastError on that ticket
    answers "", both without changing the state. *)
Theorem C7_invalid_credentials_open_no_session
    `{Builtins} `{XmlParser} {St : Type} `{RecordStore St} (CONFIG : Config)
    (strUserName strPassword : Str.Cell) (now : Z) (random : string) (σ : State St) :
  (Str.or_else strUserName "", Str.or_else strPassword "")
    <> (username CONFIG, password CONFIG) ->
  let (r, σ') := handleAuthenticate CONFIG strUserName strPassword now random σ in
  r = authenticateResponse [""; "nvu"]
  /\ σ' = σ
  /\ forall ticket : Str.Cell,
       sessions σ !! Str.or_else ticket "" = None ->
       handleSendRequestXML ticket σ' = (sendRequestXMLResponse "", σ')
       /\ handleGetLastError ticket σ' = (getLastErrorResponse (JS.Str ""), σ').
Proof.
  intros Hne. unfold handleAuthenticate.
  destruct (String.eqb (Str.or_else strUserName "") (username CONFIG)) eqn:Hu;
    [destruct (String.eqb (Str.or_else strPassword "") (password CONFIG)) eqn:Hp|];
    cbn [andb].
  - apply String.eqb_eq in Hu, Hp. exfalso. apply Hne. congruence.
  - split; [reflexivity | split; [reflexivity|]]. intros ticket Hnone.
    unfold handleSendRequestXML, handleGetLastError. rewrite Hnone. auto.
  - split; [reflexivity | split; [reflexivity|]]. intros ticket Hnone.
    unfold handleSendRequestXML, handleGetLastError. rewrite Hnone. auto.
Qed.

Lemma C7_witness :
  handleAuthenticate config (Some "trippinqb") (Some "letmein") 1772438400000 "k3x9q" idle
  = (authenticateResponse [""; "nvu"], idle)
  /\ handleSendRequestXML (Some ticket) idle = (sendRequestXMLResponse "", idle)
  /\ handleGetLastError (Some ticket) idle = (getLastErrorResponse (JS.Str ""), idle).
Proof.
  assert (Hne : (Str.or_else (Some "trippinqb") "", Str.or_else (Some "letmein") "")
                <> (username config, password config)).
  { vm_compute. intros E. inversion E. }
  pose proof (C7_invalid_credentials_open_no_session config
                (Some "trippinqb") (Some "letmein") 1772438400000 "k3x9q" idle Hne) as W.
  destruct (handleAuthenticate config (Some "trippinqb") (Some "letmein")
              1772438400000 "k3x9q" idle) as [r σ'].
  destruct W as (-> & -> & W).
  split; [reflexivity|]. apply (W (Some ticket)). reflexivity.
Defined.

(** C8 (as amended). For every Number of hours whose sign bit is clear
    (a non-negative duration), the renderer takes hours * 60 to whole
    minutes by rounding half away from zero; for a minute count [t] below
    2^53 the rendering is PT<t div 60>H<t mod 60>M, and the minutes
    component is omitted, giving PT<t div 60>H, exactly when [t] is a
    multiple of 60. In particular 1.5 hours renders PT1H30M, 2 renders
    PT2H and 5/60 renders PT0H5M. ([Math.round] takes a tie towards
    +Infinity, so the policy is not followed on negative ties.) *)
Theorem C8_duration_rounds_and_splits_nonnegative_hours :
  (forall (hours : Num.Number) (t : Z),
      Num.sign_clear hours = true ->
      Policy.round_half_away_from_zero (Num.mul hours (Num.of_Z 60)) = Num.IInt t ->
      t < 2 ^ 53 ->
      Num.Math_round (Num.mul hours (Num.of_Z 60)) = Num.IInt t
      /\ Qbxml.formatDuration hours = Policy.render_minutes t
      /\ (Qbxml.formatDuration hours = "PT" +:+ Num.Z_to_string (t / 60) +:+ "H"
          <-> t mod 60 = 0))
  /\ Qbxml.formatDuration (Num.div (Num.of_Z 3) (Num.of_Z 2)) = "PT1H30M"
  /\ Qbxml.formatDuration (Num.of_Z 2) = "PT2H"
  /\ Qbxml.formatDuration (Num.div (Num.of_Z 5) (Num.of_Z 60)) = "PT0H5M".
Proof.
  split; [| repeat split; vm_compute; reflexivity ].
  intros hours t Hs Hpol _.
  assert (Hp : Num.sign_clear (Num.mul hours (Num.of_Z 60)) = true).
  { apply NumFacts.mul_sign_clear; [exact Hs | reflexivity]. }
  assert (Hr : Num.Math_round (Num.mul hours (Num.of_Z 60)) = Num.IInt t).
  { rewrite Math_round_half_away by exact Hp. exact Hpol. }
  assert (Ht : 0 <= t) by (eapply round_half_away_nonneg; eassumption).
  split; [exact Hr|]. split; [apply formatDuration_of_minutes; assumption|].
  rewrite (formatDuration_of_minutes hours t Ht Hr). unfold Policy.render_minutes.
  destruct (t mod 60 =? 0) eqn:Hm.
  - apply Z.eqb_eq in Hm. tauto.
  - apply Z.eqb_neq in Hm. split; [|tauto]. intros E. exfalso.
    apply append_cancel_l in E. apply append_cancel_l in E.
    change "H" with ("H" +:+ "") in E at 2.
    apply append_cancel_l in E.
    exact (append_not_empty _ _ _ E).
Qed.

(** C8, as stated, fails on a negative tie: -0.125 hours is -7.5
    minutes, which [Math.round] takes to -7 where rounding half away from
    zero gives -8; the rendering is PT-1H-7M. *)
Lemma C8_negative_tie_is_rounded_towards_zero :
  let hours := Num.div (Num.of_Z (-1)) (Num.of_Z 8) in
  Num.mul hours (Num.of_Z 60) = Num.div (Num.of_Z (-15)) (Num.of_Z 2)
  /\ Policy.round_half_away_from_zero (Num.mul hours (Num.of_Z 60)) = Num.IInt (-8)
  /\ Num.Math_round (Num.mul hours (Num.of_Z 60)) = Num.IInt (-7)
  /\ Qbxml.formatDuration hours = "PT-1H-7M".
Proof. repeat split; vm_compute; reflexivity. Qed.

Lemma C8_witness :
  Num.Math_round (Num.mul Demo.one_and_a_half (Num.of_Z 60)) = Num.IInt 90
  /\ Qbxml.formatDuration Demo.one_and_a_half = Policy.render_minutes 90
  /\ (Qbxml.formatDuration Demo.one_and_a_half
      = "PT" +:+ Num.Z_to_string (90 / 60) +:+ "H"
      <-> 90 mod 60 = 0).
Proof.
  assert (Hs : Num.sign_clear Demo.one_and_a_half = true)
    by (vm_compute; reflexivity).
  assert (Hp : Policy.round_half_away_from_zero
                 (Num.mul Demo.one_and_a_half (Num.of_Z 60)) = Num.IInt 90)
    by (vm_compute; reflexivity).
  assert (Hb : 90 < 2 ^ 53) by (vm_compute; reflexivity).
  exact (proj1 C8_duration_rounds_and_splits_nonnegative_hours
           Demo.one_and_a_half 90 Hs Hp Hb).
Defined.

(** C9. For every record, the rendered document is billable (it contains
    the CustomerRef of the billing target and the status Billable) if and
    only if the billing target is present, is not the placeholder Shop, and
    the requires-billing flag is the text TRUE; otherwise the document is
    not billable (status NotBillable, no CustomerRef). In particular a
    record whose billing target is absent or is the placeholder renders
    NotBillable whatever its flag. *)
Theorem C9_billable_iff_real_target_and_flag `{Builtins} (entry : Entry) :
  let doc := Qbxml.buildTimeTrackingAddXML entry in
  (Policy.billable_document (Qbxml.escapeXml (CustomerName entry)) doc
   <-> Policy.billing_required entry)
  /\ (Policy.not_billable_document doc <-> ~ Policy.billing_required entry)
  /\ (Str.truthy (CustomerName entry) = false \/ CustomerName entry = Some "Shop" ->
      Policy.not_billable_document doc).
Proof.
  intros doc. subst doc.
  destruct (buildTimeTrackingAddXML_shape entry)
    as (d & n & dur & nt & Hd & Hn & Hdur & Hnt & ->).
  pose proof (is_billable_spec entry) as Hspec.
  destruct (Qbxml.is_billable entry).
  - assert (Hreq : Policy.billing_required entry) by (apply Hspec; reflexivity).
    destruct (billable_shape_facts d n dur _ nt Hd Hn Hdur
                (escapeXml_no_lt (CustomerName entry)) Hnt) as [Hb Hnb].
    split; [tauto|]. split.
    + split; [|tauto]. intros (Hnot & _ & _). congruence.
    + intros Hdefault. exfalso. destruct Hreq as (Ht & Hshop & _).
      destruct Hdefault; congruence.
  - assert (Hreq : ~ Policy.billing_required entry).
    { intros Hr. apply Hspec in Hr. discriminate. }
    pose proof (not_billable_shape_facts d n dur nt Hd Hn Hdur Hnt) as Hnb.
    split; [|tauto].
    split; [|tauto]. intros (_ & Hb). destruct Hnb as (_ & _ & Hnb). congruence.
Qed.

Lemma C9_witness :
  Policy.not_billable_document (Qbxml.buildTimeTrackingAddXML e1).
Proof.
  exact (proj2 (proj2 (C9_billable_iff_real_target_and_flag e1))
           (or_intror eq_refl)).
Defined.

(** C10 (as amended). For every live session, a receiveResponseXML whose
    response parses without error and has no
    QBXML/QBXMLMsgsRs/TimeTrackingAddRs element does one of two things.
    When the parser returned a document, so that reading its QBXML
    member does not throw, the call leaves the world as it was
    (markEntriesQBSynced is not called), leaves [lastError] and the
    worklist as they were, moves the cursor on by exactly one, and
    answers the progress computed at the new cursor, which is not -1.
    When the parser returned null, as it does for an empty response,
    reading the QBXML member throws: the call answers -1 and records the
    TypeError as [lastError], while it still moves the cursor on by one
    and leaves the world as it was. *)
Theorem C10_response_without_element_only_advances
    `{Builtins} `{XmlParser} {St : Type} `{RecordStore St}
    (ticket response : Str.Cell) (σ : State St) (s : Session) (parsed : JS.Value) :
  sessions σ !! Str.or_else ticket "" = Some s ->
  parseStringPromise (Str.or_else response "") = Returns parsed ->
  Doc.timeTrackingAddRs parsed = JS.Undefined ->
  match JS.get parsed "QBXML" with
  | Returns _ =>
      exists s',
        handleReceiveResponseXML ticket response σ
        = (receiveResponseXMLResponse (progress s'),
           mkState (<[Str.or_else ticket "" := s']> (sessions σ)) (world σ))
        /\ currentIndex s' = S (currentIndex s)
        /\ lastError s' = lastError s
        /\ pendingEntries s' = pendingEntries s
        /\ authenticated s' = authenticated s
        /\ progress s' <> Num.of_Z (-1)
  | Throws message =>
      (parsed = JS.Null \/ parsed = JS.Undefined)
      /\ handleReceiveResponseXML ticket response σ
         = (receiveResponseXMLResponse (Num.of_Z (-1)),
            mkState (<[Str.or_else ticket "" :=
                         advanced (set_lastError (JS.Str message) s)]> (sessions σ))
              (world σ))
  end.
Proof.
  intros Hlive Hparse Hnone.
  destruct parsed as [| |text|fields|items]; cbn [JS.get].
  - split; [right; reflexivity|].
    unfold handleReceiveResponseXML. rewrite Hlive.
    unfold receiveResponseXML_try, Try.bind, Try.lift. rewrite Hparse. reflexivity.
  - split; [left; reflexivity|].
    unfold handleReceiveResponseXML. rewrite Hlive.
    unfold receiveResponseXML_try, Try.bind, Try.lift. rewrite Hparse. reflexivity.
  - exists (advanced s). unfold handleReceiveResponseXML. rewrite Hlive.
    unfold receiveResponseXML_try, Try.bind, Try.lift. rewrite Hparse.
    repeat split; auto. apply progress_not_minus_one.
  - exists (advanced s). unfold handleReceiveResponseXML. rewrite Hlive.
    rewrite (receiveResponseXML_try_no_element _ fields) by (rewrite ?Hnone; auto).
    repeat split; auto. apply progress_not_minus_one.
  - exists (advanced s). unfold handleReceiveResponseXML. rewrite Hlive.
    unfold receiveResponseXML_try, Try.bind, Try.lift. rewrite Hparse.
    repeat split; auto. apply progress_not_minus_one.
Qed.

(** C10, as stated, fails: an empty response, and a missing one, parses
    without error, to null, which has no TimeTrackingAddRs element; the
    handler answers -1 and overwrites lastError. *)
Lemma C10_empty_response_is_answered_minus_one :
  parseStringPromise "" = Returns JS.Null
  /\ Doc.timeTrackingAddRs JS.Null = JS.Undefined
  /\ sessions streaming !! ticket = Some streaming_session
  /\ handleReceiveResponseXML (Some ticket) (Some "") streaming
     = (receiveResponseXMLResponse (Num.of_Z (-1)),
        mkState {[ ticket :=
                     {| authenticated := true; pendingEntries := [e1; e2; e3];
                        currentIndex := 1;
                        lastError :=
                          JS.Str "Cannot read properties of null (reading 'QBXML')" |} ]}
          (world streaming))
  /\ handleReceiveResponseXML (Some ticket) None streaming
     = handleReceiveResponseXML (Some ticket) (Some "") streaming
  /\ lastError streaming_session = JS.Str "".
Proof.
  split; [reflexivity|]. split; [reflexivity|].
  split; [vm_compute; reflexivity|].
  split; [vm_compute; reflexivity|]. split; reflexivity.
Qed.

Lemma C10_witness :
  exists s',
    handleReceiveResponseXML (Some ticket) (Some rs_other) streaming
    = (receiveResponseXMLResponse (progress s'),
       mkState (<[ticket := s']> (sessions streaming)) (world streaming))
    /\ currentIndex s' = 1%nat
    /\ lastError s' = JS.Str ""
    /\ pendingEntries s' = [e1; e2; e3]
    /\ authenticated s' = true
    /\ progress s' <> Num.of_Z (-1).
Proof.
  assert (Hlive : sessions streaming !! Str.or_else (Some ticket) ""
                  = Some streaming_session) by (vm_compute; reflexivity).
  assert (Hparse : parseStringPromise (Str.or_else (Some rs_other) "")
                   = Returns (JS.Obj [("QBXML", JS.Obj [("QBXMLMsgsRs", JS.Str "")])]))
    by (vm_compute; reflexivity).
  destruct (C10_response_without_element_only_advances
              (Some ticket) (Some rs_other) streaming streaming_session
              (JS.Obj [("QBXML", JS.Obj [("QBXMLMsgsRs", JS.Str "")])])
              Hlive Hparse eq_refl)
    as (s' & E & Hi & Hl & Hp & Ha & Hn).
  exists s'. repeat split; assumption.
Defined.

(* ===================================================================== *)
(** ** The further properties at work *)
(* ===================================================================== *)

Import Samples.

Example decodeURIComponent_samples :
  Http.decodeURIComponent "a%20b%3D" = Returns "a b="
  /\ Http.decodeURIComponent "%E2%82%AC" = Returns (Text.fromCharCode 8364)
  /\ Http.decodeURIComponent "%E0%A4" = Throws "URI malformed"
  /\ Http.decodeURIComponent "%C0%80" = Throws "URI malformed"
  /\ Http.decodeURIComponent "100%" = Throws "URI malformed".
Proof. vm_compute. repeat split; reflexivity. Qed.

Lemma calls_leave_other_sessions_alone_witness :
  sessions (snd (serve config
                   [authenticate (Some "trippinqb") (Some "changeme123") 1772438400001 "p0q1r";
                    sendRequestXML (Some "TICKET-1772438400001-p0q1r");
                    closeConnection (Some "TICKET-1772438400001-p0q1r");
                    getLastError None]
                   streaming)) !! ticket
  = sessions streaming !! ticket.
Proof.
  apply (calls_leave_other_sessions_alone config).
  repeat constructor; try discriminate; vm_compute; reflexivity.
Defined.

Lemma sessions_of_a_running_process_witness :
  authenticated drained_session = true /\ Str.startsWith "TICKET-" ticket = true.
Proof.
  assert (Hs : sessions (snd (serve config calls (boot [Returns [e1; e2; e3]]))) !! ticket
               = Some drained_session)
    by (vm_compute; reflexivity).
  exact (proj1 (sessions_of_a_running_process config calls [Returns [e1; e2; e3]])
           ticket drained_session Hs).
Defined.

Lemma sendRequestXML_repeats_the_document_at_the_cursor_witness :
  serve config (repeat (sendRequestXML (Some ticket)) 3) streaming
  = (repeat (sendRequestXMLResponse (Qbxml.buildTimeTrackingAddXML e1)) 3, streaming).
Proof.
  assert (Hs : sessions streaming !! Str.or_else (Some ticket) "" = Some streaming_session)
    by (vm_compute; reflexivity).
  exact (sendRequestXML_repeats_the_document_at_the_cursor config
           (Some ticket) streaming streaming_session e1 3 Hs eq_refl eq_refl).
Defined.

Lemma first_request_after_login_fetches_the_worklist_witness :
  serve config [login; sendRequestXML (Some ticket)] (boot [Returns [e1; e2; e3]])
  = ([authenticateResponse [ticket; ""];
      sendRequestXMLResponse (Qbxml.buildTimeTrackingAddXML e1)],
     mkState (<[ticket := mkSession true [e1; e2; e3] 0 (JS.Str "")]> ∅)
       (mkWorld [] 1%nat [])).
Proof.
  exact (first_request_after_login_fetches_the_worklist config
           (Some "trippinqb") (Some "changeme123") 1772438400000 "k3x9q"
           (boot [Returns [e1; e2; e3]]) e1 [e2; e3] [] eq_refl eq_refl eq_refl).
Defined.

Lemma failed_fetch_is_reported_and_retried_witness :
  let σ := snd (serve config [login] (boot [Throws "Quota exceeded"; Returns [e1]])) in
  let σ' := snd (handleSendRequestXML (Some ticket) σ) in
  fst (handleSendRequestXML (Some ticket) σ) = sendRequestXMLResponse ""
  /\ fst (handleGetLastError (Some ticket) σ') = getLastErrorResponse (JS.Str "Quota exceeded")
  /\ fetchCalls (world (snd (handleSendRequestXML (Some ticket) σ'))) = 2%nat.
Proof.
  intros σ σ'.
  assert (Hs : sessions σ !! Str.or_else (Some ticket) "" = Some fresh_session)
    by (vm_compute; reflexivity).
  assert (Hfetch : getQBSyncPendingEntries [Throws "Quota exceeded"; Returns [e1]]
                   = (Throws "Quota exceeded", [Returns [e1]]))
    by reflexivity.
  destruct (failed_fetch_is_reported_and_retried (Some ticket) σ fresh_session
              "Quota exceeded" [Returns [e1]] Hs eq_refl eq_refl eq_refl Hfetch)
    as (E & Hl & Hf).
  split; [rewrite E; reflexivity|]. split; [exact Hl | exact Hf].
Defined.

Lemma unparseable_response_is_skipped_witness :
  handleReceiveResponseXML (Some ticket) (Some "Service unavailable") streaming
  = (receiveResponseXMLResponse (Num.of_Z (-1)),
     mkState (<[ticket := advanced (set_lastError
                                      (JS.Str "Non-whitespace before first tag.")
                                      streaming_session)]>
                (sessions streaming))
       (world streaming)).
Proof.
  assert (Hs : sessions streaming !! Str.or_else (Some ticket) "" = Some streaming_session)
    by (vm_compute; reflexivity).
  exact (unparseable_response_is_skipped (Some ticket) (Some "Service unavailable")
           streaming streaming_session "Non-whitespace before first tag." Hs eq_refl).
Defined.

Lemma failed_mark_skips_the_entry_witness :
  let σ := mkState {[ ticket := mkSession true [e1; e2] 0 (JS.Str "") ]}
             (mkWorld [e1; e2] 1%nat []) in
  handleReceiveResponseXML (Some ticket) (Some rs_ok) σ
  = (receiveResponseXMLResponse (Num.of_Z (-1)),
     mkState (<[ticket := mkSession true [e1; e2] 1
                            (JS.Str "The caller does not have permission")]>
                (sessions σ))
       (mkWorld [e1; e2] 1%nat [[Some "CL-1"]])).
Proof.
  intros σ.
  assert (Hs : sessions σ !! Str.or_else (Some ticket) ""
               = Some (mkSession true [e1; e2] 0 (JS.Str "")))
    by (vm_compute; reflexivity).
  exact (failed_mark_skips_the_entry (Some ticket) (Some rs_ok) σ
           (mkSession true [e1; e2] 0 (JS.Str "")) (addRs "0" "Status OK") e1
           "The caller does not have permission" [e1; e2] Hs eq_refl eq_refl eq_refl eq_refl).
Defined.

Lemma confirmation_beyond_the_worklist_witness :
  handleReceiveResponseXML (Some ticket) (Some rs_ok) (snd outcome)
  = (receiveResponseXMLResponse (Num.of_Z (-1)),
     mkState (<[ticket :=
                  advanced (set_lastError
                              (JS.Str "Cannot read properties of undefined (reading 'ID')")
                              drained_session)]>
                (sessions (snd outcome)))
       (world (snd outcome))).
Proof.
  assert (Hs : sessions (snd outcome) !! Str.or_else (Some ticket) "" = Some drained_session)
    by (vm_compute; reflexivity).
  assert (Hlen : (length (pendingEntries drained_session)
                  <= currentIndex drained_session)%nat) by (vm_compute; lia).
  exact (confirmation_beyond_the_worklist (Some ticket) (Some rs_ok) (snd outcome)
           drained_session (addRs "0" "Status OK") Hs eq_refl eq_refl Hlen).
Defined.

Lemma full_pass_marks_every_entry_in_order_witness :
  let rqs := rounds (Some ticket) (Some rs_ok) 3 in
  let σ' := snd (serve config rqs streaming) in
  fst (serve config rqs streaming) = pass_answers streaming_session [e1; e2; e3]
  /\ sessions σ'
     = <[ticket := set_currentIndex 3 streaming_session]> (sessions streaming)
  /\ markCalls (world σ')
     = markCalls (world streaming) ++ [[Some "CL-1"]; [Some "CL-2"]; [Some "CL-3"]]
  /\ fetchCalls (world σ') = fetchCalls (world streaming)
  /\ handleSendRequestXML (Some ticket) σ' = (sendRequestXMLResponse "", σ').
Proof.
  assert (Hs : sessions streaming !! Str.or_else (Some ticket) "" = Some streaming_session)
    by (vm_compute; reflexivity).
  assert (Hne : pendingEntries streaming_session <> []) by discriminate.
  exact (full_pass_marks_every_entry_in_order config (Some ticket) (Some rs_ok)
           (addRs "0" "Status OK") streaming streaming_session
           eq_refl eq_refl (fun _ _ => eq_refl) Hs eq_refl eq_refl Hne).
Defined.

Lemma formatDate_is_zero_padded_witness :
  Qbxml.formatDate (LocalDate 2026 2 2) = "2026-03-02"
  /\ String.length (Qbxml.formatDate (LocalDate 2026 2 2)) = 10%nat.
Proof.
  destruct (formatDate_is_zero_padded 2026 2 2 ltac:(lia) ltac:(lia)) as [E Hl].
  split; [exact E | apply Hl; lia].
Defined.

Lemma unparseable_hours_render_as_zero_witness :
  Str.includes "<Duration>PT0H</Duration>"
    (Qbxml.buildTimeTrackingAddXML (entry "CL-9" "Flo Ng" "n/a" "Shop" "FALSE")) = true.
Proof.
  exact (unparseable_hours_render_as_zero
           (entry "CL-9" "Flo Ng" "n/a" "Shop" "FALSE") (or_introl eq_refl)).
Defined.

Lemma entry_of_reads_each_column_witness :
  Sheets.entry_of header (SheetsSpec.row_at clockLog 1) 1 !! "TotalHours"
  = Some (Sheets.or_empty (SheetsSpec.row_at clockLog 1 !! 3%nat)).
Proof.
  apply (proj1 (entry_of_reads_each_column header (SheetsSpec.row_at clockLog 1) 1
                  "TotalHours" ltac:(discriminate) ltac:(discriminate))
           3%nat (Sheets.CStr "TotalHours") eq_refl eq_refl).
  intros j' h' Hlt Hj'.
  do 5 (destruct j' as [|j']; [try lia; inversion Hj'; discriminate|]).
  inversion Hj'.
Defined.

Lemma getQBSyncPendingEntries_selects_the_rows_in_need_witness :
  Sheets.getQBSyncPendingEntries roster (fresh [Some clockLog])
  = (Returns [Sheets.entry_of header (SheetsSpec.row_at clockLog 1) 1;
              Sheets.entry_of header (SheetsSpec.row_at clockLog 5) 5],
     Sheets.mkWorld [] true
       [Sheets.authorize_call;
        Sheets.values_get_call "1AbC-roster"
          (Sheets.mkGet "ClockLog!A:U" (Some "UNFORMATTED_VALUE")
                        (Some "FORMATTED_STRING"))]).
Proof.
  assert (Hid : Sheets.spreadsheetId roster <> "") by discriminate.
  pose proof (getQBSyncPendingEntries_selects_the_rows_in_need roster
                (fresh [Some clockLog])
                (Sheets.mkWorld [Some clockLog] true [Sheets.authorize_call])
                (Sheets.mkWorld [] true
                   [Sheets.authorize_call;
                    Sheets.values_get_call "1AbC-roster"
                      (Sheets.mkGet "ClockLog!A:U" (Some "UNFORMATTED_VALUE")
                                    (Some "FORMATTED_STRING"))])
                (Some clockLog) Hid eq_refl eq_refl) as W.
  cbv zeta in W. rewrite W. f_equal.
Defined.

Lemma markEntriesQBSynced_marks_the_matching_rows_witness :
  Sheets.markEntriesQBSynced roster [Some (Sheets.CStr "CL-1")]
    (fresh [Some [header]; Some clockLog])
  = (Returns tt,
     Sheets.mkWorld [] true
       [Sheets.authorize_call;
        Sheets.values_get_call "1AbC-roster" (Sheets.mkGet "ClockLog!1:1" None None);
        Sheets.values_get_call "1AbC-roster"
          (Sheets.mkGet "ClockLog!A:U" (Some "UNFORMATTED_VALUE") None);
        Sheets.values_batchUpdate_call "1AbC-roster" "RAW"
          [Sheets.mkValueRange "ClockLog!E2" [[Sheets.CStr "TRUE"]]]]).
Proof.
  assert (Hid : Sheets.spreadsheetId roster <> "") by discriminate.
  assert (Hids : [Some (Sheets.CStr "CL-1")] <> []) by discriminate.
  pose proof (markEntriesQBSynced_marks_the_matching_rows roster
                [Some (Sheets.CStr "CL-1")]
                (fresh [Some [header]; Some clockLog])
                (Sheets.mkWorld [Some [header]; Some clockLog] true [Sheets.authorize_call])
                (Sheets.mkWorld [Some clockLog] true
                   [Sheets.authorize_call;
                    Sheets.values_get_call "1AbC-roster"
                      (Sheets.mkGet "ClockLog!1:1" None None)])
                (Sheets.mkWorld [] true
                   [Sheets.authorize_call;
                    Sheets.values_get_call "1AbC-roster"
                      (Sheets.mkGet "ClockLog!1:1" None None);
                    Sheets.values_get_call "1AbC-roster"
                      (Sheets.mkGet "ClockLog!A:U" (Some "UNFORMATTED_VALUE") None)])
                (Some clockLog) Hid Hids eq_refl eq_refl eq_refl) as W.
  cbv zeta in W. rewrite W. reflexivity.
Defined.

Lemma markEntriesQBSynced_needs_a_string_id_witness :
  SheetsSpec.no_batch_since (fresh [Some [header]; Some clockLog])
    (snd (Sheets.markEntriesQBSynced roster [Some (Sheets.CNum (Num.of_Z 17)); None]
            (fresh [Some [header]; Some clockLog]))).
Proof.
  apply (proj2 (markEntriesQBSynced_needs_a_string_id roster
                  [Some (Sheets.CNum (Num.of_Z 17)); None]
                  (fresh [Some [header]; Some clockLog]))).
  repeat constructor; intros s; discriminate.
Defined.

Lemma acknowledged_entry_marks_its_own_row_witness :
  Sheets.entry_of header (SheetsSpec.row_at clockLog 1) 1 !! "_rowIndex"
  = Some (Sheets.CNum (Num.of_nat 2))
  /\ Sheets.mkValueRange "ClockLog!E2" [[Sheets.CStr "TRUE"]]
     ∈ Sheets.updates_for [Some (Sheets.CStr "CL-1")] clockLog
         (Sheets.indexOf "ID" header) 4.
Proof.
  assert (Hi : (1 <= 1 < length clockLog)%nat) by (vm_compute; lia).
  assert (Huniq : forall j' h', SheetsSpec.row_at clockLog 0 !! j' = Some h' ->
                    Sheets.toString h' = "ID" -> j' = 0%nat).
  { intros j' h' Hj' Hh'. destruct j' as [|j']; [reflexivity|]. exfalso.
    do 4 (destruct j' as [|j']; [inversion Hj'; subst h'; discriminate Hh'|]).
    inversion Hj'. }
  assert (Hid : Sheets.entry_of (SheetsSpec.row_at clockLog 0)
                  (SheetsSpec.row_at clockLog 1) 1 !! "ID"
                = Some (Sheets.CStr "CL-1")) by (vm_compute; reflexivity).
  exact (acknowledged_entry_marks_its_own_row clockLog 1 0 "CL-1" 4
           Hi eq_refl Huniq Hid).
Defined.

Lemma marked_rows_are_no_longer_pending_witness :
  exists (i : nat) (c : Sheets.Cell),
    (1 <= i < length clockLog)%nat
    /\ Sheets.range (Sheets.mkValueRange "ClockLog!E2" [[Sheets.CStr "TRUE"]])
       = "ClockLog!" +:+ SheetsSpec.column_letter 4 +:+ Num.Z_to_string (Z.of_nat (i + 1))
    /\ SheetsSpec.needs_sync
         (Sheets.entry_of header
            [Sheets.CStr "CL-1"; Sheets.CStr "Ann Lee"; Sheets.CStr "Complete";
             Sheets.CNum (Num.of_Z 8); c] 1)
       = false.
Proof.
  assert (Huniq : forall j h, SheetsSpec.row_at clockLog 0 !! j = Some h ->
                    Sheets.toString h = "QBSynced" -> j = 4%nat).
  { intros j h Hj Hh.
    do 4 (destruct j as [|j]; [inversion Hj; subst h; discriminate Hh|]).
    destruct j as [|j]; [reflexivity | inversion Hj]. }
  assert (Hu : Sheets.mkValueRange "ClockLog!E2" [[Sheets.CStr "TRUE"]]
               ∈ Sheets.updates_for [Some (Sheets.CStr "CL-1")] clockLog
                   (Sheets.indexOf "ID" (SheetsSpec.row_at clockLog 0))
                   (Sheets.indexOf "QBSynced" (SheetsSpec.row_at clockLog 0)))
    by (vm_compute; apply list_elem_of_here).
  destruct (marked_rows_are_no_longer_pending
              [Some (Sheets.CStr "CL-1")] clockLog 4 _ eq_refl Huniq ltac:(lia) Hu)
    as (i & c & Hi & _ & Hr & _ & Hread).
  exists i, c. split; [exact Hi|]. split; [exact Hr|].
  apply Hread. reflexivity.
Defined.

(** With two QBSynced headers the mark goes to the first column and the
    fetch reads the last. *)
Example two_QBSynced_columns_are_written_and_read_apart :
  let headers := [Sheets.CStr "ID"; Sheets.CStr "QBSynced"; Sheets.CStr "QBSynced"] in
  Sheets.updates_for [Some (Sheets.CStr "CL-1")] [headers; [Sheets.CStr "CL-1"]]
    (Sheets.indexOf "ID" headers) (Sheets.indexOf "QBSynced" headers)
  = [Sheets.mkValueRange "ClockLog!B2" [[Sheets.CStr "TRUE"]]]
  /\ Sheets.entry_of headers [Sheets.CStr "CL-1"; Sheets.CStr "TRUE"] 1 !! "QBSynced"
     = Some (Sheets.CStr "").
Proof. vm_compute. split; reflexivity. Qed.

(** [decodeURIComponent] leaves text without an escape as it is. *)
Lemma percent_plain (s : string) :
  Str.has_char "%" s = false -> Http.decodeURIComponent s = Returns s.
Proof.
  unfold Http.decodeURIComponent, percent.
  induction s as [|c s IH]; [reflexivity|]. cbn [Str.has_char String.length Uri.decode].
  intros Hs. apply orb_false_iff in Hs as [Hc Hs]. rewrite Hc, (IH Hs). reflexivity.
Qed.

Lemma parseQuery_reads_the_pairs_witness :
  Http.parseQuery "/qbwc?wsdl&lang=en&lang=nb"
  = Returns {[ "wsdl" := ""; "lang" := "nb" ]}
  /\ Http.parseQuery "/qbwc" = Returns ∅
  /\ Http.parseQuery "/qbwc?" = Returns {[ "" := "" ]}.
Proof.
  destruct (parseQuery_reads_the_pairs "/qbwc" ("wsdl", None)
              [("lang", Some "en"); ("lang", Some "nb")]
              percent_plain eq_refl ltac:(repeat constructor))
    as (E1 & E2 & E3).
  split; [|split; [exact E2 | exact E3]].
  etransitivity; [exact E1 | reflexivity].
Defined.

Lemma parseQuery_cuts_a_value_at_the_next_equals_sign_witness :
  Http.parseQuery "/support?topic=login=%E0" = Returns {[ "topic" := "login" ]}.
Proof.
  exact (parseQuery_cuts_a_value_at_the_next_equals_sign "/support" "topic" "login" "%E0"
           percent_plain eq_refl eq_refl eq_refl eq_refl).
Defined.

Lemma malformed_query_leaves_the_request_unanswered_witness :
  exists message,
    Http.onRequestEnd no_soap "wsdl" "POST" "/qbwc?trace=%E0%A4" "<soap:Envelope/>" tt
    = (Throws message, tt).
Proof.
  pose proof (malformed_query_leaves_the_request_unanswered no_soap "wsdl"
                "POST" "/qbwc?trace=%E0%A4" "<soap:Envelope/>" tt) as W.
  assert (Hm : existsb HttpSpec.malformed (HttpSpec.query_pairs "/qbwc?trace=%E0%A4") = true)
    by (vm_compute; reflexivity).
  rewrite Hm in W. exact W.
Defined.

Lemma wsdl_is_served_wherever_the_query_names_it_witness :
  Http.onRequestEnd no_soap "wsdl" "GET" "/support?wsdl" "" tt
  = (Returns (Http.mkRes 200 {[ "Content-Type" := "text/xml" ]} (Some "wsdl")), tt).
Proof.
  exact (wsdl_is_served_wherever_the_query_names_it no_soap "wsdl" "/support" ""
           ("wsdl", None) [] None tt percent_plain eq_refl
           ltac:(repeat constructor) ltac:(apply list_elem_of_here)).
Defined.

Lemma route_finds_the_method_under_any_prefix_witness :
  Soap.route (Soap.responseObj "sendRequestXML" (JS.Obj [("ticket", JS.Str ticket)]))
  = Returns ("sendRequestXML", JS.Obj [("ticket", JS.Str ticket)]).
Proof.
  apply (route_finds_the_method_under_any_prefix
           (Soap.responseObj "sendRequestXML" (JS.Obj [("ticket", JS.Str ticket)]))
           [] [] "qbwc:sendRequestXML" "sendRequestXML"
           (JS.Obj [("ticket", JS.Str ticket)])).
  - eexists. reflexivity.
  - eexists. reflexivity.
  - reflexivity.
  - constructor.
  - reflexivity.
  - right. exists "qbwc". repeat split. discriminate.
Defined.

Lemma route_rejects_what_is_not_an_envelope_witness :
  Soap.route (JS.Obj [("soap:Envelope", JS.Obj [("soap:Body", JS.Str "")])])
  = Throws "Cannot convert undefined or null to object"
  /\ Soap.route (JS.Obj [("Envelope", JS.Obj [("Body", JS.Str "")])])
     = Throws "Unknown SOAP method"
  /\ Soap.route (JS.Obj [("html", JS.Str "Bad gateway")])
     = Throws "Cannot read properties of undefined (reading 'soap:Body')".
Proof.
  pose proof route_rejects_what_is_not_an_envelope as (_ & Hnone & _ & Hbody & _).
  split; [|split].
  - exact (proj1 (Hbody [("soap:Envelope", JS.Obj [("soap:Body", JS.Str "")])]
                   [("soap:Body", JS.Str "")] eq_refl eq_refl eq_refl) eq_refl).
  - exact (proj2 (Hbody [("Envelope", JS.Obj [("Body", JS.Str "")])]
                   [("Body", JS.Str "")] eq_refl eq_refl eq_refl) eq_refl).
  - exact (Hnone [("html", JS.Str "Bad gateway")] eq_refl).
Defined.
